(** * json-versioning-backend: the document controller and its diff engine

    A shallow embedding of [src/controllers/documentController.ts]
    (the authenticated variant), of the two Mongoose models it writes
    through ([models/Document.ts], [models/Version.ts]) and of the part
    of the JavaScript runtime and of the [jsondiffpatch] library that the
    controller calls; then of the accounts ([models/User.ts],
    [controllers/authController.ts]), of the middleware
    ([middlewares/auth.ts]) and of the two routers, with bcrypt,
    jsonwebtoken and the casts of Mongoose as parameters.

    Layout: JavaScript values, the diff engine, the store and its monad,
    the handlers, a runtime ([JSON.parse], [JSON.stringify]), the
    accounts and the routers, stores to run them on, then the
    properties. *)

From Stdlib Require Import List String Ascii ZArith NArith QArith Bool Lia.
From Stdlib Require Import Qcanon DecimalString DecimalZ DecimalPos.
From Stdlib Require Import Permutation Sorted.
Import ListNotations.
Local Open Scope nat_scope.
Local Open Scope list_scope.
#[local] Set Warnings "-register-all".

(* ================================================================== *)
(** ** JavaScript values *)

(** A JavaScript string is a sequence of UTF-16 code units. *)
Definition code_unit := N.
Definition jsstring := list code_unit.

(** [js] turns a literal into a JavaScript string; an apostrophe in the
    literal stands for a double quote, so that JSON texts can be written
    down as ['{'a':1}']. *)
Definition js_unit (c : ascii) : code_unit :=
  if Ascii.eqb c "'"%char then 34%N else N_of_ascii c.

Definition js (s : string) : jsstring :=
  map js_unit (list_ascii_of_string s).

Definition jsstring_eqb (a b : jsstring) : bool :=
  if list_eq_dec N.eq_dec a b then true else false.

(** A number that [JSON.parse] can return: a finite one, which is the
    rational it denotes, or [Infinity] or [-Infinity], which it returns
    for a literal beyond the range of the doubles, such as [1e999].
    The rounding of a finite number to a double is not modelled. *)
Inductive jsnumber :=
| Finite (q : Qc)
| Infinity (negative : bool).

(** [x === y] on numbers ([NaN] is not among them). *)
Definition number_eqb (x y : jsnumber) : bool :=
  match x, y with
  | Finite a, Finite b => Qc_eq_bool a b
  | Infinity a, Infinity b => Bool.eqb a b
  | _, _ => false
  end.

(** The values [JSON.parse] can return.  An object is the list of its
    own properties in enumeration order. *)
Inductive json : Type :=
| JNull
| JBool (b : bool)
| JNum (n : jsnumber)
| JStr (s : jsstring)
| JArr (items : list json)
| JObj (props : list (jsstring * json)).

(** The result of [typeof], with [null] kept apart as jsondiffpatch does
    ([context.left === null ? 'null' : typeof context.left]). *)
Inductive jstype := TNull | TBoolean | TNumber | TString | TObject.

Definition jstype_eqb (a b : jstype) : bool :=
  match a, b with
  | TNull, TNull | TBoolean, TBoolean | TNumber, TNumber
  | TString, TString | TObject, TObject => true
  | _, _ => false
  end.

Definition typeOf (v : json) : jstype :=
  match v with
  | JNull => TNull
  | JBool _ => TBoolean
  | JNum _ => TNumber
  | JStr _ => TString
  | JArr _ | JObj _ => TObject
  end.

(** [typeof v === 'object'], which holds of [null] too. *)
Definition typeof_object (v : json) : bool :=
  match v with
  | JNull | JArr _ | JObj _ => true
  | _ => false
  end.

Definition isArray (v : json) : bool :=
  match v with JArr _ => true | _ => false end.

(** Truthiness of a value that may be [undefined] ([None]). *)
Definition truthy (v : option json) : bool :=
  match v with
  | None => false
  | Some JNull => false
  | Some (JBool b) => b
  | Some (JNum (Finite q)) => negb (Qc_eq_bool q 0%Qc)
  | Some (JNum (Infinity _)) => true
  | Some (JStr s) => negb (jsstring_eqb s [])
  | Some (JArr _) | Some (JObj _) => true
  end.

(** [a === b] for two values that do not share a reference: the two
    sides of a diff come from two calls of [JSON.parse] (or are two
    strings), so an object or an array on one side is never identical to
    anything on the other side. *)
Definition strict_eq (a b : json) : bool :=
  match a, b with
  | JNull, JNull => true
  | JBool x, JBool y => Bool.eqb x y
  | JNum x, JNum y => number_eqb x y
  | JStr x, JStr y => jsstring_eqb x y
  | _, _ => false
  end.

(** [obj[name]] on own properties. *)
Fixpoint getOwn (name : jsstring) (props : list (jsstring * json)) : option json :=
  match props with
  | [] => None
  | (k, v) :: rest => if jsstring_eqb k name then Some v else getOwn name rest
  end.

(** [obj.id] for a value that is not [null]: arrays and primitives have
    no such property. *)
Definition get_id (v : json) : option json :=
  match v with
  | JObj props => getOwn (js "id") props
  | _ => None
  end.

(* ================================================================== *)
(** ** The diff engine

    [diffPatcher] is [jsondiffpatch.create] applied to the two options of
    the controller.  The library is not part of the repository; its diff
    pipeline (filters [trivial], [texts], [objects], [arrays], then
    [collectChildren]) is written out here as far as the controller
    depends on it.  Two things are left to the runtime the controller
    runs in and are parameters below: whether the text-diff module
    ([diff-match-patch]) is loaded, and what the longest-common-
    subsequence phase of the array filter produces.  A property is
    looked up among the own properties of an object: names that an
    object inherits ([constructor], [toString], ...) are not modelled. *)

(** Keys of an array delta: [index] (in the right array) or [_index]
    (in the left array). *)
Inductive akey := AIdx (i : nat) | ARem (i : nat).

(** A jsondiffpatch delta. *)
Inductive delta : Type :=
| DAdded (r : json)                          (* [r] *)
| DReplaced (l r : json)                     (* [l, r] *)
| DDeleted (l : json)                        (* [l, 0, 0] *)
| DText (l r : jsstring)                     (* [textdiff(l, r), 0, 2] *)
| DMoved (dest : nat)                        (* ['', dest, 3] *)
| DObject (members : list (jsstring * delta))
| DArray (members : list (akey * delta)).    (* { _t: 'a', ... } *)

(** What a call of [diffPatcher.diff] does: it throws, or it returns
    [undefined] (no difference), or it returns a delta. *)
Inductive outcome := Threw | Undefined | Delta (d : delta).

(** [DEFAULT_MIN_LENGTH] of the [texts] filter. *)
Definition DEFAULT_MIN_LENGTH : nat := 60.

(** [propertyFilter: (name) => name !== '$hashKey'] *)
Definition propertyFilter (name : jsstring) : bool :=
  negb (jsstring_eqb name (js "$hashKey")).

(** Collecting the results of children: a child that threw makes the
    whole diff throw, a child without result is skipped. *)
Definition collect {K : Type} (name : K) (child : outcome)
    (rest : option (list (K * delta))) : option (list (K * delta)) :=
  match child, rest with
  | Threw, _ => None
  | _, None => None
  | Undefined, Some ms => Some ms
  | Delta d, Some ms => Some ((name, d) :: ms)
  end.

(** [result[index] = [array2[index]]] for [index] from [from] on. *)
Fixpoint added_block (from : nat) (items : list json) : list (akey * delta) :=
  match items with
  | [] => []
  | x :: rest => (AIdx from, DAdded x) :: added_block (S from) rest
  end.

(** [result['_' + index] = [array1[index], 0, 0]] for [index] from [from] on. *)
Fixpoint removed_block (from : nat) (items : list json) : list (akey * delta) :=
  match items with
  | [] => []
  | x :: rest => (ARem from, DDeleted x) :: removed_block (S from) rest
  end.

(** The slice [array.slice(head, len - tail)]. *)
Definition trimmed (head tail : nat) (items : list json) : list json :=
  firstn (List.length items - head - tail) (skipn head items).

Section DiffEngine.

(** [JSON.stringify], of the JavaScript runtime. *)
Variable JSON_stringify : json -> jsstring.

(** Whether [diff-match-patch] is loaded, so that the [texts] filter
    produces text patches for long strings. *)
Variable dmp_loaded : bool.

(** The longest-common-subsequence phase of the [arrays] filter, given
    [commonHead] and the two trimmed arrays: the members it puts into
    the array delta (removals, additions, moves and the deltas of the
    items it matched), or [None] when it throws. *)
Variable lcs_phase : nat -> list json -> list json -> option (list (akey * delta)).

(** [objectHash: (obj) => obj.id || JSON.stringify(obj)].  Reading
    [id] off [null] throws a [TypeError]: the result is [None]. *)
Definition objectHash (obj : json) : option json :=
  match obj with
  | JNull => None
  | _ => if truthy (get_id obj)
         then get_id obj
         else Some (JStr (JSON_stringify obj))
  end.

(** [matchItems] of the [arrays] filter, on the two items: [None] when
    [objectHash] throws. *)
Definition matchItems (value1 value2 : json) : option bool :=
  if strict_eq value1 value2 then Some true
  else if negb (typeof_object value1) || negb (typeof_object value2) then Some false
  else match objectHash value1 with
       | None => None
       | Some hash1 =>
           match objectHash value2 with
           | None => None
           | Some hash2 => Some (strict_eq hash1 hash2)
           end
       end.

(** The number of leading positions at which the two arrays match. *)
Fixpoint commonHead (array1 array2 : list json) : option nat :=
  match array1, array2 with
  | x :: xs, y :: ys =>
      match matchItems x y with
      | None => None
      | Some true => option_map S (commonHead xs ys)
      | Some false => Some 0
      end
  | _, _ => Some 0
  end.

(** The number of trailing positions, after the common head, at which
    the two arrays match. *)
Definition commonTail (head : nat) (array1 array2 : list json) : option nat :=
  commonHead (rev (skipn head array1)) (rev (skipn head array2)).

(** The [texts] filter. *)
Definition textsDiff (left right : jsstring) : delta :=
  if (List.length left <? DEFAULT_MIN_LENGTH) || (List.length right <? DEFAULT_MIN_LENGTH)
  then DReplaced (JStr left) (JStr right)
  else if dmp_loaded then DText left right
  else DReplaced (JStr left) (JStr right).

(** What the [arrays] filter sets as result before the children are
    collected: nothing (identical by matching), a block of additions,
    a block of removals, or the members of the LCS phase. *)
Definition arrayMiddle (head tail : nat) (array1 array2 : list json)
    : option (option (list (akey * delta))) :=
  let len1 := List.length array1 in
  let len2 := List.length array2 in
  if head + tail =? len1 then
    if len1 =? len2 then Some None
    else Some (Some (added_block head (trimmed head tail array2)))
  else if head + tail =? len2 then
    Some (Some (removed_block head (trimmed head tail array1)))
  else
    match lcs_phase head (trimmed head tail array1) (trimmed head tail array2) with
    | None => None
    | Some members => Some (Some members)
    end.

(** The index in the right array of the item paired with the left
    item at [i], when that item lies in the common head or tail. *)
Definition pairedIndex (head tail len1 len2 i : nat) : option nat :=
  if i <? head then Some i
  else if len1 - tail <=? i then Some (i + len2 - len1)
  else None.

(** The [objects] filter on the own properties of the left object: a
    child per property that passes [propertyFilter], diffed by [d]
    against the property of that name of the right object, or deleted
    when the right object has none. *)
Fixpoint leftChildren (d : json -> json -> outcome) (right : list (jsstring * json))
    (props : list (jsstring * json)) : option (list (jsstring * delta)) :=
  match props with
  | [] => Some []
  | (name, lv) :: rest =>
      if propertyFilter name then
        collect name
          (match getOwn name right with
           | None => Delta (DDeleted lv)
           | Some rv => d lv rv
           end)
          (leftChildren d right rest)
      else leftChildren d right rest
  end.

(** The [objects] filter on the own properties of the right object
    that the left object does not have: they are added. *)
Definition rightChildren (left right : list (jsstring * json)) : list (jsstring * delta) :=
  flat_map (fun '(name, rv) =>
              if propertyFilter name then
                match getOwn name left with
                | None => [(name, DAdded rv)]
                | Some _ => []
                end
              else []) right.

(** The children of the [arrays] filter: the items of the common head
    and of the common tail, each diffed by [d] against the item it is
    paired with; [i] is the index of the first of [items] in the left
    array. *)
Fixpoint pairedChildren (d : json -> json -> outcome) (head tail len1 len2 : nat)
    (array2 : list json) (i : nat) (items : list json) : option (list (akey * delta)) :=
  match items with
  | [] => Some []
  | lv :: rest =>
      match pairedIndex head tail len1 len2 i with
      | None => pairedChildren d head tail len1 len2 array2 (S i) rest
      | Some j =>
          match nth_error array2 j with
          | None => pairedChildren d head tail len1 len2 array2 (S i) rest
          | Some rv =>
              collect (AIdx j) (d lv rv)
                (pairedChildren d head tail len1 len2 array2 (S i) rest)
          end
      end
  end.

(** [diffPatcher.diff(left, right)] for two defined values. *)
Fixpoint diff (left right : json) {struct left} : outcome :=
  if strict_eq left right then Undefined
  else if negb (jstype_eqb (typeOf left) (typeOf right)) then Delta (DReplaced left right)
  else
    match left, right with
    | JStr l, JStr r => Delta (textsDiff l r)
    | JObj pl, JObj pr =>
        match leftChildren diff pr pl with
        | None => Threw
        | Some ms =>
            match ms ++ rightChildren pl pr with
            | [] => Undefined
            | members => Delta (DObject members)
            end
        end
    | JArr array1, JArr array2 =>
        match commonHead array1 array2 with
        | None => Threw
        | Some head =>
            match commonTail head array1 array2 with
            | None => Threw
            | Some tail =>
                match arrayMiddle head tail array1 array2,
                      pairedChildren diff head tail (List.length array1) (List.length array2)
                        array2 0 array1 with
                | None, _ | _, None => Threw
                | Some None, Some [] => Undefined
                | Some None, Some cs => Delta (DArray cs)
                | Some (Some members), Some cs => Delta (DArray (members ++ cs))
                end
            end
        end
    | _, _ => Delta (DReplaced left right)
    end.

End DiffEngine.

(** A container is an array or an object; the other values are scalars. *)
Definition is_container (v : json) : bool :=
  match v with JArr _ | JObj _ => true | _ => false end.


(** The [id] of an array element is not itself an object or an array. *)
Definition primitive_id (e : json) : bool :=
  match get_id e with
  | Some v => negb (is_container v)
  | None => true
  end.

Fixpoint unique_names (names : list jsstring) : bool :=
  match names with
  | [] => true
  | n :: rest => negb (existsb (jsstring_eqb n) rest) && unique_names rest
  end.

(** A value as [JSON.parse] builds it (no name twice in an object) in
    which every array element has a primitive [id], if any. *)
Fixpoint plain_ids (v : json) : bool :=
  match v with
  | JArr items => forallb (fun x => primitive_id x && plain_ids x) items
  | JObj props =>
      unique_names (map fst props) && forallb (fun kv => plain_ids (snd kv)) props
  | _ => true
  end.

(** The values of [obj.id] the claim about [objectHash] lists: absent,
    [null], [0], the empty string, [false]. *)
Definition falsy_id (v : option json) : Prop :=
  v = None \/ v = Some JNull \/ v = Some (JNum (Finite 0%Qc)) \/ v = Some (JStr []) \/
  v = Some (JBool false).

(** An object without the properties that [propertyFilter] hides. *)
Definition filtered (props : list (jsstring * json)) : list (jsstring * json) :=
  filter (fun kv => propertyFilter (fst kv)) props.

(** Two array elements that are the same record: two objects with the
    same [id], which is truthy and not an object or an array. *)
Definition same_record (x y : json) : bool :=
  match x, y with
  | JObj _, JObj _ =>
      match get_id x, get_id y with
      | Some i, Some j => truthy (Some i) && negb (is_container i) && strict_eq i j
      | _, _ => false
      end
  | _, _ => false
  end.

(* ================================================================== *)
(** ** The store: the two Mongoose models *)

(** A MongoDB [ObjectId]. *)
Definition oid := N.

(** [models/Document.ts] *)
Record Document := mkDocument {
  d_id : oid;
  d_name : jsstring;
  d_content : jsstring;
  d_userId : option oid;
  d_createdAt : Z;
  d_updatedAt : Z
}.

(** The [diff] path of a version is [Mixed]: the controller stores the
    literal [[]] there, or a delta of the diff engine. *)
Inductive mixed := EmptyArray | OfDelta (d : delta).

(** [models/Version.ts] *)
Record Version := mkVersion {
  v_id : oid;
  v_documentId : oid;
  v_content : jsstring;
  v_isAutoSave : bool;
  v_userId : option oid;
  v_diff : option mixed;
  v_mergedFrom : option oid;
  v_createdAt : Z;
  v_updatedAt : Z
}.

(** The two collections, in insertion order, and the number of calls
    made to the database so far. *)
Record World := mkWorld {
  documents : list Document;
  versions : list Version;
  calls : nat
}.

(** An HTTP response: status and body.  A body is a message or the
    record the handler copies its fields from. *)
Inductive body :=
| Message (m : string)
| DocumentBody (d : Document)
| VersionBody (v : Version)
| MergedBody (d : Document) (mergedVersionId : oid).

Record Response := mkResponse { status : nat; payload : body }.

(** A step of a handler: it goes on with a value, or it has returned a
    response, or it has thrown. *)
Inductive res (A : Type) :=
| Ok (a : A)
| Return (r : Response)
| Throw.
Arguments Ok {A} a.
Arguments Return {A} r.
Arguments Throw {A}.

Definition M (A : Type) := World -> res A * World.

Definition ret {A} (a : A) : M A := fun w => (Ok a, w).
Definition bind {A B} (m : M A) (f : A -> M B) : M B :=
  fun w => match m w with
           | (Ok a, w') => f a w'
           | (Return r, w') => (Return r, w')
           | (Throw, w') => (Throw, w')
           end.
Definition respond {A} (code : nat) (b : body) : M A :=
  fun w => (Return (mkResponse code b), w).
Definition throw {A} : M A := fun w => (Throw, w).

Declare Scope handler_scope.
Delimit Scope handler_scope with handler.
Notation "x <- m ;; k" := (bind m (fun x => k))
  (at level 61, m at next level, right associativity) : handler_scope.
Notation "m ;;; k" := (bind m (fun _ => k))
  (at level 61, right associativity) : handler_scope.

(** [try { ... } catch (err) { return res.status(500).json(...) }] *)
Definition internal_error : Response :=
  mkResponse 500 (Message "An internal server error occurred.").

Definition try_catch (m : M Response) (w : World) : Response * World :=
  match m w with
  | (Ok r, w') => (r, w')
  | (Return r, w') => (r, w')
  | (Throw, w') => (internal_error, w')
  end.

(** Replacing the first record with the given id, as an update by [_id]
    does. *)
Fixpoint replaceDocument (d : Document) (ds : list Document) : list Document :=
  match ds with
  | [] => []
  | x :: rest => if N.eqb (d_id x) (d_id d) then d :: rest
                 else x :: replaceDocument d rest
  end.

Fixpoint replaceVersion (v : Version) (vs : list Version) : list Version :=
  match vs with
  | [] => []
  | x :: rest => if N.eqb (v_id x) (v_id v) then v :: rest
                 else x :: replaceVersion v rest
  end.

(** The [required] validator of a [String] path rejects the empty
    string as well as a missing value. *)
Definition required_string (s : jsstring) : bool :=
  negb (jsstring_eqb s []).

Definition document_eqb (a b : Document) : bool :=
  jsstring_eqb (d_name a) (d_name b) && jsstring_eqb (d_content a) (d_content b).

Definition version_eqb (a b : Version) : bool :=
  jsstring_eqb (v_content a) (v_content b).

(** ** The request *)

(** A route parameter after [mongoose.Types.ObjectId.isValid]: either
    it is not an ObjectId, or it is the given one. *)
Inductive idParam := NotAnObjectId | ObjectIdOf (o : oid).

Definition isValid (p : idParam) : bool :=
  match p with NotAnObjectId => false | ObjectIdOf _ => true end.

(** [req.user], set by the authentication middleware. *)
Record User := mkUser { u_id : oid }.

(** A request: the two route parameters, the fields the handlers read
    off the JSON body ([None] is [undefined]) and the user. *)
Record Request := mkRequest {
  params_id : idParam;
  params_versionId : idParam;
  body_name : option json;
  body_content : option json;
  body_isAutoSave : option json;
  user : option User
}.

(** White space and line terminators, which [String.prototype.trim]
    removes. *)
Definition isWhiteSpace (c : code_unit) : bool :=
  existsb (N.eqb c)
    [9; 10; 11; 12; 13; 32; 160; 5760; 8192; 8193; 8194; 8195; 8196; 8197;
     8198; 8199; 8200; 8201; 8202; 8232; 8233; 8239; 8287; 12288; 65279]%N.

(** [name.trim() === ''] *)
Definition trim_is_empty (name : jsstring) : bool := forallb isWhiteSpace name.

(** ** Lists of records and query parameters *)

(** What a handler that answers with [res.json(value)] does: it sends
    that value with status 200, or it has sent another response. *)
Inductive answer (A : Type) :=
| Sent (r : Response)
| Json (a : A).
Arguments Sent {A} r.
Arguments Json {A} a.

Definition try_catch_json {A} (m : M A) (w : World) : answer A * World :=
  match m w with
  | (Ok a, w') => (Json a, w')
  | (Return r, w') => (Sent r, w')
  | (Throw, w') => (Sent internal_error, w')
  end.

(** [.sort({ createdAt: -1 })]: the records by decreasing key.  Records
    with equal keys come out in the reverse of their order in the
    collection; MongoDB does not promise an order among them, and the
    properties below say nothing of it. *)
Fixpoint insertDesc {A} (key : A -> Z) (x : A) (l : list A) : list A :=
  match l with
  | [] => [x]
  | y :: rest => if (key y <? key x)%Z then x :: l else y :: insertDesc key x rest
  end.

Fixpoint sortDesc {A} (key : A -> Z) (l : list A) : list A :=
  match l with
  | [] => []
  | x :: rest => insertDesc key x (sortDesc key rest)
  end.

(** The digits at the head of a string and their value in base 10. *)
Fixpoint leadingDigits (s : jsstring) (acc : option Z) : option Z :=
  match s with
  | c :: rest =>
      if (48 <=? c)%N && (c <=? 57)%N
      then leadingDigits rest
             (Some (10 * match acc with Some n => n | None => 0 end + Z.of_N (c - 48))%Z)
      else acc
  | [] => acc
  end.

Fixpoint skipWhiteSpace (s : jsstring) : jsstring :=
  match s with
  | c :: rest => if isWhiteSpace c then skipWhiteSpace rest else s
  | [] => []
  end.

(** [parseInt(value, 10)] of a query parameter, which is absent
    ([None]) or the string that [parseInt] converts it to: leading
    white space is skipped, a sign is read, then the digits up to the
    first other character; [None] is [NaN].  The result is the exact
    integer: the rounding of integers beyond [2^53] is not modelled. *)
Definition parseInt (value : option jsstring) : option Z :=
  match value with
  | None => None
  | Some s =>
      match skipWhiteSpace s with
      | c :: rest =>
          if N.eqb c 45 then option_map Z.opp (leadingDigits rest None)
          else if N.eqb c 43 then leadingDigits rest None
          else leadingDigits (c :: rest) None
      | [] => None
      end
  end.

(** [number || fallback]: [NaN] and [0] are falsy. *)
Definition orDefault (n : option Z) (fallback : Z) : Z :=
  match n with
  | Some v => if (v =? 0)%Z then fallback else v
  | None => fallback
  end.

(** [Math.ceil(total / limit)] for a positive [limit]. *)
Definition ceilDiv (total limit : Z) : Z := ((total + limit - 1) / limit)%Z.

(** The query of [getDocuments] and its user. *)
Record ListRequest := mkListRequest {
  query_page : option jsstring;
  query_limit : option jsstring;
  list_user : option User
}.

(** The body of the answer of [getDocuments]. *)
Record Page := mkPage {
  data : list Document;
  currentPage : Z;
  totalPages : Z;
  totalDocuments : Z
}.

(** The [diff] path of a version holds the result of a call of the
    diff engine, which has not thrown: nothing for [undefined], else
    the delta. *)
Definition holds_diff (v : Version) (result : outcome) : Prop :=
  match result with
  | Threw => False
  | Undefined => v_diff v = None
  | Delta d => v_diff v = Some (OfDelta d)
  end.

Section Controller.

(** The JavaScript runtime and the diff library (see above). *)
Variable JSON_parse : jsstring -> option json.
Variable JSON_stringify : json -> jsstring.
Variable dmp_loaded : bool.
Variable lcs_phase : nat -> list json -> list json -> option (list (akey * delta)).

(** The persistence layer: whether the n-th call to the database
    fails, the time at that call and the ObjectId generated for a
    record inserted by it. *)
Variable fault : nat -> bool.
Variable clock : nat -> Z.
Variable objectId : nat -> oid.

Local Open Scope handler_scope.

(** One call to the database: it is counted, and throws if it fails. *)
Definition dbcall : M nat :=
  fun w =>
    let n := calls w in
    let w' := mkWorld (documents w) (versions w) (S n) in
    if fault n then (Throw, w') else (Ok n, w').

Definition modify (f : World -> World) : M unit := fun w => (Ok tt, f w).
Definition get {A} (f : World -> A) : M A := fun w => (Ok (f w), w).

(** [Document.create({ name, content, userId })]: validation, then
    the insertion. *)
Definition Document_create (name content : jsstring) (userId : option oid) : M Document :=
  if required_string name && required_string content then
    n <- dbcall ;;
    let d := mkDocument (objectId n) name content userId (clock n) (clock n) in
    modify (fun w => mkWorld (documents w ++ [d]) (versions w) (calls w)) ;;;
    ret d
  else throw.

(** [Document.findById(id)] *)
Definition Document_findById (id : oid) : M (option Document) :=
  dbcall ;;;
  get (fun w => find (fun d => N.eqb (d_id d) id) (documents w)).

(** [doc.save()] for a document loaded as [loaded] and assigned to
    since: validation; when nothing was modified, only a query that
    the document is still there; else the update by [_id], which sets
    [updatedAt]. *)
Definition Document_save (loaded doc : Document) : M unit :=
  if required_string (d_name doc) && required_string (d_content doc) then
    if document_eqb loaded doc then dbcall ;;; ret tt
    else
      n <- dbcall ;;
      let d := mkDocument (d_id doc) (d_name doc) (d_content doc) (d_userId doc)
                          (d_createdAt doc) (clock n) in
      modify (fun w => mkWorld (replaceDocument d (documents w)) (versions w) (calls w))
  else throw.

(** [Version.create({ documentId, content, isAutoSave, diff, mergedFrom, userId })] *)
Definition Version_create (documentId : oid) (content : jsstring) (isAutoSave : bool)
    (diff : option mixed) (mergedFrom : option oid) (userId : option oid) : M Version :=
  if required_string content then
    n <- dbcall ;;
    let v := mkVersion (objectId n) documentId content isAutoSave userId diff mergedFrom
                       (clock n) (clock n) in
    modify (fun w => mkWorld (documents w) (versions w ++ [v]) (calls w)) ;;;
    ret v
  else throw.

(** [Version.findById(versionId)] *)
Definition Version_findById (versionId : oid) : M (option Version) :=
  dbcall ;;;
  get (fun w => find (fun v => N.eqb (v_id v) versionId) (versions w)).

(** [Version.findOne({ _id: versionId, documentId: id })] *)
Definition Version_findOne (versionId id : oid) : M (option Version) :=
  dbcall ;;;
  get (fun w => find (fun v => N.eqb (v_id v) versionId && N.eqb (v_documentId v) id)
                     (versions w)).

(** [version.save()] *)
Definition Version_save (loaded version : Version) : M unit :=
  if required_string (v_content version) then
    if version_eqb loaded version then dbcall ;;; ret tt
    else
      n <- dbcall ;;
      let v := mkVersion (v_id version) (v_documentId version) (v_content version)
                         (v_isAutoSave version) (v_userId version) (v_diff version)
                         (v_mergedFrom version) (v_createdAt version) (clock n) in
      modify (fun w => mkWorld (documents w) (replaceVersion v (versions w)) (calls w))
  else throw.

(** [!req.user || !doc.userId], then
    [doc.userId.toString() !== req.user._id.toString()]: both answer
    403. *)
Definition owns (u : option User) (d : Document) : bool :=
  match u, d_userId d with
  | Some usr, Some owner => N.eqb owner (u_id usr)
  | _, _ => false
  end.

(** Reading a variable that is not declared throws a [ReferenceError]. *)
Definition undeclared {A} (name : string) : M A := throw.

(** ** The handlers *)

Definition diffPatcher_diff : json -> json -> outcome :=
  diff JSON_stringify dmp_loaded lcs_phase.

(** The two values handed to the diff engine:
    [try { oldContent = JSON.parse(doc.content); newContent = JSON.parse(content) }
     catch { oldContent = doc.content; newContent = content }] *)
Definition parseBoth (docContent content : jsstring) : json * json :=
  match JSON_parse docContent, JSON_parse content with
  | Some oldContent, Some newContent => (oldContent, newContent)
  | _, _ => (JStr docContent, JStr content)
  end.

(** The value of [const diff = diffPatcher.diff(oldContent, newContent)]
    as the [diff] path of a version: [undefined] leaves the path unset. *)
Definition computeDiff (docContent content : jsstring) : M (option mixed) :=
  let '(oldContent, newContent) := parseBoth docContent content in
  match diffPatcher_diff oldContent newContent with
  | Threw => throw
  | Undefined => ret None
  | Delta d => ret (Some (OfDelta d))
  end.

Definition setContent (doc : Document) (content : jsstring) : Document :=
  mkDocument (d_id doc) (d_name doc) content (d_userId doc) (d_createdAt doc) (d_updatedAt doc).

Definition setName (doc : Document) (name : jsstring) : Document :=
  mkDocument (d_id doc) name (d_content doc) (d_userId doc) (d_createdAt doc) (d_updatedAt doc).

Definition setVersionContent (v : Version) (content : jsstring) : Version :=
  mkVersion (v_id v) (v_documentId v) content (v_isAutoSave v) (v_userId v) (v_diff v)
            (v_mergedFrom v) (v_createdAt v) (v_updatedAt v).

(** [createDocument] *)
Definition createDocument (req : Request) : World -> Response * World :=
  try_catch
    match body_name req with
    | Some (JStr name) =>
        if trim_is_empty name
        then respond 400 (Message "Name must be a non-empty string.")
        else
          match body_content req with
          | Some (JStr content) =>
              match user req with
              | None => respond 401 (Message "Unauthorized")
              | Some u =>
                  doc <- Document_create name content (Some (u_id u)) ;;
                  version <- Version_create (d_id doc) content false (Some EmptyArray)
                               None (d_userId doc) ;;
                  respond 201 (DocumentBody doc)
              end
          | _ => respond 400 (Message "Content must be a string.")
          end
    | _ => respond 400 (Message "Name must be a non-empty string.")
    end.

(** [createVersion] *)
Definition createVersion (req : Request) : World -> Response * World :=
  try_catch
    match body_content req with
    | Some (JStr content) =>
        match body_isAutoSave req with
        | Some (JBool isAutoSave) =>
            match params_id req with
            | NotAnObjectId => respond 400 (Message "Invalid document ID")
            | ObjectIdOf id =>
                found <- Document_findById id ;;
                match found with
                | None => respond 404 (Message "Document not found")
                | Some doc =>
                    if negb (owns (user req) doc)
                    then respond 403 (Message "Access denied.")
                    else
                      diff <- computeDiff (d_content doc) content ;;
                      version <- Version_create (d_id doc) content isAutoSave diff
                                   None (d_userId doc) ;;
                      Document_save doc (setContent doc content) ;;;
                      respond 201 (VersionBody version)
                end
            end
        | _ => respond 400 (Message "isAutoSave is required and must be a boolean.")
        end
    | _ => respond 400 (Message "Content must be a string.")
    end.

(** [mergeVersion] *)
Definition mergeVersion (req : Request) : World -> Response * World :=
  try_catch
    match params_id req, params_versionId req with
    | ObjectIdOf id, ObjectIdOf versionId =>
        found <- Document_findById id ;;
        match found with
        | None => respond 404 (Message "Document not found")
        | Some doc =>
            if negb (owns (user req) doc)
            then respond 403 (Message "Access denied.")
            else
              foundVersion <- Version_findOne versionId id ;;
              match foundVersion with
              | None => respond 404 (Message "Version not found")
              | Some version =>
                  let doc' := setContent doc (v_content version) in
                  Document_save doc doc' ;;;
                  mergedVersion <- Version_create (d_id doc') (v_content version) false
                                     None (Some (v_id version)) (d_userId doc') ;;
                  respond 200 (MergedBody doc' (v_id mergedVersion))
              end
        end
    | _, _ => respond 400 (Message "Invalid ID(s)")
    end.

(** [updateDocumentName]: the body of the response reads [doc], which
    is not declared in the handler. *)
Definition updateDocumentName (req : Request) : World -> Response * World :=
  try_catch
    match body_name req with
    | Some (JStr name) =>
        if trim_is_empty name
        then respond 400 (Message "Name must be a non-empty string.")
        else
          match params_id req with
          | NotAnObjectId => respond 400 (Message "Invalid document ID")
          | ObjectIdOf id =>
              found <- Document_findById id ;;
              match found with
              | None => respond 404 (Message "Document not found")
              | Some docToUpdate =>
                  if negb (owns (user req) docToUpdate)
                  then respond 403 (Message "Access denied.")
                  else
                    let docToUpdate' := setName docToUpdate name in
                    Document_save docToUpdate docToUpdate' ;;;
                    doc <- undeclared "doc" ;;
                    respond 200 (DocumentBody (setContent docToUpdate' (d_content doc)))
              end
          end
    | _ => respond 400 (Message "Name must be a non-empty string.")
    end.

(** [updateVersionContent]: the body of the response reads [version],
    which is not declared in the handler. *)
Definition updateVersionContent (req : Request) : World -> Response * World :=
  try_catch
    match body_content req with
    | Some (JStr content) =>
        match params_versionId req with
        | NotAnObjectId => respond 400 (Message "Invalid version ID")
        | ObjectIdOf versionId =>
            found <- Version_findById versionId ;;
            match found with
            | None => respond 404 (Message "Version not found")
            | Some versionToUpdate =>
                foundParent <- Document_findById (v_documentId versionToUpdate) ;;
                match foundParent with
                | None => respond 404 (Message "Parent document not found")
                | Some parentDoc =>
                    if negb (owns (user req) parentDoc)
                    then respond 403 (Message "Access denied.")
                    else
                      let versionToUpdate' := setVersionContent versionToUpdate content in
                      Version_save versionToUpdate versionToUpdate' ;;;
                      version <- undeclared "version" ;;
                      respond 200 (VersionBody (version : Version))
                end
            end
        end
    | _ => respond 400 (Message "Content must be a string.")
    end.

(** ** The handlers that read, and [updateCurrentVersion] *)

Definition ownedBy (uid : oid) (d : Document) : bool :=
  match d_userId d with
  | Some owner => N.eqb owner uid
  | None => false
  end.

(** [Document.countDocuments({ userId })] *)
Definition Document_countDocuments (uid : oid) : M Z :=
  dbcall ;;;
  get (fun w => Z.of_nat (List.length (filter (ownedBy uid) (documents w)))).

(** [Document.find({ userId }).sort({ createdAt: -1 }).skip(skip).limit(limit)] *)
Definition Document_findPage (uid : oid) (skip limit : Z) : M (list Document) :=
  dbcall ;;;
  get (fun w => firstn (Z.to_nat limit)
                  (skipn (Z.to_nat skip)
                     (sortDesc d_createdAt (filter (ownedBy uid) (documents w))))).

(** [Version.find({ documentId: id }).sort({ createdAt: -1 })] *)
Definition Version_findSorted (id : oid) : M (list Version) :=
  dbcall ;;;
  get (fun w => sortDesc v_createdAt
                  (filter (fun v => N.eqb (v_documentId v) id) (versions w))).

(** [getDocuments] *)
Definition getDocuments (req : ListRequest) : World -> answer Page * World :=
  try_catch_json
    match list_user req with
    | None => respond 401 (Message "Unauthorized")
    | Some u =>
        let page := orDefault (parseInt (query_page req)) 1 in
        let limit := orDefault (parseInt (query_limit req)) 10 in
        if (page <=? 0)%Z
        then respond 400 (Message "Page number must be a positive integer.")
        else if (limit <=? 0)%Z
        then respond 400 (Message "Limit must be a positive integer.")
        else if (100 <? limit)%Z
        then respond 400 (Message "Limit cannot exceed 100.")
        else
          let skip := ((page - 1) * limit)%Z in
          total <- Document_countDocuments (u_id u) ;;
          if (total =? 0)%Z then ret (mkPage [] page 0 0)
          else
            let pages := ceilDiv total limit in
            if (pages <? page)%Z && (0 <? total)%Z
            then respond 400 (Message "Page number exceeds total pages.")
            else
              docs <- Document_findPage (u_id u) skip limit ;;
              ret (mkPage docs page pages total)
    end.

(** [getDocumentById]: a document without [userId] is answered as not
    found. *)
Definition getDocumentById (req : Request) : World -> Response * World :=
  try_catch
    match params_id req with
    | NotAnObjectId => respond 400 (Message "Invalid document ID")
    | ObjectIdOf id =>
        found <- Document_findById id ;;
        match found with
        | None => respond 404 (Message "Document not found")
        | Some doc =>
            match user req, d_userId doc with
            | Some u, Some owner =>
                if negb (N.eqb owner (u_id u))
                then respond 403 (Message "Access denied.")
                else respond 200 (DocumentBody doc)
            | _, _ => respond 404 (Message "Document not found or ownership unclear")
            end
        end
    end.

(** [getVersions] *)
Definition getVersions (req : Request) : World -> answer (list Version) * World :=
  try_catch_json
    match params_id req with
    | NotAnObjectId => respond 400 (Message "Invalid document ID")
    | ObjectIdOf id =>
        found <- Document_findById id ;;
        match found with
        | None => respond 404 (Message "Document not found")
        | Some doc =>
            if negb (owns (user req) doc)
            then respond 403 (Message "Access denied.")
            else Version_findSorted id
        end
    end.

(** [getVersionById] *)
Definition getVersionById (req : Request) : World -> Response * World :=
  try_catch
    match params_id req, params_versionId req with
    | ObjectIdOf id, ObjectIdOf versionId =>
        foundVersion <- Version_findOne versionId id ;;
        match foundVersion with
        | None => respond 404 (Message "Version not found")
        | Some version =>
            found <- Document_findById (v_documentId version) ;;
            match found with
            | None => respond 404 (Message "Parent document not found")
            | Some doc =>
                if negb (owns (user req) doc)
                then respond 403 (Message "Access denied.")
                else respond 200 (VersionBody version)
            end
        end
    | _, _ => respond 400 (Message "Invalid ID(s)")
    end.

(** [updateCurrentVersion]: the [id] of the route is the id of a
    version. *)
Definition updateCurrentVersion (req : Request) : World -> Response * World :=
  try_catch
    match body_content req with
    | Some (JStr content) =>
        match params_id req with
        | NotAnObjectId => respond 400 (Message "Invalid version ID")
        | ObjectIdOf versionId =>
            found <- Version_findById versionId ;;
            match found with
            | None => respond 404 (Message "Version not found")
            | Some versionToUpdate =>
                foundParent <- Document_findById (v_documentId versionToUpdate) ;;
                match foundParent with
                | None => respond 404 (Message "Parent document not found")
                | Some parentDoc =>
                    if negb (owns (user req) parentDoc)
                    then respond 403 (Message "Access denied.")
                    else
                      let versionToUpdate' := setVersionContent versionToUpdate content in
                      Version_save versionToUpdate versionToUpdate' ;;;
                      respond 200 (VersionBody versionToUpdate')
                end
            end
        end
    | _ => respond 400 (Message "Content must be a string.")
    end.

End Controller.


(* ================================================================== *)
(** ** The runtime: [JSON.parse] and [JSON.stringify]

    The handlers above take the two functions as parameters.  The
    functions of this module are used where a handler is run on given
    inputs.  [parse] follows the JSON grammar; an object keeps its
    properties in source order, a repeated name keeping its first place
    and its last value. *)

Module JSON.

Definition is_ws (c : code_unit) : bool := existsb (N.eqb c) [9; 10; 13; 32]%N.
Definition is_digit (c : code_unit) : bool := (48 <=? c)%N && (c <=? 57)%N.

Fixpoint skip_ws (s : jsstring) : jsstring :=
  match s with
  | c :: r => if is_ws c then skip_ws r else s
  | [] => []
  end.

Fixpoint span_digits (s : jsstring) : list code_unit * jsstring :=
  match s with
  | c :: r => if is_digit c
              then let '(ds, rest) := span_digits r in (c :: ds, rest)
              else ([], s)
  | [] => ([], [])
  end.

Definition digits_value (ds : list code_unit) : Z :=
  fold_left (fun acc c => (10 * acc + Z.of_N (c - 48))%Z) ds 0%Z.

Definition hex_value (c : code_unit) : option N :=
  if is_digit c then Some (c - 48)%N
  else if (97 <=? c)%N && (c <=? 102)%N then Some (c - 87)%N
  else if (65 <=? c)%N && (c <=? 70)%N then Some (c - 55)%N
  else None.

Definition hex4 (a b c d : code_unit) : option code_unit :=
  match hex_value a, hex_value b, hex_value c, hex_value d with
  | Some x, Some y, Some z, Some t => Some (((x * 16 + y) * 16 + z) * 16 + t)%N
  | _, _, _, _ => None
  end.

(** The character a one-letter escape stands for. *)
Definition simple_escape (c : code_unit) : option code_unit :=
  if N.eqb c 34 then Some 34%N          (* quote *)
  else if N.eqb c 92 then Some 92%N     (* backslash *)
  else if N.eqb c 47 then Some 47%N     (* slash *)
  else if N.eqb c 98 then Some 8%N      (* escape b *)
  else if N.eqb c 102 then Some 12%N    (* escape f *)
  else if N.eqb c 110 then Some 10%N    (* escape n *)
  else if N.eqb c 114 then Some 13%N    (* escape r *)
  else if N.eqb c 116 then Some 9%N     (* escape t *)
  else None.

(** The characters of a string literal after its opening quote, up to
    the closing one. *)
Fixpoint string_body (s : jsstring) : option (jsstring * jsstring) :=
  match s with
  | [] => None
  | c :: r =>
      if N.eqb c 34 then Some ([], r)
      else if N.eqb c 92 then
        match r with
        | e :: r' =>
            if N.eqb e 117 then
              match r' with
              | a :: b :: x :: d :: r'' =>
                  match hex4 a b x d, string_body r'' with
                  | Some u, Some (str, rest) => Some (u :: str, rest)
                  | _, _ => None
                  end
              | _ => None
              end
            else
              match simple_escape e, string_body r' with
              | Some u, Some (str, rest) => Some (u :: str, rest)
              | _, _ => None
              end
        | [] => None
        end
      else if (c <? 32)%N then None
      else match string_body r with
           | Some (str, rest) => Some (c :: str, rest)
           | None => None
           end
  end.

(** The number [mantissa * 10 ^ exponent]. *)
Definition decimal (mantissa exponent : Z) : Qc :=
  if (0 <=? exponent)%Z
  then Q2Qc (inject_Z (mantissa * 10 ^ exponent))
  else Q2Qc (Qmake mantissa (Z.to_pos (10 ^ (- exponent)))).

(** The least magnitude that rounds to [Infinity]: half way between
    the largest double and [2^1024]. *)
Definition overflow : Z := (2 ^ 1024 - 2 ^ 970)%Z.

(** The number a literal denotes, as a double that is finite or not. *)
Definition to_number (q : Qc) : jsnumber :=
  if (overflow * Z.pos (Qden q) <=? Z.abs (Qnum q))%Z
  then Infinity (Qnum q <? 0)%Z
  else Finite q.

Definition number (s : jsstring) : option (json * jsstring) :=
  let '(negative, s1) :=
    match s with
    | c :: r => if N.eqb c 45 then (true, r) else (false, s)
    | [] => (false, s)
    end in
  let '(int, s2) := span_digits s1 in
  match int with
  | [] => None
  | d :: more =>
      if N.eqb d 48 && negb (match more with [] => true | _ => false end) then None
      else
        let frac_part :=
          match s2 with
          | c :: r =>
              if N.eqb c 46 then
                match span_digits r with
                | ([], _) => None
                | (fs, rest) => Some (fs, rest)
                end
              else Some ([], s2)
          | [] => Some ([], s2)
          end in
        match frac_part with
        | None => None
        | Some (frac, s3) =>
            let exp_part :=
              match s3 with
              | c :: r =>
                  if N.eqb c 101 || N.eqb c 69 then
                    let '(minus, r1) :=
                      match r with
                      | g :: r' => if N.eqb g 45 then (true, r')
                                   else if N.eqb g 43 then (false, r')
                                   else (false, r)
                      | [] => (false, r)
                      end in
                    match span_digits r1 with
                    | ([], _) => None
                    | (es, rest) =>
                        Some ((if minus then - digits_value es else digits_value es)%Z, rest)
                    end
                  else Some (0%Z, s3)
              | [] => Some (0%Z, s3)
              end in
            match exp_part with
            | None => None
            | Some (e, s4) =>
                let m := digits_value (int ++ frac) in
                Some (JNum (to_number (decimal (if negative then - m else m)
                                               (e - Z.of_nat (List.length frac)))), s4)
            end
        end
  end.

Fixpoint strip_prefix (p s : jsstring) : option jsstring :=
  match p, s with
  | [], _ => Some s
  | a :: p', b :: s' => if N.eqb a b then strip_prefix p' s' else None
  | _ :: _, [] => None
  end.

(** [obj[name] = v] while the object is built. *)
Fixpoint setOwn (name : jsstring) (v : json) (props : list (jsstring * json))
    : list (jsstring * json) :=
  match props with
  | [] => [(name, v)]
  | (k, old) :: rest =>
      if jsstring_eqb k name then (k, v) :: rest
      else (k, old) :: setOwn name v rest
  end.

Fixpoint value (fuel : nat) (s : jsstring) {struct fuel} : option (json * jsstring) :=
  match fuel with
  | O => None
  | S f =>
      match skip_ws s with
      | [] => None
      | c :: r =>
          if N.eqb c 110 then
            option_map (fun rest => (JNull, rest)) (strip_prefix (js "ull") r)
          else if N.eqb c 116 then
            option_map (fun rest => (JBool true, rest)) (strip_prefix (js "rue") r)
          else if N.eqb c 102 then
            option_map (fun rest => (JBool false, rest)) (strip_prefix (js "alse") r)
          else if N.eqb c 34 then
            option_map (fun '(str, rest) => (JStr str, rest)) (string_body r)
          else if N.eqb c 91 then
            match skip_ws r with
            | d :: r' =>
                if N.eqb d 93 then Some (JArr [], r')
                else option_map (fun '(vs, rest) => (JArr vs, rest)) (elements f r)
            | [] => None
            end
          else if N.eqb c 123 then
            match skip_ws r with
            | d :: r' =>
                if N.eqb d 125 then Some (JObj [], r')
                else option_map (fun '(ps, rest) => (JObj ps, rest)) (members f r [])
            | [] => None
            end
          else number (c :: r)
      end
  end
with elements (fuel : nat) (s : jsstring) {struct fuel} : option (list json * jsstring) :=
  match fuel with
  | O => None
  | S f =>
      match value f s with
      | Some (v, r) =>
          match skip_ws r with
          | c :: r' =>
              if N.eqb c 44 then
                option_map (fun '(vs, rest) => (v :: vs, rest)) (elements f r')
              else if N.eqb c 93 then Some ([v], r')
              else None
          | [] => None
          end
      | None => None
      end
  end
with members (fuel : nat) (s : jsstring) (acc : list (jsstring * json)) {struct fuel}
    : option (list (jsstring * json) * jsstring) :=
  match fuel with
  | O => None
  | S f =>
      match skip_ws s with
      | q :: r =>
          if N.eqb q 34 then
            match string_body r with
            | Some (name, r1) =>
                match skip_ws r1 with
                | colon :: r2 =>
                    if N.eqb colon 58 then
                      match value f r2 with
                      | Some (v, r3) =>
                          let acc' := setOwn name v acc in
                          match skip_ws r3 with
                          | c :: r4 =>
                              if N.eqb c 44 then members f r4 acc'
                              else if N.eqb c 125 then Some (acc', r4)
                              else None
                          | [] => None
                          end
                      | None => None
                      end
                    else None
                | [] => None
                end
            | None => None
            end
          else None
      | [] => None
      end
  end.

(** [JSON.parse(text)]: [None] when it throws a [SyntaxError]. *)
Definition parse (text : jsstring) : option json :=
  match value (2 * List.length text + 2) text with
  | Some (v, rest) => match skip_ws rest with [] => Some v | _ => None end
  | None => None
  end.

Definition of_string (s : string) : jsstring :=
  map N_of_ascii (list_ascii_of_string s).

(** The text of a number.  An integer is printed in decimal, which is
    what JavaScript prints for integers below [10^21]; the other
    numbers are printed as numerator, slash, denominator, which is not
    what JavaScript prints for them (its shortest decimal that reads
    back as the same double). *)
Definition number_text (q : Qc) : jsstring :=
  let integer := of_string (NilZero.string_of_int (Z.to_int (Qnum q))) in
  if Pos.eqb (Qden q) 1 then integer
  else integer ++ [47%N] ++ of_string (NilZero.string_of_uint (Pos.to_uint (Qden q))).

Definition hex_digit (n : N) : code_unit :=
  if (n <? 10)%N then (48 + n)%N else (87 + n)%N.

(** [QuoteJSONString], one code unit at a time (surrogates are copied
    as they are). *)
Definition escape_unit (c : code_unit) : jsstring :=
  if N.eqb c 34 then [92; 34]%N
  else if N.eqb c 92 then [92; 92]%N
  else if N.eqb c 8 then [92; 98]%N
  else if N.eqb c 12 then [92; 102]%N
  else if N.eqb c 10 then [92; 110]%N
  else if N.eqb c 13 then [92; 114]%N
  else if N.eqb c 9 then [92; 116]%N
  else if (c <? 32)%N then [92; 117; 48; 48; hex_digit (c / 16); hex_digit (c mod 16)]%N
  else [c].

Definition quote (s : jsstring) : jsstring :=
  34%N :: flat_map escape_unit s ++ [34%N].

(** [JSON.stringify(value)] without indentation; a number that is not
    finite is printed as [null]. *)
Fixpoint stringify (v : json) : jsstring :=
  match v with
  | JNull => js "null"
  | JBool true => js "true"
  | JBool false => js "false"
  | JNum (Finite q) => number_text q
  | JNum (Infinity _) => js "null"
  | JStr s => quote s
  | JArr items =>
      let fix elements (l : list json) : jsstring :=
        match l with
        | [] => [93%N]
        | x :: rest =>
            stringify x ++ match rest with
                           | [] => [93%N]
                           | _ :: _ => 44%N :: elements rest
                           end
        end in
      91%N :: elements items
  | JObj props =>
      let fix members (l : list (jsstring * json)) : jsstring :=
        match l with
        | [] => [125%N]
        | (name, x) :: rest =>
            quote name ++ 58%N :: stringify x ++ match rest with
                                                 | [] => [125%N]
                                                 | _ :: _ => 44%N :: members rest
                                                 end
        end in
      123%N :: members props
  end.

End JSON.

(* ================================================================== *)
(** ** Accounts: [models/User.ts], [controllers/authController.ts] and
       [middlewares/auth.ts] *)

(** [models/User.ts] *)
Record Account := mkAccount {
  a_id : oid;
  a_email : jsstring;
  a_name : jsstring;
  a_password : jsstring;
  a_createdAt : Z;
  a_updatedAt : Z
}.

(** What [userToResponse] keeps of an account. *)
Record PublicUser := mkPublicUser {
  p_id : oid;
  p_email : jsstring;
  p_name : jsstring;
  p_createdAt : Z;
  p_updatedAt : Z
}.

Definition userToResponse (user : Account) : PublicUser :=
  mkPublicUser (a_id user) (a_email user) (a_name user) (a_createdAt user)
    (a_updatedAt user).

(** The bodies the authentication code sends:
    [{ success: false, error }], [{ success: true, token, user }],
    [{ success: true, user }] and [{ success: true, message: 'Logged out.' }]. *)
Inductive authBody :=
| Failure (error : string)
| Session (token : jsstring) (user : PublicUser)
| Profile (user : PublicUser)
| LoggedOut.

Record AuthResponse := mkAuthResponse { auth_status : nat; auth_body : authBody }.

(** The three collections: the accounts, in insertion order, and the
    store of the documents, whose count of database calls is the count
    of all the calls. *)
Record Site := mkSite {
  accounts : list Account;
  store : World
}.

(** A step of the authentication code, as [res] for the handlers of
    documents. *)
Inductive step (A : Type) :=
| Go (a : A)
| Answer (r : AuthResponse)
| Raise.
Arguments Go {A} a.
Arguments Answer {A} r.
Arguments Raise {A}.

Definition Auth (A : Type) := Site -> step A * Site.

Definition auth_ret {A} (a : A) : Auth A := fun s => (Go a, s).
Definition auth_bind {A B} (m : Auth A) (f : A -> Auth B) : Auth B :=
  fun s => match m s with
           | (Go a, s') => f a s'
           | (Answer r, s') => (Answer r, s')
           | (Raise, s') => (Raise, s')
           end.
Definition answer_with {A} (code : nat) (b : authBody) : Auth A :=
  fun s => (Answer (mkAuthResponse code b), s).
Definition raise {A} : Auth A := fun s => (Raise, s).

(** A call of a library that may throw. *)
Definition attempt {A} (result : Site -> option A) : Auth A :=
  fun s => match result s with
           | Some a => (Go a, s)
           | None => (Raise, s)
           end.

Declare Scope auth_scope.
Delimit Scope auth_scope with auth.
Notation "x <- m ;; k" := (auth_bind m (fun x => k))
  (at level 61, m at next level, right associativity) : auth_scope.
Notation "m ;;; k" := (auth_bind m (fun _ => k))
  (at level 61, right associativity) : auth_scope.

(** [try { ... } catch (err) { return res.status(code).json({ success: false, error }) }] *)
Definition catch_with (code : nat) (error : string) (m : Auth AuthResponse) (s : Site)
    : AuthResponse * Site :=
  match m s with
  | (Go r, s') => (r, s')
  | (Answer r, s') => (r, s')
  | (Raise, s') => (mkAuthResponse code (Failure error), s')
  end.

(** The fields [register] and [login] read off the JSON body. *)
Record AuthRequest := mkAuthRequest {
  auth_name : option json;
  auth_email : option json;
  auth_password : option json
}.

(** [s.startsWith(prefix)] *)
Fixpoint String_startsWith (prefix s : jsstring) : bool :=
  match prefix, s with
  | [], _ => true
  | p :: prefix', c :: s' => N.eqb c p && String_startsWith prefix' s'
  | _ :: _, [] => false
  end.

(** [s.split(separator)] for a separator of one code unit. *)
Fixpoint String_split (separator : code_unit) (s : jsstring) : list jsstring :=
  match s with
  | [] => [[]]
  | c :: s' =>
      if N.eqb c separator then [] :: String_split separator s'
      else match String_split separator s' with
           | piece :: pieces => (c :: piece) :: pieces
           | [] => [[c]]
           end
  end.

(** A token without a space. *)
Definition no_space (token : jsstring) : bool :=
  forallb (fun c => negb (N.eqb c 32%N)) token.

(** [decoded.userId] as [User.findById] takes it: missing, or a value
    that does not cast to an ObjectId, or an ObjectId. *)
Definition claim := option idParam.

(** What the middleware hands over: a response, or [next()] with
    [req.user]. *)
Inductive passage :=
| Rejected (r : AuthResponse)
| Next (user : Account).

Section Accounts.

(** The persistence layer, as for the documents. *)
Variable fault : nat -> bool.
Variable clock : nat -> Z.
Variable objectId : nat -> oid.

(** Mongoose on values that are not strings: the filter a query
    [{ email: value }] casts to, and the string a value of a [String]
    path casts to; [None] is a [CastError]. *)
Variable email_query : json -> option (jsstring -> bool).
Variable cast_other : json -> option jsstring.

(** [bcrypt.hash(password, 10)] and [bcrypt.compare(password, hash)]
    ([None]: the promise is rejected) and [jwt.sign] and [jwt.verify]
    with the secret of their module ([None]: they throw).  The salt
    and the time are not in the model: the results may depend on the
    number of database calls made so far. *)
Variable bcrypt_hash : nat -> json -> option jsstring.
Variable bcrypt_compare : json -> jsstring -> option bool.
Variable jwt_sign : nat -> oid -> option jsstring.
Variable jwt_verify : nat -> jsstring -> option claim.

Local Open Scope auth_scope.

(** One call to the database. *)
Definition site_call : Auth nat :=
  fun s =>
    let n := calls (store s) in
    let s' := mkSite (accounts s)
                (mkWorld (documents (store s)) (versions (store s)) (S n)) in
    if fault n then (Raise, s') else (Go n, s').

Definition email_filter (email : json) : option (jsstring -> bool) :=
  match email with
  | JStr e => Some (jsstring_eqb e)
  | other => email_query other
  end.

Definition castString (v : json) : option jsstring :=
  match v with
  | JStr s => Some s
  | other => cast_other other
  end.

(** [User.findOne({ email })] *)
Definition User_findOne (email : json) : Auth (option Account) :=
  match email_filter email with
  | None => raise
  | Some matches =>
      site_call ;;;
      (fun s => (Go (find (fun a => matches (a_email a)) (accounts s)), s))
  end.

(** [User.findById(id)] *)
Definition User_findById (id : claim) : Auth (option Account) :=
  match id with
  | Some NotAnObjectId => raise
  | Some (ObjectIdOf o) =>
      site_call ;;;
      (fun s => (Go (find (fun a => N.eqb (a_id a) o) (accounts s)), s))
  | None => site_call ;;; auth_ret None
  end.

(** [User.create({ name, email, password })]: the casts and the
    validation, then the insertion, which the unique index on [email]
    refuses for an email that an account has. *)
Definition User_create (name email : json) (password : jsstring) : Auth Account :=
  match castString name, castString email with
  | Some name', Some email' =>
      if required_string email' && required_string name' && required_string password
      then
        n <- site_call ;;
        fun s =>
          if existsb (fun a => jsstring_eqb (a_email a) email') (accounts s)
          then (Raise, s)
          else
            let user := mkAccount (objectId n) email' name' password (clock n) (clock n) in
            (Go user, mkSite (accounts s ++ [user]) (store s))
      else raise
  | _, _ => raise
  end.

Definition internal_failure : string := "An internal server error occurred.".

(** [register] *)
Definition register (req : AuthRequest) : Site -> AuthResponse * Site :=
  catch_with 500 internal_failure
    match auth_name req, auth_email req, auth_password req with
    | Some name, Some email, Some password =>
        if negb (truthy (Some name)) || negb (truthy (Some email))
           || negb (truthy (Some password))
        then answer_with 400 (Failure "All fields are required.")
        else
          existingUser <- User_findOne email ;;
          match existingUser with
          | Some _ => answer_with 409 (Failure "Email already registered.")
          | None =>
              hashedPassword <-
                attempt (fun s => bcrypt_hash (calls (store s)) password) ;;
              user <- User_create name email hashedPassword ;;
              token <- attempt (fun s => jwt_sign (calls (store s)) (a_id user)) ;;
              answer_with 201 (Session token (userToResponse user))
          end
    | _, _, _ => answer_with 400 (Failure "All fields are required.")
    end.

(** [login] *)
Definition login (req : AuthRequest) : Site -> AuthResponse * Site :=
  catch_with 500 internal_failure
    match auth_email req, auth_password req with
    | Some email, Some password =>
        if negb (truthy (Some email)) || negb (truthy (Some password))
        then answer_with 400 (Failure "Email and password are required.")
        else
          found <- User_findOne email ;;
          match found with
          | None => answer_with 401 (Failure "Invalid credentials.")
          | Some user =>
              isMatch <- attempt (fun _ => bcrypt_compare password (a_password user)) ;;
              if negb isMatch
              then answer_with 401 (Failure "Invalid credentials.")
              else
                token <- attempt (fun s => jwt_sign (calls (store s)) (a_id user)) ;;
                answer_with 200 (Session token (userToResponse user))
          end
    | _, _ => answer_with 400 (Failure "Email and password are required.")
    end.

(** [validate]: nothing in its [try] block throws. *)
Definition validate (user : option Account) : Site -> AuthResponse * Site :=
  catch_with 401 "Invalid or expired token."
    match user with
    | None => answer_with 401 (Failure "Invalid token.")
    | Some u => answer_with 200 (Profile (userToResponse u))
    end.

(** [logout] *)
Definition logout (user : option Account) (s : Site) : AuthResponse * Site :=
  (mkAuthResponse 200 LoggedOut, s).

(** [authenticateJWT]: the token is what stands between the first and
    the second space of the header. *)
Definition authenticateJWT (authorization : option jsstring) (s : Site) : passage * Site :=
  match authorization with
  | None => (Rejected (mkAuthResponse 401 (Failure "No token provided.")), s)
  | Some authHeader =>
      if negb (truthy (Some (JStr authHeader)))
         || negb (String_startsWith (js "Bearer ") authHeader)
      then (Rejected (mkAuthResponse 401 (Failure "No token provided.")), s)
      else
        let token := nth_error (String_split 32%N authHeader) 1 in
        let tried :=
          (decoded <- attempt (fun s => match token with
                                       | Some t => jwt_verify (calls (store s)) t
                                       | None => None
                                       end) ;;
           user <- User_findById decoded ;;
           match user with
           | None => answer_with 401 (Failure "Invalid token.")
           | Some u => auth_ret u
           end) s in
        match tried with
        | (Go u, s') => (Next u, s')
        | (Answer r, s') => (Rejected r, s')
        | (Raise, s') =>
            (Rejected (mkAuthResponse 401 (Failure "Invalid or expired token.")), s')
        end
  end.

(** ** The routers: [routes/auth.ts] and the routes of the documents *)

(** The route of a request to [/auth], as Express has matched it. *)
Inductive authCall :=
| PostRegister (req : AuthRequest)
| PostLogin (req : AuthRequest)
| GetValidate
| PostLogout.

(** [router.get('/validate', authenticateJWT, validate)] and the like. *)
Definition behind_authenticateJWT (authorization : option jsstring)
    (handler : option Account -> Site -> AuthResponse * Site) (s : Site)
    : AuthResponse * Site :=
  match authenticateJWT authorization s with
  | (Rejected r, s') => (r, s')
  | (Next user, s') => handler (Some user) s'
  end.

Definition auth_router (authorization : option jsstring) (call : authCall)
    : Site -> AuthResponse * Site :=
  match call with
  | PostRegister req => register req
  | PostLogin req => login req
  | GetValidate => behind_authenticateJWT authorization validate
  | PostLogout => behind_authenticateJWT authorization logout
  end.

End Accounts.

(** The route of a request to [/documents], as Express has matched it,
    with the parameters and the body of the request. *)
Inductive documentCall :=
| CreateDocument (req : Request)
| GetDocuments (req : ListRequest)
| GetDocumentById (req : Request)
| CreateVersion (req : Request)
| GetVersions (req : Request)
| GetVersionById (req : Request)
| MergeVersion (req : Request)
| UpdateDocumentName (req : Request)
| UpdateCurrentVersion (req : Request)
| UpdateVersionContent (req : Request).

(** What a request to [/documents] is answered: by the middleware, or
    by a handler with a response or the value it hands to [res.json]. *)
Inductive reply :=
| Refused (r : AuthResponse)
| Replied (r : Response)
| Versions (vs : list Version)
| Documents (p : Page).

(** [req.user = user] *)
Definition as_user (account : Account) : User := mkUser (a_id account).

Definition with_user (account : Account) (req : Request) : Request :=
  mkRequest (params_id req) (params_versionId req) (body_name req) (body_content req)
    (body_isAutoSave req) (Some (as_user account)).

Definition with_list_user (account : Account) (req : ListRequest) : ListRequest :=
  mkListRequest (query_page req) (query_limit req) (Some (as_user account)).

Definition replied (result : Response * World) : reply * World :=
  (Replied (fst result), snd result).

Definition listed {A} (value : A -> reply) (result : answer A * World) : reply * World :=
  match fst result with
  | Sent r => (Replied r, snd result)
  | Json a => (value a, snd result)
  end.

Section Routes.

Variable JSON_parse : jsstring -> option json.
Variable JSON_stringify : json -> jsstring.
Variable dmp_loaded : bool.
Variable lcs_phase : nat -> list json -> list json -> option (list (akey * delta)).
Variable fault : nat -> bool.
Variable clock : nat -> Z.
Variable objectId : nat -> oid.
Variable jwt_verify : nat -> jsstring -> option claim.

(** The handler a route names, for the account of the request. *)
Definition documentController (call : documentCall) (account : Account)
    : World -> reply * World :=
  fun w =>
    match call with
    | CreateDocument req =>
        replied (createDocument fault clock objectId (with_user account req) w)
    | GetDocuments req =>
        listed Documents (getDocuments fault (with_list_user account req) w)
    | GetDocumentById req => replied (getDocumentById fault (with_user account req) w)
    | CreateVersion req =>
        replied (createVersion JSON_parse JSON_stringify dmp_loaded lcs_phase fault clock
                   objectId (with_user account req) w)
    | GetVersions req => listed Versions (getVersions fault (with_user account req) w)
    | GetVersionById req => replied (getVersionById fault (with_user account req) w)
    | MergeVersion req =>
        replied (mergeVersion fault clock objectId (with_user account req) w)
    | UpdateDocumentName req =>
        replied (updateDocumentName fault clock (with_user account req) w)
    | UpdateCurrentVersion req =>
        replied (updateCurrentVersion fault clock (with_user account req) w)
    | UpdateVersionContent req =>
        replied (updateVersionContent fault clock (with_user account req) w)
    end.

(** [router.use(authenticateJWT)], then the route. *)
Definition documents_router (authorization : option jsstring) (call : documentCall)
    (s : Site) : reply * Site :=
  match authenticateJWT fault jwt_verify authorization s with
  | (Rejected r, s') => (Refused r, s')
  | (Next account, s') =>
      let result := documentController call account (store s') in
      (fst result, mkSite (accounts s') (snd result))
  end.

End Routes.

(* ================================================================== *)
(** ** What a request may do to the store *)

(** What stays of a document and of a version once they are created. *)
Definition document_frozen (d : Document) : oid * option oid * Z :=
  (d_id d, d_userId d, d_createdAt d).

Definition version_frozen (v : Version)
    : oid * oid * bool * option oid * option mixed * option oid * Z :=
  (v_id v, v_documentId v, v_isAutoSave v, v_userId v, v_diff v, v_mergedFrom v,
   v_createdAt v).

(** The documents after a request of [u] that edits: they are the
    same, or one document that [u] owns has a new name or content. *)
Definition documents_edited (u : option User) (ds ds' : list Document) : Prop :=
  ds' = ds \/
  exists before d after d',
    ds = before ++ d :: after /\ ds' = before ++ d' :: after /\
    owns u d = true /\ document_frozen d' = document_frozen d /\
    d_name d' <> [] /\ d_content d' <> [].

(** The versions after a request of [u]: they are the same, or one
    version of a document that [u] owns has been added, or one has a
    new content. *)
Definition versions_edited (u : option User) (ds' : list Document)
    (vs vs' : list Version) : Prop :=
  vs' = vs \/
  (exists v d,
      vs' = vs ++ [v] /\ In d ds' /\ v_documentId v = d_id d /\ owns u d = true /\
      v_content v <> []) \/
  (exists before v after v' d,
      vs = before ++ v :: after /\ vs' = before ++ v' :: after /\
      version_frozen v' = version_frozen v /\ v_content v' <> [] /\
      In d ds' /\ d_id d = v_documentId v /\ owns u d = true).

Definition edits (u : option User) (w w' : World) : Prop :=
  documents_edited u (documents w) (documents w') /\
  versions_edited u (documents w') (versions w) (versions w').

(** The store after [createDocument] for [u]: unchanged, or with one
    more document of [u], and then possibly one more version, of that
    document. *)
Definition creates (u : option User) (w w' : World) : Prop :=
  (documents w' = documents w /\ versions w' = versions w) \/
  exists d,
    documents w' = documents w ++ [d] /\ owns u d = true /\
    d_name d <> [] /\ d_content d <> [] /\
    (versions w' = versions w \/
     exists v, versions w' = versions w ++ [v] /\ v_documentId v = d_id d /\
               v_content v <> []).

(** A list sorted by decreasing key. *)
Definition newest_first {A} (key : A -> Z) : list A -> Prop :=
  StronglySorted (fun a b => (key b <= key a)%Z).

(** Every document has a name and a content, every version a content,
    as the schemas require. *)
Definition valid_store (w : World) : Prop :=
  (forall d, In d (documents w) -> d_name d <> [] /\ d_content d <> []) /\
  (forall v, In v (versions w) -> v_content v <> []).

(** Every version belongs to a document of the store. *)
Definition versions_have_parents (w : World) : Prop :=
  forall v, In v (versions w) -> exists d, In d (documents w) /\ d_id d = v_documentId v.

(** The store [w'] keeps the documents and the versions of [w], in
    their order and with what is frozen of them, and may have more. *)
Definition extends (w w' : World) : Prop :=
  (exists ds, map document_frozen (documents w') = map document_frozen (documents w) ++ ds) /\
  (exists vs, map version_frozen (versions w') = map version_frozen (versions w) ++ vs).

(** The versions after a request that edits or creates: a version that
    is not in the store before and after belongs to a document of the
    user. *)
Definition belongs_to (u : option User) (ds : list Document) (v : Version) : Prop :=
  exists d, In d ds /\ d_id d = v_documentId v /\ owns u d = true.

(* ================================================================== *)
(** ** Induction on values *)

(** Induction on a value with the hypothesis for every item of an array
    and every property of an object. *)
Section JsonInduction.
Variable P : json -> Prop.
Hypothesis HNull : P JNull.
Hypothesis HBool : forall b, P (JBool b).
Hypothesis HNum : forall q, P (JNum q).
Hypothesis HStr : forall s, P (JStr s).
Hypothesis HArr : forall items, Forall P items -> P (JArr items).
Hypothesis HObj : forall props, Forall (fun kv => P (snd kv)) props -> P (JObj props).

Fixpoint json_nested_ind (v : json) : P v :=
  match v with
  | JNull => HNull
  | JBool b => HBool b
  | JNum q => HNum q
  | JStr s => HStr s
  | JArr items =>
      HArr items
        ((fix all (l : list json) : Forall P l :=
            match l with
            | [] => Forall_nil P
            | x :: rest => Forall_cons x (json_nested_ind x) (all rest)
            end) items)
  | JObj props =>
      HObj props
        ((fix all (l : list (jsstring * json)) : Forall (fun kv => P (snd kv)) l :=
            match l with
            | [] => Forall_nil _
            | kv :: rest => Forall_cons kv (json_nested_ind (snd kv)) (all rest)
            end) props)
  end.
End JsonInduction.

(* ================================================================== *)
(** ** A runtime and a store to run the handlers on *)

(** A database that answers every call, and one whose second call
    fails. *)
Definition no_fault (n : nat) : bool := false.
Definition second_call_fails (n : nat) : bool := Nat.eqb n 1.

Definition ticks (n : nat) : Z := Z.of_nat n.
Definition nth_id (n : nat) : oid := N.of_nat (100 + n).

(** An LCS phase that throws; the runs below that use it do not reach
    the phase. *)
Definition no_lcs (head : nat) (trimmed1 trimmed2 : list json)
    : option (list (akey * delta)) := None.

Definition alice : User := mkUser 1%N.

(** A store with one document of [alice], with content [A], and one
    version of it, with content [V]. *)
Definition document_of (A : jsstring) : Document :=
  mkDocument 10%N (js "notes") A (Some 1%N) 0%Z 0%Z.

Definition version_of (V : jsstring) : Version :=
  mkVersion 20%N 10%N V false (Some 1%N) (Some EmptyArray) None 0%Z 0%Z.

Definition store_of (A V : jsstring) : World :=
  mkWorld [document_of A] [version_of V] 0.

Definition empty_store : World := mkWorld [] [] 0.

(** Requests of [alice]. *)
Definition createDocument_request (name content : json) : Request :=
  mkRequest NotAnObjectId NotAnObjectId (Some name) (Some content) None (Some alice).

Definition createVersion_request (content isAutoSave : json) : Request :=
  mkRequest (ObjectIdOf 10%N) NotAnObjectId None (Some content) (Some isAutoSave) (Some alice).

Definition mergeVersion_request : Request :=
  mkRequest (ObjectIdOf 10%N) (ObjectIdOf 20%N) None None None (Some alice).

Definition updateDocumentName_request (name : json) : Request :=
  mkRequest (ObjectIdOf 10%N) NotAnObjectId (Some name) None None (Some alice).

Definition updateVersionContent_request (content : json) : Request :=
  mkRequest NotAnObjectId (ObjectIdOf 20%N) None (Some content) None (Some alice).

(** [bob], who owns nothing in the stores above, and a store with a
    second document of [alice], which has no version. *)
Definition bob : User := mkUser 2%N.

Definition second_document : Document :=
  mkDocument 11%N (js "plans") (js "[]") (Some 1%N) 5%Z 5%Z.

Definition two_documents_store : World :=
  mkWorld [document_of (js "{'a':1}"); second_document] [version_of (js "{'a':1}")] 0.

(** The [diff] path a version gets from a result of the diff engine. *)
Definition diffPath (result : outcome) : option mixed :=
  match result with
  | Delta d => Some (OfDelta d)
  | _ => None
  end.

(** ** Accounts and libraries to run the requests on *)

(** Mongoose that casts no value but the strings. *)
Definition no_query (v : json) : option (jsstring -> bool) := None.
Definition no_cast (v : json) : option jsstring := None.

(** A stand-in for bcrypt: the hash of a string is the string after a
    prefix, and a password is compared with what follows the prefix. *)
Definition prefix_hash (n : nat) (password : json) : option jsstring :=
  match password with
  | JStr p => Some (js "$2a$10$" ++ p)
  | _ => None
  end.

Definition prefix_compare (password : json) (hash : jsstring) : option bool :=
  match password with
  | JStr p => Some (jsstring_eqb hash (js "$2a$10$" ++ p))
  | _ => None
  end.

(** [jwt.sign] that returns, and [jwt.sign] without a secret, which
    throws; [jwt.verify] that knows the token of one account. *)
Definition one_token (n : nat) (o : oid) : option jsstring := Some (js "header.payload.signature").
Definition no_secret (n : nat) (o : oid) : option jsstring := None.

Definition verify_alice (n : nat) (token : jsstring) : option claim :=
  if jsstring_eqb token (js "alice") then Some (Some (ObjectIdOf 1%N)) else None.

(** The account of [alice], and the request of a new user. *)
Definition alice_account : Account :=
  mkAccount 1%N (js "alice@example.org") (js "Alice") (js "$2a$10$secret") 0%Z 0%Z.

Definition site_of (w : World) : Site := mkSite [alice_account] w.

Definition carol_request : AuthRequest :=
  mkAuthRequest (Some (JStr (js "Carol"))) (Some (JStr (js "carol@example.org")))
    (Some (JStr (js "secret"))).

(** A record with the id [r1] and a text. *)
Definition record_with (text : jsstring) : json :=
  JObj [(js "id", JStr (js "r1")); (js "text", JStr text)].

(* ================================================================== *)
(** * Properties *)

(** ** Lists and records *)

Lemma jsstring_eqb_eq (a b : jsstring) : jsstring_eqb a b = true <-> a = b.
Proof.
  unfold jsstring_eqb. destruct (list_eq_dec N.eq_dec a b); split; congruence.
Qed.

Lemma jsstring_eqb_refl (a : jsstring) : jsstring_eqb a a = true.
Proof. now apply jsstring_eqb_eq. Qed.

Lemma required_string_nonempty (s : jsstring) : required_string s = true <-> s <> [].
Proof.
  unfold required_string. destruct s; simpl; split; intros H; congruence.
Qed.

Lemma trim_nonempty (name : jsstring) : trim_is_empty name = false -> required_string name = true.
Proof. destruct name; simpl; [discriminate | reflexivity]. Qed.

(** An update by [_id] with the record that is found under that id
    changes nothing. *)
Lemma replaceVersion_found (vs : list Version) (id : oid) (v : Version) :
  find (fun x => N.eqb (v_id x) id) vs = Some v -> replaceVersion v vs = vs.
Proof.
  induction vs as [|x vs IH]; simpl; [discriminate|].
  destruct (N.eqb (v_id x) id) eqn:E.
  - intros [= ->]. now rewrite N.eqb_refl.
  - intros H. pose proof (find_some _ _ H) as [_ Hid]. apply N.eqb_eq in Hid.
    rewrite Hid, E. now rewrite IH.
Qed.

Lemma replaceDocument_found (ds : list Document) (id : oid) (d : Document) :
  find (fun x => N.eqb (d_id x) id) ds = Some d -> replaceDocument d ds = ds.
Proof.
  induction ds as [|x ds IH]; simpl; [discriminate|].
  destruct (N.eqb (d_id x) id) eqn:E.
  - intros [= ->]. now rewrite N.eqb_refl.
  - intros H. pose proof (find_some _ _ H) as [_ Hid]. apply N.eqb_eq in Hid.
    rewrite Hid, E. now rewrite IH.
Qed.

(** After an update by [_id] of a record that is there, the record
    found under that id is the new one. *)
Lemma find_replaceDocument (ds : list Document) (id : oid) (old d : Document) :
  find (fun x => N.eqb (d_id x) id) ds = Some old -> d_id d = id ->
  find (fun x => N.eqb (d_id x) id) (replaceDocument d ds) = Some d.
Proof.
  intros H Hd. induction ds as [|x ds IH]; simpl in *; [discriminate|].
  rewrite Hd. destruct (N.eqb (d_id x) id) eqn:E; simpl.
  - now rewrite Hd, N.eqb_refl.
  - rewrite E. auto.
Qed.

Lemma find_id (ds : list Document) (id : oid) (d : Document) :
  find (fun x => N.eqb (d_id x) id) ds = Some d -> d_id d = id.
Proof. intros H. apply find_some in H as [_ H]. now apply N.eqb_eq. Qed.

(** The record found by [find] splits the list, and no record before
    it satisfies the test. *)
Lemma find_split {A} (f : A -> bool) (l : list A) (x : A) :
  find f l = Some x ->
  exists before after,
    l = before ++ x :: after /\ forallb (fun y => negb (f y)) before = true.
Proof.
  induction l as [|y l IH]; simpl; [discriminate|].
  destruct (f y) eqn:E.
  - intros [= ->]. now exists [], l.
  - intros H. destruct (IH H) as (before & after & -> & Hb).
    exists (y :: before), after. simpl. now rewrite E.
Qed.

Lemma replaceVersion_split (id : oid) (before after : list Version) (v v' : Version) :
  forallb (fun y => negb (N.eqb (v_id y) id)) before = true ->
  v_id v = id -> v_id v' = id ->
  replaceVersion v' (before ++ v :: after) = before ++ v' :: after.
Proof.
  intros Hb Hv Hv'. induction before as [|y before IH]; simpl in *.
  - now rewrite Hv, Hv', N.eqb_refl.
  - apply andb_prop in Hb as [Hy Hb]. apply negb_true_iff in Hy.
    rewrite Hv', Hy. now rewrite IH.
Qed.

Lemma replaceDocument_split (id : oid) (before after : list Document) (d d' : Document) :
  forallb (fun y => negb (N.eqb (d_id y) id)) before = true ->
  d_id d = id -> d_id d' = id ->
  replaceDocument d' (before ++ d :: after) = before ++ d' :: after.
Proof.
  intros Hb Hd Hd'. induction before as [|y before IH]; simpl in *.
  - now rewrite Hd, Hd', N.eqb_refl.
  - apply andb_prop in Hb as [Hy Hb]. apply negb_true_iff in Hy.
    rewrite Hd', Hy. now rewrite IH.
Qed.

Lemma find_version_id (vs : list Version) (id : oid) (v : Version) :
  find (fun x => N.eqb (v_id x) id) vs = Some v -> v_id v = id.
Proof. intros H. apply find_some in H as [_ H]. now apply N.eqb_eq. Qed.

(** ** Running a handler *)

Ltac unfold_handler :=
  cbv beta iota zeta delta
    [try_catch bind ret respond throw modify get undeclared
     Document_create Document_findById Document_save
     Version_create Version_findById Version_findOne Version_save dbcall
     documents versions calls] in *.

(** A branch that ends with another status than the one assumed. *)
Ltac wrong_status H :=
  solve [injection H as <- <-; discriminate].

Section HandlerProperties.

Variable JSON_parse : jsstring -> option json.
Variable JSON_stringify : json -> jsstring.
Variable dmp_loaded : bool.
Variable lcs_phase : nat -> list json -> list json -> option (list (akey * delta)).
Variable fault : nat -> bool.
Variable clock : nat -> Z.
Variable objectId : nat -> oid.

(** C6.  A [createVersion] request whose [content] is not a string, or
    whose [isAutoSave] is not a boolean, is answered with status 400
    (a validation error), and the world is left as it was: no version,
    no change to any document, and not even a call to the database. *)
Theorem createVersion_rejects_ill_typed_input (req : Request) (w : World) :
  (forall s, body_content req <> Some (JStr s)) \/
  (forall b, body_isAutoSave req <> Some (JBool b)) ->
  exists m,
    createVersion JSON_parse JSON_stringify dmp_loaded lcs_phase fault clock objectId req w
    = (mkResponse 400 (Message m), w).
Proof.
  intros H. unfold createVersion, try_catch, respond.
  destruct (body_content req) as [[| | |content| |]|] eqn:Ec;
    try (eexists; reflexivity).
  destruct (body_isAutoSave req) as [[|flag| | | |]|] eqn:Ea;
    try (eexists; reflexivity).
  destruct H as [H|H]; [now elim (H content) | now elim (H flag)].
Qed.

(** C7.  When [createDocument] succeeds (status 201) for content [C],
    exactly one document and exactly one version have been added; the
    version belongs to the document, its content is [C], its diff is
    the empty array [[]] the handler passes as the no-op diff, and its
    [isAutoSave] is [false]. *)
Theorem createDocument_initial_version (req : Request) (w w' : World) (resp : Response) :
  createDocument fault clock objectId req w = (resp, w') ->
  status resp = 201 ->
  exists C doc version,
    body_content req = Some (JStr C) /\
    documents w' = documents w ++ [doc] /\
    versions w' = versions w ++ [version] /\
    d_content doc = C /\
    v_documentId version = d_id doc /\
    v_content version = C /\
    v_diff version = Some EmptyArray /\
    v_isAutoSave version = false /\
    v_mergedFrom version = None.
Proof.
  unfold createDocument. intros H Hs. unfold_handler.
  destruct (body_name req) as [[| | |name| |]|]; try wrong_status H.
  destruct (trim_is_empty name) eqn:Et; try wrong_status H.
  destruct (body_content req) as [[| | |C| |]|]; try wrong_status H.
  destruct (user req) as [u|]; try wrong_status H.
  rewrite (trim_nonempty _ Et) in H. simpl in H.
  destruct (required_string C); simpl in H; try wrong_status H.
  destruct w as [ds vs n]; simpl in *.
  destruct (fault n); try wrong_status H.
  destruct (fault (S n)); try wrong_status H.
  injection H as <- <-. simpl.
  eexists _, _, _. repeat split; reflexivity.
Qed.

(** C2.  When [createVersion] succeeds (status 201) on a document whose
    content was [A], with new content [B] and flag [isAutoSave]: the
    document found under the id now has content [B]; exactly one
    version has been added; its content is [B], its [isAutoSave] is the
    flag, its [mergedFrom] is unset, and its diff is computed against
    [A]: when [A] and [B] both parse as JSON, it is what the diff engine
    returns for the value of [A] (old side) and the value of [B] (new
    side); when one of them does not parse, it is what the engine
    returns for the two strings [A] and [B]. *)
Theorem createVersion_appends_version (req : Request) (w w' : World) (resp : Response) :
  createVersion JSON_parse JSON_stringify dmp_loaded lcs_phase fault clock objectId req w
    = (resp, w') ->
  status resp = 201 ->
  exists id doc B isAutoSave version doc',
    params_id req = ObjectIdOf id /\
    body_content req = Some (JStr B) /\
    body_isAutoSave req = Some (JBool isAutoSave) /\
    find (fun d => N.eqb (d_id d) id) (documents w) = Some doc /\
    find (fun d => N.eqb (d_id d) id) (documents w') = Some doc' /\
    d_content doc' = B /\
    versions w' = versions w ++ [version] /\
    v_documentId version = d_id doc /\
    v_content version = B /\
    v_isAutoSave version = isAutoSave /\
    v_mergedFrom version = None /\
    match JSON_parse (d_content doc), JSON_parse B with
    | Some oldContent, Some newContent =>
        holds_diff version
          (diffPatcher_diff JSON_stringify dmp_loaded lcs_phase oldContent newContent)
    | _, _ =>
        holds_diff version
          (diffPatcher_diff JSON_stringify dmp_loaded lcs_phase
             (JStr (d_content doc)) (JStr B))
    end.
Proof.
  unfold createVersion, computeDiff. intros H Hs.
  unfold_handler.
  destruct (body_content req) as [[| | |B| |]|] eqn:Ec; try wrong_status H.
  destruct (body_isAutoSave req) as [[|flag| | | |]|] eqn:Ea; try wrong_status H.
  destruct (params_id req) as [|id] eqn:Ei; try wrong_status H.
  destruct w as [ds vs n]; simpl in *.
  destruct (fault n); try wrong_status H.
  destruct (find (fun d => N.eqb (d_id d) id) ds) as [doc|] eqn:Ed; try wrong_status H.
  destruct (owns (user req) doc); simpl in H; try wrong_status H.
  destruct (parseBoth JSON_parse (d_content doc) B) as [oldContent newContent] eqn:Ep.
  pose proof (find_id _ _ _ Ed) as Hid.
  destruct (diffPatcher_diff JSON_stringify dmp_loaded lcs_phase oldContent newContent)
    as [| |dl] eqn:Edf; try wrong_status H.
  all: destruct (required_string B); simpl in H; try wrong_status H.
  all: destruct (fault (S n)); try wrong_status H.
  all: destruct (required_string (d_name doc)); simpl in H; try wrong_status H.
  all: unfold document_eqb in H; simpl in H; rewrite jsstring_eqb_refl in H; simpl in H.
  all: destruct (jsstring_eqb (d_content doc) B) eqn:Eq.
  all: try match type of H with
           | context [fault (S (S ?k))] => destruct (fault (S (S k))); try wrong_status H
           end.
  all: injection H as <- <-; simpl.
  all: assert (Hdiff :
         forall version,
           holds_diff version
             (diffPatcher_diff JSON_stringify dmp_loaded lcs_phase oldContent newContent) ->
           match JSON_parse (d_content doc), JSON_parse B with
           | Some a, Some b =>
               holds_diff version (diffPatcher_diff JSON_stringify dmp_loaded lcs_phase a b)
           | _, _ =>
               holds_diff version
                 (diffPatcher_diff JSON_stringify dmp_loaded lcs_phase
                    (JStr (d_content doc)) (JStr B))
           end)
       by (intros version Hv; unfold parseBoth in Ep;
           destruct (JSON_parse (d_content doc)); destruct (JSON_parse B);
           injection Ep as <- <-; exact Hv).
  1,3: apply jsstring_eqb_eq in Eq; exists id, doc, B, flag; eexists; exists doc;
       repeat split; try reflexivity; try assumption;
       apply Hdiff; unfold holds_diff; rewrite Edf; reflexivity.
  all: exists id, doc, B, flag; eexists;
       exists (mkDocument (d_id doc) (d_name doc) B (d_userId doc) (d_createdAt doc)
                          (clock (S (S n))));
       repeat split; try reflexivity; try assumption;
       first [ eapply find_replaceDocument; [eassumption | exact Hid]
             | apply Hdiff; unfold holds_diff; rewrite Edf; reflexivity ].
Qed.

(** C1 (amended).  When [mergeVersion] succeeds (status 200) for a
    document and a version [v] of it: the document found under the id
    now has the content of [v]; exactly one version has been added,
    whatever the versions between [v] and the head; its content is that
    of [v], its [isAutoSave] is [false], its [mergedFrom] is the id of
    [v], and its [diff] is unset: the handler computes no diff. *)
Theorem mergeVersion_restores_content (req : Request) (w w' : World) (resp : Response) :
  mergeVersion fault clock objectId req w = (resp, w') ->
  status resp = 200 ->
  exists id versionId doc v merged doc',
    params_id req = ObjectIdOf id /\
    params_versionId req = ObjectIdOf versionId /\
    find (fun d => N.eqb (d_id d) id) (documents w) = Some doc /\
    find (fun x => N.eqb (v_id x) versionId && N.eqb (v_documentId x) id) (versions w)
      = Some v /\
    find (fun d => N.eqb (d_id d) id) (documents w') = Some doc' /\
    d_content doc' = v_content v /\
    versions w' = versions w ++ [merged] /\
    v_documentId merged = d_id doc /\
    v_content merged = v_content v /\
    v_isAutoSave merged = false /\
    v_mergedFrom merged = Some (v_id v) /\
    v_diff merged = None.
Proof.
  unfold mergeVersion. intros H Hs. unfold_handler.
  destruct (params_id req) as [|id]; try wrong_status H.
  destruct (params_versionId req) as [|versionId]; try wrong_status H.
  destruct w as [ds vs n]; simpl in *.
  destruct (fault n); try wrong_status H.
  destruct (find (fun d => N.eqb (d_id d) id) ds) as [doc|] eqn:Ed; try wrong_status H.
  destruct (owns (user req) doc); simpl in H; try wrong_status H.
  destruct (fault (S n)); try wrong_status H.
  destruct (find _ vs) as [v|] eqn:Ev; try wrong_status H.
  pose proof (find_id _ _ _ Ed) as Hid.
  destruct (required_string (d_name doc)); simpl in H; try wrong_status H.
  destruct (required_string (v_content v)); simpl in H; try wrong_status H.
  unfold document_eqb in H; simpl in H; rewrite jsstring_eqb_refl in H; simpl in H.
  destruct (jsstring_eqb (d_content doc) (v_content v)) eqn:Eq.
  - destruct (fault (S (S n))); try wrong_status H.
    destruct (fault (S (S (S n)))); try wrong_status H.
    injection H as <- <-; simpl.
    apply jsstring_eqb_eq in Eq.
    exists id, versionId, doc, v; eexists; exists doc.
    repeat split; try reflexivity; assumption.
  - destruct (fault (S (S n))); try wrong_status H.
    destruct (fault (S (S (S n)))); try wrong_status H.
    injection H as <- <-; simpl.
    exists id, versionId, doc, v; eexists.
    exists (mkDocument (d_id doc) (d_name doc) (v_content v) (d_userId doc)
                       (d_createdAt doc) (clock (S (S n)))).
    repeat split; try reflexivity; try assumption.
    eapply find_replaceDocument; [eassumption | exact Hid].
Qed.

(** C3 (amended).  [createDocument] has three outcomes.  Either it
    answers 201 and both the document and its first version have been
    added; or neither has been added; or the insertion of the document
    succeeded and the insertion of the version, the next call to the
    database, failed: then the document alone has been added and the
    answer is 500. *)
Theorem createDocument_outcomes (req : Request) (w : World) :
  let '(resp, w') := createDocument fault clock objectId req w in
  (status resp = 201 /\
   exists doc version,
     documents w' = documents w ++ [doc] /\
     versions w' = versions w ++ [version] /\
     v_documentId version = d_id doc)
  \/
  (status resp <> 201 /\ documents w' = documents w /\ versions w' = versions w)
  \/
  (status resp = 500 /\
   fault (calls w) = false /\ fault (S (calls w)) = true /\
   exists doc, documents w' = documents w ++ [doc] /\ versions w' = versions w).
Proof.
  unfold createDocument. unfold_handler.
  destruct (body_name req) as [[| | |name| |]|];
    try (right; left; repeat split; [discriminate]).
  destruct (trim_is_empty name) eqn:Et;
    try (right; left; repeat split; [discriminate]).
  destruct (body_content req) as [[| | |C| |]|];
    try (right; left; repeat split; [discriminate]).
  destruct (user req) as [u|];
    try (right; left; repeat split; [discriminate]).
  rewrite (trim_nonempty _ Et). simpl.
  destruct (required_string C); simpl;
    try (right; left; repeat split; [discriminate]).
  destruct w as [ds vs n]; simpl.
  destruct (fault n) eqn:F0; simpl;
    try (right; left; repeat split; [discriminate]).
  destruct (fault (S n)) eqn:F1; simpl.
  - right; right. repeat split. eexists; split; reflexivity.
  - left. split; [reflexivity|]. eexists _, _. repeat split; reflexivity.
Qed.

(** What [updateVersionContent] does once the request has passed the
    checks of the handler and of the schema and the database answers:
    the version is overwritten in place, and the answer is the one of
    the [catch] block. *)
Lemma updateVersionContent_run (req : Request) (w : World)
    (versionId : oid) (X : jsstring) (v : Version) (parentDoc : Document) :
  body_content req = Some (JStr X) ->
  X <> [] ->
  params_versionId req = ObjectIdOf versionId ->
  find (fun x => N.eqb (v_id x) versionId) (versions w) = Some v ->
  find (fun d => N.eqb (d_id d) (v_documentId v)) (documents w) = Some parentDoc ->
  owns (user req) parentDoc = true ->
  fault (calls w) = false ->
  fault (S (calls w)) = false ->
  fault (S (S (calls w))) = false ->
  exists before after t k,
    versions w = before ++ v :: after /\
    updateVersionContent fault clock req w
    = (internal_error,
       mkWorld (documents w)
               (before ++ mkVersion (v_id v) (v_documentId v) X (v_isAutoSave v) (v_userId v)
                                    (v_diff v) (v_mergedFrom v) (v_createdAt v) t :: after)
               k).
Proof.
  intros Hc HX Hp Hv Hd Ho F0 F1 F2.
  destruct (find_split _ _ _ Hv) as (before & after & Hsplit & Hb).
  pose proof (find_version_id _ _ _ Hv) as Hid.
  apply required_string_nonempty in HX.
  unfold updateVersionContent. unfold_handler.
  destruct w as [ds vs n]; simpl in *.
  rewrite Hc, Hp, F0, Hv, F1, Hd, Ho. simpl. rewrite HX.
  unfold version_eqb; simpl.
  destruct (jsstring_eqb (v_content v) X) eqn:Eq.
  - apply jsstring_eqb_eq in Eq. subst X. rewrite F2.
    exists before, after, (v_updatedAt v), (S (S (S n))). split; [assumption|].
    destruct v; simpl in *. now rewrite Hsplit.
  - rewrite F2. exists before, after, (clock (S (S n))), (S (S (S n))).
    split; [assumption|]. rewrite Hsplit.
    now rewrite (replaceVersion_split versionId).
Qed.

(** C4 (amended).  For an existing version [v] whose parent document
    exists and is owned by the requesting user, and a non-empty string
    [X], when the database answers: [updateVersionContent] overwrites
    the content of [v] with [X] in place.  No document changes; no
    version is added or removed; the versions before and after [v] are
    the same; of the fields of [v] only [content] and [updatedAt]
    change, so no diff is computed or stored. *)
Theorem updateVersionContent_in_place (req : Request) (w : World)
    (versionId : oid) (X : jsstring) (v : Version) (parentDoc : Document) :
  body_content req = Some (JStr X) ->
  X <> [] ->
  params_versionId req = ObjectIdOf versionId ->
  find (fun x => N.eqb (v_id x) versionId) (versions w) = Some v ->
  find (fun d => N.eqb (d_id d) (v_documentId v)) (documents w) = Some parentDoc ->
  owns (user req) parentDoc = true ->
  fault (calls w) = false ->
  fault (S (calls w)) = false ->
  fault (S (S (calls w))) = false ->
  let w' := snd (updateVersionContent fault clock req w) in
  documents w' = documents w /\
  exists before after t,
    versions w = before ++ v :: after /\
    versions w' =
      before ++ mkVersion (v_id v) (v_documentId v) X (v_isAutoSave v) (v_userId v)
                          (v_diff v) (v_mergedFrom v) (v_createdAt v) t :: after.
Proof.
  intros Hc HX Hp Hv Hd Ho F0 F1 F2.
  destruct (updateVersionContent_run req w versionId X v parentDoc)
    as (before & after & t & k & Hsplit & Hrun); try assumption.
  simpl. rewrite Hrun. simpl. split; [reflexivity|].
  now exists before, after, t.
Qed.

(** The same for [updateDocumentName]. *)
Lemma updateDocumentName_run (req : Request) (w : World)
    (id : oid) (name : jsstring) (doc : Document) :
  body_name req = Some (JStr name) ->
  trim_is_empty name = false ->
  params_id req = ObjectIdOf id ->
  find (fun d => N.eqb (d_id d) id) (documents w) = Some doc ->
  owns (user req) doc = true ->
  d_content doc <> [] ->
  fault (calls w) = false ->
  fault (S (calls w)) = false ->
  exists before after t k,
    documents w = before ++ doc :: after /\
    updateDocumentName fault clock req w
    = (internal_error,
       mkWorld (before ++ mkDocument (d_id doc) name (d_content doc) (d_userId doc)
                                     (d_createdAt doc) t :: after)
               (versions w) k).
Proof.
  intros Hn Ht Hp Hd Ho Hc F0 F1.
  destruct (find_split _ _ _ Hd) as (before & after & Hsplit & Hb).
  pose proof (find_id _ _ _ Hd) as Hid.
  apply required_string_nonempty in Hc.
  unfold updateDocumentName. unfold_handler.
  destruct w as [ds vs n]; simpl in *.
  rewrite Hn, Ht, Hp, F0, Hd, Ho. simpl. rewrite (trim_nonempty _ Ht), Hc. simpl.
  unfold document_eqb; simpl. rewrite jsstring_eqb_refl, andb_true_r.
  destruct (jsstring_eqb (d_name doc) name) eqn:Eq.
  - apply jsstring_eqb_eq in Eq. subst name. rewrite F1.
    exists before, after, (d_updatedAt doc), (S (S n)). split; [assumption|].
    destruct doc; simpl in *. now rewrite Hsplit.
  - rewrite F1. exists before, after, (clock (S n)), (S (S n)).
    split; [assumption|]. rewrite Hsplit.
    now rewrite (replaceDocument_split id).
Qed.

(** C9 (amended).  In the authenticated controller, a call of
    [updateDocumentName], or a call of [updateVersionContent] with a
    content that is not the empty string, that passes the validation
    and the ownership check, the database answering, applies its
    mutation (the new name of the document, the new content of the
    version) to the store and then answers 500: building the body of
    the response reads a variable that is not declared ([doc],
    [version]), which throws into the [catch] block.  A call of
    [updateVersionContent] with the empty string passes the validation
    and the ownership check as well and is answered 500, but nothing is
    changed: the [required] validator of the schema rejects the save. *)
Theorem update_handlers_mutate_then_fail :
  (forall (req : Request) (w : World) (id : oid) (name : jsstring) (doc : Document),
      body_name req = Some (JStr name) ->
      trim_is_empty name = false ->
      params_id req = ObjectIdOf id ->
      find (fun d => N.eqb (d_id d) id) (documents w) = Some doc ->
      owns (user req) doc = true ->
      d_content doc <> [] ->
      fault (calls w) = false ->
      fault (S (calls w)) = false ->
      let '(resp, w') := updateDocumentName fault clock req w in
      status resp = 500 /\
      versions w' = versions w /\
      exists before after t,
        documents w = before ++ doc :: after /\
        documents w' =
          before ++ mkDocument (d_id doc) name (d_content doc) (d_userId doc)
                               (d_createdAt doc) t :: after)
  /\
  (forall (req : Request) (w : World) (versionId : oid) (X : jsstring)
          (v : Version) (parentDoc : Document),
      body_content req = Some (JStr X) ->
      X <> [] ->
      params_versionId req = ObjectIdOf versionId ->
      find (fun x => N.eqb (v_id x) versionId) (versions w) = Some v ->
      find (fun d => N.eqb (d_id d) (v_documentId v)) (documents w) = Some parentDoc ->
      owns (user req) parentDoc = true ->
      fault (calls w) = false ->
      fault (S (calls w)) = false ->
      fault (S (S (calls w))) = false ->
      let '(resp, w') := updateVersionContent fault clock req w in
      status resp = 500 /\
      documents w' = documents w /\
      exists before after t,
        versions w = before ++ v :: after /\
        versions w' =
          before ++ mkVersion (v_id v) (v_documentId v) X (v_isAutoSave v) (v_userId v)
                              (v_diff v) (v_mergedFrom v) (v_createdAt v) t :: after)
  /\
  (forall (req : Request) (w : World) (versionId : oid) (v : Version)
          (parentDoc : Document),
      body_content req = Some (JStr []) ->
      params_versionId req = ObjectIdOf versionId ->
      find (fun x => N.eqb (v_id x) versionId) (versions w) = Some v ->
      find (fun d => N.eqb (d_id d) (v_documentId v)) (documents w) = Some parentDoc ->
      owns (user req) parentDoc = true ->
      let '(resp, w') := updateVersionContent fault clock req w in
      status resp = 500 /\
      documents w' = documents w /\
      versions w' = versions w).
Proof.
  split; [|split].
  - intros req w id name doc Hn Ht Hp Hd Ho Hc F0 F1.
    destruct (updateDocumentName_run req w id name doc)
      as (before & after & t & k & Hsplit & Hrun); try assumption.
    rewrite Hrun. simpl. repeat split. now exists before, after, t.
  - intros req w versionId X v parentDoc Hc HX Hp Hv Hd Ho F0 F1 F2.
    destruct (updateVersionContent_run req w versionId X v parentDoc)
      as (before & after & t & k & Hsplit & Hrun); try assumption.
    rewrite Hrun. simpl. repeat split. now exists before, after, t.
  - intros req w versionId v parentDoc Hc Hp Hv Hd Ho.
    unfold updateVersionContent. unfold_handler.
    destruct w as [ds vs n]; simpl in *. rewrite Hc, Hp.
    destruct (fault n); simpl; [repeat split|]. rewrite Hv.
    destruct (fault (S n)); simpl; [repeat split|]. rewrite Hd, Ho. simpl.
    repeat split.
Qed.

End HandlerProperties.

(** ** The diff engine *)

Lemma Qc_eq_bool_refl (q : Qc) : Qc_eq_bool q q = true.
Proof. unfold Qc_eq_bool. destruct (Qc_eq_dec q q); congruence. Qed.

Lemma number_eqb_refl (n : jsnumber) : number_eqb n n = true.
Proof. destruct n as [q|negative]; simpl; [apply Qc_eq_bool_refl | now destruct negative]. Qed.

Lemma number_eqb_eq (x y : jsnumber) : number_eqb x y = true -> x = y.
Proof.
  destruct x, y; simpl; try discriminate; intros H.
  - apply Qc_eq_bool_correct in H. congruence.
  - apply Bool.eqb_prop in H. congruence.
Qed.

Lemma strict_eq_scalar_refl (v : json) : is_container v = false -> strict_eq v v = true.
Proof.
  destruct v; simpl; try discriminate; intros _;
    auto using number_eqb_refl, jsstring_eqb_refl.
  now destruct b.
Qed.

Section DiffProperties.

Variable JSON_parse : jsstring -> option json.
Variable JSON_stringify : json -> jsstring.
Variable dmp_loaded : bool.
Variable lcs_phase : nat -> list json -> list json -> option (list (akey * delta)).



Lemma matchItems_self (e : json) :
  primitive_id e = true -> matchItems JSON_stringify e e = Some true.
Proof.
  intros Hp. unfold matchItems.
  destruct (is_container e) eqn:Ec.
  - assert (Hs : strict_eq e e = false) by (destruct e; try discriminate; reflexivity).
    assert (Ht : typeof_object e = true) by (destruct e; try discriminate; reflexivity).
    rewrite Hs, Ht. simpl.
    unfold objectHash. unfold primitive_id in Hp.
    destruct e; try discriminate.
    + simpl. now rewrite jsstring_eqb_refl.
    + destruct (truthy (get_id (JObj props))) eqn:Et.
      * destruct (get_id (JObj props)) as [v|]; [|discriminate].
        apply negb_true_iff in Hp. now rewrite (strict_eq_scalar_refl _ Hp).
      * simpl. now rewrite jsstring_eqb_refl.
  - now rewrite (strict_eq_scalar_refl _ Ec).
Qed.

Lemma commonHead_self (items : list json) :
  forallb primitive_id items = true ->
  commonHead JSON_stringify items items = Some (List.length items).
Proof.
  induction items as [|x items IH]; simpl; [reflexivity|].
  intros H. apply andb_prop in H as [Hx H].
  rewrite (matchItems_self _ Hx), (IH H). reflexivity.
Qed.

Lemma commonTail_self (items : list json) :
  commonTail JSON_stringify (List.length items) items items = Some 0.
Proof. unfold commonTail. now rewrite skipn_all. Qed.

Lemma arrayMiddle_self (items : list json) :
  arrayMiddle lcs_phase (List.length items) 0 items items = Some None.
Proof.
  unfold arrayMiddle. now rewrite Nat.add_0_r, !Nat.eqb_refl.
Qed.

Lemma pairedChildren_self (d : json -> json -> outcome) (items suffix prefix : list json) :
  items = prefix ++ suffix ->
  Forall (fun x => d x x = Undefined) suffix ->
  pairedChildren d (List.length items) 0 (List.length items) (List.length items)
    items (List.length prefix) suffix = Some [].
Proof.
  intros E H. revert prefix E.
  induction H as [|x suffix Hx H IH]; intros prefix E; simpl; [reflexivity|].
  assert (Hlt : List.length prefix < List.length items).
  { rewrite E, length_app. simpl. lia. }
  unfold pairedIndex. apply Nat.ltb_lt in Hlt. rewrite Hlt.
  assert (Hn : nth_error items (List.length prefix) = Some x).
  { rewrite E, nth_error_app2, Nat.sub_diag by lia. reflexivity. }
  rewrite Hn, Hx. simpl.
  specialize (IH (prefix ++ [x])). rewrite length_app in IH. simpl in IH.
  rewrite Nat.add_1_r in IH. rewrite IH; [reflexivity|].
  now rewrite <- app_assoc.
Qed.

Lemma getOwn_unique (props : list (jsstring * json)) (name : jsstring) (v : json) :
  unique_names (map fst props) = true -> In (name, v) props -> getOwn name props = Some v.
Proof.
  induction props as [|[k x] props IH]; simpl; [tauto|].
  intros Hu [E|Hin].
  - injection E as -> ->. now rewrite jsstring_eqb_refl.
  - apply andb_prop in Hu as [Hk Hu]. apply negb_true_iff in Hk.
    destruct (jsstring_eqb k name) eqn:Ek; [|auto].
    apply jsstring_eqb_eq in Ek. subst k. exfalso.
    assert (Hex : existsb (jsstring_eqb name) (map fst props) = true).
    { apply existsb_exists. exists name. split; [|apply jsstring_eqb_refl].
      now apply (in_map fst) in Hin. }
    congruence.
Qed.

Lemma leftChildren_self (d : json -> json -> outcome) (props suffix : list (jsstring * json)) :
  (forall kv, In kv suffix -> getOwn (fst kv) props = Some (snd kv) /\ d (snd kv) (snd kv) = Undefined) ->
  leftChildren d props suffix = Some [].
Proof.
  induction suffix as [|[name lv] suffix IH]; simpl; intros H; [reflexivity|].
  destruct (H (name, lv) (or_introl eq_refl)) as [Hg Hd]. simpl in Hg, Hd.
  rewrite Hg, Hd, IH by auto. now destruct (propertyFilter name).
Qed.

Lemma rightChildren_self (props suffix : list (jsstring * json)) :
  (forall kv, In kv suffix -> getOwn (fst kv) props = Some (snd kv)) ->
  rightChildren props suffix = [].
Proof.
  unfold rightChildren.
  induction suffix as [|[name rv] suffix IH]; simpl; intros H; [reflexivity|].
  rewrite IH by auto. specialize (H (name, rv) (or_introl eq_refl)). simpl in H.
  rewrite H. now destruct (propertyFilter name).
Qed.

(** The diff of a value with itself is empty when the ids of its array
    elements are primitive. *)
Lemma diff_self (v : json) :
  plain_ids v = true -> diff JSON_stringify dmp_loaded lcs_phase v v = Undefined.
Proof.
  induction v as [|b|q|s|items IH|props IH] using json_nested_ind; intros Hp;
    try (simpl; now rewrite ?number_eqb_refl, ?jsstring_eqb_refl, ?Bool.eqb_reflx).
  - simpl in Hp. cbn [diff strict_eq typeOf jstype_eqb negb].
    assert (Hprim : forallb primitive_id items = true).
    { rewrite forallb_forall in *. intros x Hx. specialize (Hp x Hx).
      now apply andb_prop in Hp. }
    rewrite (commonHead_self _ Hprim), commonTail_self, arrayMiddle_self.
    rewrite (pairedChildren_self _ items items []); [reflexivity | reflexivity |].
    rewrite Forall_forall in *. rewrite forallb_forall in Hp.
    intros x Hx. apply IH; [assumption|]. specialize (Hp x Hx).
    now apply andb_prop in Hp.
  - simpl in Hp. apply andb_prop in Hp as [Hu Hp].
    cbn [diff strict_eq typeOf jstype_eqb negb].
    rewrite leftChildren_self, rightChildren_self; [reflexivity | |].
    + intros kv Hin. destruct kv. now apply getOwn_unique.
    + intros kv Hin. split.
      * destruct kv. now apply getOwn_unique.
      * rewrite Forall_forall in IH. rewrite forallb_forall in Hp. auto.
Qed.

(** The diff that [createVersion] stores when the new content is the
    content the document has: none, for content that is not JSON and
    for JSON content in which the ids of array elements are primitive. *)
Theorem computeDiff_same_content (A : jsstring) (w : World) :
  JSON_parse A = None \/ (exists v, JSON_parse A = Some v /\ plain_ids v = true) ->
  computeDiff JSON_parse JSON_stringify dmp_loaded lcs_phase A A w = (Ok None, w).
Proof.
  intros H. unfold computeDiff, parseBoth, diffPatcher_diff.
  destruct H as [H | (v & H & Hp)]; rewrite H.
  - simpl. now rewrite jsstring_eqb_refl.
  - now rewrite (diff_self v Hp).
Qed.

Lemma falsy_id_iff (v : option json) : falsy_id v <-> truthy v = false.
Proof.
  unfold falsy_id. split.
  - intros [-> | [-> | [-> | [-> | ->]]]]; reflexivity.
  - destruct v as [[|b|[q|negative]|s| |]|]; simpl; try discriminate; auto.
    + destruct b; [discriminate | auto 6].
    + rewrite negb_false_iff. intros H. apply Qc_eq_bool_correct in H. subst. auto 6.
    + rewrite negb_false_iff, jsstring_eqb_eq. intros ->. auto 6.
Qed.

(** C10 (amended).  [objectHash] returns the [id] of an element when
    that [id] is truthy, and only then.  When the [id] is absent,
    [null], [0], the empty string or [false], the hash is the JSON
    serialization of the whole element.  Hence two array elements
    (objects or arrays) with such ids are matched by [matchItems]
    exactly when their serializations are equal: never when the two
    texts differ, and always when they are the same, whether or not the
    two elements are. *)
Theorem objectHash_falsy_id_serializes :
  (forall e, e <> JNull -> truthy (get_id e) = true ->
             objectHash JSON_stringify e = get_id e) /\
  (forall e, e <> JNull -> falsy_id (get_id e) ->
             objectHash JSON_stringify e = Some (JStr (JSON_stringify e))) /\
  (forall e1 e2,
      is_container e1 = true -> is_container e2 = true ->
      falsy_id (get_id e1) -> falsy_id (get_id e2) ->
      matchItems JSON_stringify e1 e2
      = Some (jsstring_eqb (JSON_stringify e1) (JSON_stringify e2))).
Proof.
  repeat split.
  - intros e He Ht. unfold objectHash. rewrite Ht. now destruct e.
  - intros e He Hf. apply falsy_id_iff in Hf. unfold objectHash. rewrite Hf.
    now destruct e.
  - intros e1 e2 H1 H2 Hf1 Hf2.
    apply falsy_id_iff in Hf1, Hf2. unfold matchItems, objectHash.
    assert (Hs : strict_eq e1 e2 = false) by (destruct e1, e2; simpl in *; congruence).
    rewrite Hs, Hf1, Hf2.
    destruct e1; try discriminate; destruct e2; try discriminate; reflexivity.
Qed.

End DiffProperties.

(* ================================================================== *)
(** ** The handlers on given requests *)

(** C1, as stated, fails: the document holds ['{'a':2}'], the version
    merged holds ['{'a':1}']; the merge succeeds, and the version it adds
    has no diff, while the diff engine returns a delta for the content
    before the merge and the content of the version. *)
Lemma mergeVersion_diff_counterexample :
  let A := js "{'a':2}" in
  let V := js "{'a':1}" in
  let '(resp, w') := mergeVersion no_fault ticks nth_id mergeVersion_request (store_of A V) in
  status resp = 200 /\
  exists merged,
    versions w' = versions (store_of A V) ++ [merged] /\
    v_mergedFrom merged = Some 20%N /\
    v_diff merged = None /\
    v_diff merged <>
      diffPath (diffPatcher_diff JSON.stringify true no_lcs
                  (fst (parseBoth JSON.parse A V)) (snd (parseBoth JSON.parse A V))).
Proof.
  vm_compute. split; [reflexivity|].
  eexists. repeat split. discriminate.
Qed.

(** The hypotheses of [mergeVersion_restores_content] hold of that run. *)
Lemma mergeVersion_restores_content_witness :
  let run := mergeVersion no_fault ticks nth_id mergeVersion_request
               (store_of (js "{'a':2}") (js "{'a':1}")) in
  exists id versionId doc v merged doc',
    params_id mergeVersion_request = ObjectIdOf id /\
    params_versionId mergeVersion_request = ObjectIdOf versionId /\
    find (fun d => N.eqb (d_id d) id)
         (documents (store_of (js "{'a':2}") (js "{'a':1}"))) = Some doc /\
    find (fun x => N.eqb (v_id x) versionId && N.eqb (v_documentId x) id)
         (versions (store_of (js "{'a':2}") (js "{'a':1}"))) = Some v /\
    find (fun d => N.eqb (d_id d) id) (documents (snd run)) = Some doc' /\
    d_content doc' = v_content v /\
    versions (snd run) = versions (store_of (js "{'a':2}") (js "{'a':1}")) ++ [merged] /\
    v_documentId merged = d_id doc /\
    v_content merged = v_content v /\
    v_isAutoSave merged = false /\
    v_mergedFrom merged = Some (v_id v) /\
    v_diff merged = None.
Proof.
  intros run.
  apply (mergeVersion_restores_content no_fault ticks nth_id mergeVersion_request
           (store_of (js "{'a':2}") (js "{'a':1}")) (snd run) (fst run)).
  - apply surjective_pairing.
  - vm_compute. reflexivity.
Defined.

(** The hypotheses of [createVersion_appends_version] hold when
    ['{'a':2}'] is saved over ['{'a':1}']: the diff of the new version is
    the delta from [1] to [2] of the property [a], where the diff of
    the new content against itself would be none. *)
Lemma createVersion_appends_version_witness :
  let req := createVersion_request (JStr (js "{'a':2}")) (JBool true) in
  let w := store_of (js "{'a':1}") (js "{'a':1}") in
  let run := createVersion JSON.parse JSON.stringify true no_lcs no_fault ticks nth_id req w in
  status (fst run) = 201 /\
  (exists id doc B isAutoSave version doc',
    params_id req = ObjectIdOf id /\
    body_content req = Some (JStr B) /\
    body_isAutoSave req = Some (JBool isAutoSave) /\
    find (fun d => N.eqb (d_id d) id) (documents w) = Some doc /\
    find (fun d => N.eqb (d_id d) id) (documents (snd run)) = Some doc' /\
    d_content doc' = B /\
    versions (snd run) = versions w ++ [version] /\
    v_documentId version = d_id doc /\
    v_content version = B /\
    v_isAutoSave version = isAutoSave /\
    v_mergedFrom version = None /\
    match JSON.parse (d_content doc), JSON.parse B with
    | Some oldContent, Some newContent =>
        holds_diff version (diffPatcher_diff JSON.stringify true no_lcs oldContent newContent)
    | _, _ =>
        holds_diff version
          (diffPatcher_diff JSON.stringify true no_lcs (JStr (d_content doc)) (JStr B))
    end) /\
  map v_diff (versions (snd run))
  = [Some EmptyArray;
     Some (OfDelta (DObject [(js "a", DReplaced (JNum (Finite (Q2Qc 1)))
                                                (JNum (Finite (Q2Qc 2))))]))] /\
  diffPatcher_diff JSON.stringify true no_lcs
    (JObj [(js "a", JNum (Finite (Q2Qc 2)))]) (JObj [(js "a", JNum (Finite (Q2Qc 2)))])
  = Undefined.
Proof.
  intros req w run.
  assert (Hs : status (fst run) = 201) by (vm_compute; reflexivity).
  split; [exact Hs|]. split; [|split; vm_compute; reflexivity].
  exact (createVersion_appends_version JSON.parse JSON.stringify true no_lcs
           no_fault ticks nth_id req w (snd run) (fst run)
           (surjective_pairing run) Hs).
Defined.

(** C3, as stated, fails: when the second call to the database fails,
    [createDocument] answers 500, the document has been inserted and
    no version has. *)
Lemma createDocument_not_atomic_counterexample :
  let req := createDocument_request (JStr (js "notes")) (JStr (js "{}")) in
  let '(resp, w') := createDocument second_call_fails ticks nth_id req empty_store in
  status resp = 500 /\
  documents w' = [mkDocument 100%N (js "notes") (js "{}") (Some 1%N) 0%Z 0%Z] /\
  versions w' = [].
Proof. vm_compute. repeat split. Qed.

(** C4, as stated, fails: for the empty string the [required]
    validator of the [content] path rejects the save, and the content
    of the version stays what it was. *)
Lemma updateVersionContent_empty_counterexample :
  let w := store_of (js "{'a':1}") (js "{'a':1}") in
  let '(resp, w') :=
    updateVersionContent no_fault ticks (updateVersionContent_request (JStr [])) w in
  status resp = 500 /\
  versions w' = [version_of (js "{'a':1}")] /\
  v_content (version_of (js "{'a':1}")) <> [].
Proof. vm_compute. repeat split. discriminate. Qed.

(** The hypotheses of [updateVersionContent_in_place] hold when [alice]
    overwrites her version with [draft]. *)
Lemma updateVersionContent_in_place_witness :
  let w := store_of (js "{'a':1}") (js "{'a':1}") in
  let w' := snd (updateVersionContent no_fault ticks
                   (updateVersionContent_request (JStr (js "draft"))) w) in
  documents w' = documents w /\
  exists before after t,
    versions w = before ++ version_of (js "{'a':1}") :: after /\
    versions w' =
      before ++ mkVersion 20%N 10%N (js "draft") false (Some 1%N) (Some EmptyArray) None 0%Z t
             :: after.
Proof.
  apply (updateVersionContent_in_place no_fault ticks
           (updateVersionContent_request (JStr (js "draft")))
           (store_of (js "{'a':1}") (js "{'a':1}"))
           20%N (js "draft") (version_of (js "{'a':1}")) (document_of (js "{'a':1}")));
    try reflexivity.
  discriminate.
Defined.



(** The hypothesis of [createVersion_rejects_ill_typed_input] holds of
    a request whose content is the number 1. *)
Lemma createVersion_rejects_ill_typed_input_witness :
  exists m,
    createVersion JSON.parse JSON.stringify true no_lcs no_fault ticks nth_id
      (createVersion_request (JNum (Finite (Q2Qc 1))) (JBool true)) (store_of (js "{}") (js "{}"))
    = (mkResponse 400 (Message m), store_of (js "{}") (js "{}")).
Proof.
  apply createVersion_rejects_ill_typed_input.
  left. intros s. simpl. discriminate.
Defined.

(** The hypotheses of [createDocument_initial_version] hold of a
    request of [alice] on the empty store. *)
Lemma createDocument_initial_version_witness :
  let req := createDocument_request (JStr (js "notes")) (JStr (js "{}")) in
  let run := createDocument no_fault ticks nth_id req empty_store in
  exists C doc version,
    body_content req = Some (JStr C) /\
    documents (snd run) = documents empty_store ++ [doc] /\
    versions (snd run) = versions empty_store ++ [version] /\
    d_content doc = C /\
    v_documentId version = d_id doc /\
    v_content version = C /\
    v_diff version = Some EmptyArray /\
    v_isAutoSave version = false /\
    v_mergedFrom version = None.
Proof.
  intros req run.
  apply (createDocument_initial_version no_fault ticks nth_id req empty_store
           (snd run) (fst run)).
  - apply surjective_pairing.
  - vm_compute. reflexivity.
Defined.

(** The hypotheses of [update_handlers_mutate_then_fail] hold when
    [alice] renames her document to [plan], when she overwrites her
    version with [draft], and when she sends the empty string for it. *)
Lemma update_handlers_mutate_then_fail_witness :
  let w := store_of (js "{'a':1}") (js "{'a':1}") in
  (let '(resp, w') :=
     updateDocumentName no_fault ticks (updateDocumentName_request (JStr (js "plan"))) w in
   status resp = 500 /\
   versions w' = versions w /\
   exists before after t,
     documents w = before ++ document_of (js "{'a':1}") :: after /\
     documents w' =
       before ++ mkDocument 10%N (js "plan") (js "{'a':1}") (Some 1%N) 0%Z t :: after)
  /\
  (let '(resp, w') :=
     updateVersionContent no_fault ticks (updateVersionContent_request (JStr (js "draft"))) w in
   status resp = 500 /\
   documents w' = documents w /\
   exists before after t,
     versions w = before ++ version_of (js "{'a':1}") :: after /\
     versions w' =
       before ++ mkVersion 20%N 10%N (js "draft") false (Some 1%N) (Some EmptyArray) None 0%Z t
              :: after)
  /\
  (let '(resp, w') :=
     updateVersionContent no_fault ticks (updateVersionContent_request (JStr [])) w in
   status resp = 500 /\
   documents w' = documents w /\
   versions w' = versions w).
Proof.
  split; [|split].
  - apply (proj1 (update_handlers_mutate_then_fail no_fault ticks)
             (updateDocumentName_request (JStr (js "plan")))
             (store_of (js "{'a':1}") (js "{'a':1}"))
             10%N (js "plan") (document_of (js "{'a':1}")));
      try reflexivity.
    discriminate.
  - apply (proj1 (proj2 (update_handlers_mutate_then_fail no_fault ticks))
             (updateVersionContent_request (JStr (js "draft")))
             (store_of (js "{'a':1}") (js "{'a':1}"))
             20%N (js "draft") (version_of (js "{'a':1}")) (document_of (js "{'a':1}")));
      try reflexivity.
    discriminate.
  - apply (proj2 (proj2 (update_handlers_mutate_then_fail no_fault ticks))
             (updateVersionContent_request (JStr []))
             (store_of (js "{'a':1}") (js "{'a':1}"))
             20%N (version_of (js "{'a':1}")) (document_of (js "{'a':1}")));
      reflexivity.
Defined.

(** C9, as stated, fails: in the store with the two documents of
    [alice], her request to overwrite her version with the empty string
    carries a string, names a version that exists and whose document
    she owns, and is answered 500; yet no mutation is applied: the
    versions and the documents are what they were. *)
Lemma update_handlers_nothing_applied_counterexample :
  let req := updateVersionContent_request (JStr []) in
  let '(resp, w') := updateVersionContent no_fault ticks req two_documents_store in
  body_content req = Some (JStr []) /\
  find (fun x => N.eqb (v_id x) 20%N) (versions two_documents_store)
  = Some (version_of (js "{'a':1}")) /\
  owns (user req) (document_of (js "{'a':1}")) = true /\
  status resp = 500 /\
  versions w' = versions two_documents_store /\
  documents w' = documents two_documents_store.
Proof. vm_compute. repeat split. Qed.

(** C8 at the content ['[{'id':{}}]'], saved over itself.  The [id] of
    the element is an object, [objectHash] returns it, and the two
    copies of it, one per call of [JSON.parse], are not identical: the
    element is not matched with itself, and the array filter goes on to
    its LCS phase.  Whatever that phase and the text-diff module do,
    either the diff throws and the handler answers 500, or the version
    created carries an array delta: in no case the empty diff. *)
Theorem createVersion_same_content_object_id
    (dmp_loaded : bool)
    (lcs_phase : nat -> list json -> list json -> option (list (akey * delta))) :
  let A := js "[{'id':{}}]" in
  let req := createVersion_request (JStr A) (JBool false) in
  let '(resp, w') :=
    createVersion JSON.parse JSON.stringify dmp_loaded lcs_phase no_fault ticks nth_id
      req (store_of A A) in
  JSON.parse A = Some (JArr [JObj [(js "id", JObj [])]]) /\
  ((status resp = 500 /\ versions w' = versions (store_of A A))
   \/
   (status resp = 201 /\
    exists version members,
      versions w' = versions (store_of A A) ++ [version] /\
      v_diff version = Some (OfDelta (DArray members)))).
Proof.
  cbv zeta.
  unfold createVersion, computeDiff, parseBoth. unfold_handler.
  replace (JSON.parse (js "[{'id':{}}]")) with (Some (JArr [JObj [(js "id", JObj [])]]))
    by (vm_compute; reflexivity).
  simpl.
  destruct (lcs_phase 0 [JObj [(js "id", JObj [])]] [JObj [(js "id", JObj [])]])
    as [members|] eqn:E.
  - vm_compute. vm_compute in E. rewrite E. split; [reflexivity|].
    right. split; [reflexivity|]. eexists _, _. split; reflexivity.
  - vm_compute. vm_compute in E. rewrite E. split; [reflexivity|].
    left. split; reflexivity.
Qed.

(** The hypotheses of [objectHash_falsy_id_serializes] hold of the
    [JSON.stringify] of the runtime and of two elements whose [id] is
    [null] and that differ in another field, which it prints: they are
    not matched. *)
Lemma objectHash_falsy_id_serializes_witness :
  let e1 := JObj [(js "id", JNull); (js "done", JBool true)] in
  let e2 := JObj [(js "id", JNull); (js "done", JBool false)] in
  objectHash JSON.stringify e1 = Some (JStr (JSON.stringify e1)) /\
  matchItems JSON.stringify e1 e2 = Some false.
Proof.
  intros e1 e2.
  destruct (objectHash_falsy_id_serializes JSON.stringify) as (_ & Hfalsy & Hmatch).
  split.
  - apply Hfalsy; [discriminate|]. right; left. reflexivity.
  - rewrite (Hmatch e1 e2); [reflexivity | reflexivity | reflexivity | |];
      right; left; reflexivity.
Defined.

(** C10, as stated, fails: the elements of ['[{'a':1e999}]'] and of
    ['[{'a':null}]'] have no [id] and differ in the field [a], which is
    [Infinity] in the one and [null] in the other.  [JSON.stringify]
    prints both as ['{'a':null}']: the two elements are matched, and
    the diff of the two arrays is the delta of the one element, in
    which [null] replaces [Infinity]. *)
Lemma objectHash_infinity_counterexample :
  let e1 := JObj [(js "a", JNum (Infinity false))] in
  let e2 := JObj [(js "a", JNull)] in
  JSON.parse (js "[{'a':1e999}]") = Some (JArr [e1]) /\
  JSON.parse (js "[{'a':null}]") = Some (JArr [e2]) /\
  get_id e1 = None /\ get_id e2 = None /\
  strict_eq (JNum (Infinity false)) JNull = false /\
  JSON.stringify e1 = js "{'a':null}" /\
  JSON.stringify e2 = js "{'a':null}" /\
  matchItems JSON.stringify e1 e2 = Some true /\
  diffPatcher_diff JSON.stringify true no_lcs (JArr [e1]) (JArr [e2])
  = Delta (DArray [(AIdx 0,
                    DObject [(js "a", DReplaced (JNum (Infinity false)) JNull)])]).
Proof. vm_compute. repeat split. Qed.

(** The hypothesis of [computeDiff_same_content] holds of a content
    whose array elements have numbers as ids. *)
Lemma computeDiff_same_content_witness :
  let A := js "[{'id':1,'tags':['x',null]},{'id':2}]" in
  computeDiff JSON.parse JSON.stringify true no_lcs A A empty_store = (Ok None, empty_store).
Proof.
  intros A. apply computeDiff_same_content.
  right. eexists. split; vm_compute; reflexivity.
Defined.

(* ================================================================== *)
(** * More of the controller *)

(** Case analysis over the branches of a handler, in the goal. *)
Ltac branch :=
  match goal with
  | |- context [match ?x with _ => _ end] =>
      lazymatch x with
      | context [match _ with _ => _ end] => fail
      | _ => destruct x eqn:?
      end
  end.

Ltac branches := repeat (branch; cbn beta iota zeta).

(** ** Lists, sorting and updates by id *)

Lemma replaceDocument_at (ds : list Document) (id : oid) (d d' : Document) :
  find (fun x => N.eqb (d_id x) id) ds = Some d -> d_id d' = d_id d ->
  exists before after,
    ds = before ++ d :: after /\ replaceDocument d' ds = before ++ d' :: after.
Proof.
  intros Hf Hid. destruct (find_split _ _ _ Hf) as (before & after & E & Hb).
  exists before, after. split; [assumption|]. rewrite E.
  pose proof (find_id _ _ _ Hf).
  apply (replaceDocument_split id); auto. congruence.
Qed.

Lemma replaceVersion_at (vs : list Version) (id : oid) (v v' : Version) :
  find (fun x => N.eqb (v_id x) id) vs = Some v -> v_id v' = v_id v ->
  exists before after,
    vs = before ++ v :: after /\ replaceVersion v' vs = before ++ v' :: after.
Proof.
  intros Hf Hid. destruct (find_split _ _ _ Hf) as (before & after & E & Hb).
  exists before, after. split; [assumption|]. rewrite E.
  pose proof (find_version_id _ _ _ Hf).
  apply (replaceVersion_split id); auto. congruence.
Qed.

Lemma replaceDocument_in (ds : list Document) (id : oid) (d d' : Document) :
  find (fun x => N.eqb (d_id x) id) ds = Some d -> d_id d' = d_id d ->
  In d' (replaceDocument d' ds).
Proof.
  intros Hf Hid. destruct (replaceDocument_at _ _ _ _ Hf Hid) as (b & a & _ & ->).
  apply in_elt.
Qed.


Lemma edits_extends (u : option User) (w w' : World) : edits u w w' -> extends w w'.
Proof.
  intros [Hd Hv]. split.
  - exists []. rewrite app_nil_r.
    destruct Hd as [-> | (before & d & after & d' & -> & -> & _ & Hf & _)]; [reflexivity|].
    rewrite !map_app. simpl. now rewrite Hf.
  - destruct Hv as [-> | [(v & d & -> & _) | (before & v & after & v' & d & -> & -> & Hf & _)]].
    + exists []. now rewrite app_nil_r.
    + eexists. rewrite map_app. reflexivity.
    + exists []. rewrite app_nil_r, !map_app. simpl. now rewrite Hf.
Qed.

Lemma creates_extends (u : option User) (w w' : World) : creates u w w' -> extends w w'.
Proof.
  intros [[Hd Hv] | (d & Hd & _ & _ & _ & Hv)]; split.
  - exists []. now rewrite app_nil_r, Hd.
  - exists []. now rewrite app_nil_r, Hv.
  - eexists. rewrite Hd, map_app. reflexivity.
  - destruct Hv as [-> | (v & -> & _)].
    + exists []. now rewrite app_nil_r.
    + eexists. rewrite map_app. reflexivity.
Qed.

Lemma edits_valid (u : option User) (w w' : World) :
  edits u w w' -> valid_store w -> valid_store w'.
Proof.
  intros [Hd Hv] [Vd Vv]. split.
  - destruct Hd as [-> | (before & d & after & d' & E & -> & _ & _ & Hn & Hc)]; [assumption|].
    intros x Hx. apply in_app_or in Hx as [Hx | [<- | Hx]]; [| now split |];
      apply Vd; rewrite E; apply in_or_app; [now left | right; now right].
  - destruct Hv as [-> | [(v & d & -> & _ & _ & _ & Hc)
                         | (before & v & after & v' & d & E & -> & _ & Hc & _)]];
      [assumption | |].
    + intros x Hx. apply in_app_or in Hx as [Hx | [<- | []]]; auto.
    + intros x Hx. apply in_app_or in Hx as [Hx | [<- | Hx]]; [| assumption |];
        apply Vv; rewrite E; apply in_or_app; [now left | right; now right].
Qed.

Lemma creates_valid (u : option User) (w w' : World) :
  creates u w w' -> valid_store w -> valid_store w'.
Proof.
  intros [[Hd Hv] | (d & Hd & _ & Hn & Hc & Hv)] [Vd Vv]; split.
  - now rewrite Hd.
  - now rewrite Hv.
  - rewrite Hd. intros x Hx. apply in_app_or in Hx as [Hx | [<- | []]]; auto.
  - destruct Hv as [-> | (v & -> & _ & Hvc)]; [assumption|].
    intros x Hx. apply in_app_or in Hx as [Hx | [<- | []]]; auto.
Qed.

Lemma document_ids_kept (u : option User) (ds ds' : list Document) :
  documents_edited u ds ds' -> map d_id ds' = map d_id ds.
Proof.
  intros [-> | (before & d & after & d' & -> & -> & _ & Hf & _)]; [reflexivity|].
  rewrite !map_app. simpl. do 2 f_equal.
  unfold document_frozen in Hf. congruence.
Qed.

Lemma edits_parents (u : option User) (w w' : World) :
  edits u w w' -> versions_have_parents w -> versions_have_parents w'.
Proof.
  intros [Hd Hv] P.
  pose proof (document_ids_kept _ _ _ Hd) as Hids.
  assert (Hkeep : forall v, In v (versions w) ->
                    exists d, In d (documents w') /\ d_id d = v_documentId v).
  { intros v Hin. destruct (P v Hin) as (d & Hdin & Hid).
    apply (in_map d_id) in Hdin. rewrite <- Hids in Hdin.
    apply in_map_iff in Hdin as (d2 & E2 & Hin2). exists d2. split; congruence. }
  unfold versions_have_parents.
  destruct Hv as [-> | [(v & d & -> & Hin & Hid & _)
                       | (before & v & after & v' & d & E & -> & Hf & _ & Hin & Hid & _)]].
  - exact Hkeep.
  - intros x Hx. apply in_app_or in Hx as [Hx | [<- | []]]; [auto|].
    exists d. split; congruence.
  - intros x Hx. apply in_app_or in Hx as [Hx | [<- | Hx]].
    + apply Hkeep. rewrite E. apply in_or_app. now left.
    + exists d. split; [assumption|]. unfold version_frozen in Hf. congruence.
    + apply Hkeep. rewrite E. apply in_or_app. right. now right.
Qed.

Lemma creates_parents (u : option User) (w w' : World) :
  creates u w w' -> versions_have_parents w -> versions_have_parents w'.
Proof.
  intros [[Hd Hv] | (d & Hd & _ & _ & _ & Hv)] P.
  - unfold versions_have_parents. now rewrite Hd, Hv.
  - assert (Hkeep : forall v, In v (versions w) ->
                      exists d, In d (documents w') /\ d_id d = v_documentId v).
    { intros v Hin. destruct (P v Hin) as (d0 & Hdin & Hid). exists d0.
      split; [|assumption]. rewrite Hd. apply in_or_app. now left. }
    destruct Hv as [Hv | (v & Hv & Hid & _)]; unfold versions_have_parents; rewrite Hv.
    + assumption.
    + intros x Hx. apply in_app_or in Hx as [Hx | [<- | []]]; [auto|].
      exists d. split; [|congruence]. rewrite Hd. apply in_or_app. right. now left.
Qed.

Lemma edits_foreign (u : option User) (w w' : World) :
  edits u w w' ->
  filter (fun d => negb (owns u d)) (documents w')
  = filter (fun d => negb (owns u d)) (documents w).
Proof.
  intros [[-> | (before & d & after & d' & -> & -> & Ho & Hf & _)] _]; [reflexivity|].
  assert (Ho' : owns u d' = true).
  { unfold owns in *. unfold document_frozen in Hf.
    replace (d_userId d') with (d_userId d) by congruence. assumption. }
  rewrite !filter_app. simpl. now rewrite Ho, Ho'.
Qed.

Lemma creates_foreign (u : option User) (w w' : World) :
  creates u w w' ->
  filter (fun d => negb (owns u d)) (documents w')
  = filter (fun d => negb (owns u d)) (documents w).
Proof.
  intros [[-> _] | (d & -> & Ho & _)]; [reflexivity|].
  rewrite filter_app. simpl. rewrite Ho. simpl. apply app_nil_r.
Qed.

Lemma edits_stranger (u : option User) (w w' : World) :
  (forall d, In d (documents w) -> owns u d = false) ->
  edits u w w' -> documents w' = documents w /\ versions w' = versions w.
Proof.
  intros Hs [Hd Hv].
  assert (E : documents w' = documents w).
  { destruct Hd as [-> | (before & d & after & d' & E & _ & Ho & _)]; [reflexivity|].
    rewrite (Hs d) in Ho; [discriminate|]. rewrite E. apply in_elt. }
  split; [assumption|]. rewrite E in Hv.
  destruct Hv as [-> | [(v & d & _ & Hin & _ & Ho & _)
                       | (before & v & after & v' & d & _ & _ & _ & _ & Hin & _ & Ho)]];
    [reflexivity | |]; rewrite (Hs d Hin) in Ho; discriminate.
Qed.

(** ** Sorting *)

Lemma in_firstn {A} (n : nat) (l : list A) (x : A) : In x (firstn n l) -> In x l.
Proof. intros H. rewrite <- (firstn_skipn n l). apply in_or_app. now left. Qed.

Lemma in_skipn {A} (n : nat) (l : list A) (x : A) : In x (skipn n l) -> In x l.
Proof. intros H. rewrite <- (firstn_skipn n l). apply in_or_app. now right. Qed.


Lemma insertDesc_perm {A} (key : A -> Z) (x : A) (l : list A) :
  Permutation (x :: l) (insertDesc key x l).
Proof.
  induction l as [|y l IH]; simpl; [reflexivity|].
  destruct (key y <? key x)%Z; [reflexivity|].
  rewrite perm_swap. now constructor.
Qed.

Lemma sortDesc_perm {A} (key : A -> Z) (l : list A) : Permutation l (sortDesc key l).
Proof.
  induction l as [|x l IH]; simpl; [constructor|].
  rewrite <- insertDesc_perm. now constructor.
Qed.

Lemma insertDesc_sorted {A} (key : A -> Z) (x : A) (l : list A) :
  newest_first key l -> newest_first key (insertDesc key x l).
Proof.
  unfold newest_first. induction 1 as [|y l Hs IH Hy]; simpl.
  - repeat constructor.
  - destruct (key y <? key x)%Z eqn:E.
    + apply Z.ltb_lt in E. constructor; [now constructor|].
      constructor; [lia|]. eapply Forall_impl; [|exact Hy]. simpl. intros; lia.
    + apply Z.ltb_ge in E. constructor; [assumption|].
      rewrite <- (insertDesc_perm key x l). now constructor.
Qed.

Lemma sortDesc_sorted {A} (key : A -> Z) (l : list A) : newest_first key (sortDesc key l).
Proof.
  induction l as [|x l IH]; simpl; [constructor|]. now apply insertDesc_sorted.
Qed.

Lemma newest_first_skipn {A} (key : A -> Z) (n : nat) (l : list A) :
  newest_first key l -> newest_first key (skipn n l).
Proof.
  revert l. induction n as [|n IH]; intros l H; [assumption|].
  destruct l as [|x l]; [assumption|]. simpl. apply IH. now inversion H.
Qed.

Lemma newest_first_firstn {A} (key : A -> Z) (n : nat) (l : list A) :
  newest_first key l -> newest_first key (firstn n l).
Proof.
  revert l. induction n as [|n IH]; intros l H; [constructor|].
  destruct l as [|x l]; [constructor|]. simpl. inversion H as [|? ? Hs Hx]; subst.
  constructor; [now apply IH|].
  rewrite Forall_forall in *. intros y Hy. apply Hx. eapply in_firstn; eassumption.
Qed.

Lemma map_replaceDocument {B} (f : Document -> B) (ds : list Document) (id : oid)
    (d d' : Document) :
  find (fun x => N.eqb (d_id x) id) ds = Some d -> d_id d' = d_id d -> f d' = f d ->
  map f (replaceDocument d' ds) = map f ds.
Proof.
  intros Hf Hid Hfd. pose proof (find_id _ _ _ Hf) as Hd.
  destruct (find_split _ _ _ Hf) as (before & after & -> & Hb).
  rewrite (replaceDocument_split id) by congruence.
  rewrite !map_app. simpl. now rewrite Hfd.
Qed.

Lemma find_appended {A} (f : A -> bool) (l : list A) (x : A) :
  (forall y, In y l -> f y = false) -> f x = true -> find f (l ++ [x]) = Some x.
Proof.
  intros Hl Hx. induction l as [|y l IH]; simpl; [now rewrite Hx|].
  rewrite (Hl y (or_introl eq_refl)). apply IH. intros z Hz. apply Hl. now right.
Qed.

Lemma filter_appended {A} (f : A -> bool) (l : list A) (x : A) :
  (forall y, In y l -> f y = false) -> f x = true -> filter f (l ++ [x]) = [x].
Proof.
  intros Hl Hx. induction l as [|y l IH]; simpl; [now rewrite Hx|].
  rewrite (Hl y (or_introl eq_refl)). apply IH. intros z Hz. apply Hl. now right.
Qed.

Section MoreHandlerProperties.

Variable JSON_parse : jsstring -> option json.
Variable JSON_stringify : json -> jsstring.
Variable dmp_loaded : bool.
Variable lcs_phase : nat -> list json -> list json -> option (list (akey * delta)).
Variable fault : nat -> bool.
Variable clock : nat -> Z.
Variable objectId : nat -> oid.

(** [updateCurrentVersion] and [updateVersionContent] do the same to
    the store for the same version id, content and user, whatever the
    database does; they send the same response, except that where
    [updateCurrentVersion] answers 200 with the updated version,
    [updateVersionContent] answers 500. *)
Theorem updateCurrentVersion_vs_updateVersionContent
    (versionId other1 other2 : idParam) (name1 name2 content flag1 flag2 : option json)
    (u : option User) (w : World) :
  let '(r1, w1) :=
    updateCurrentVersion fault clock (mkRequest versionId other1 name1 content flag1 u) w in
  let '(r2, w2) :=
    updateVersionContent fault clock (mkRequest other2 versionId name2 content flag2 u) w in
  w1 = w2 /\
  (status r1 = 200 -> r2 = internal_error) /\
  (status r1 <> 200 -> r2 = r1).
Proof.
  unfold updateCurrentVersion, updateVersionContent. unfold_handler. cbn [body_content params_id params_versionId user].
  branches; repeat split; intros; simpl in *; try reflexivity; try discriminate;
    try congruence.
Qed.

Ltac same := split; [left; reflexivity | left; reflexivity].

Ltac tidy :=
  repeat match goal with
         | H : negb _ = false |- _ => apply negb_false_iff in H
         | H : _ && _ = true |- _ => apply andb_prop in H as [? ?]
         | H : required_string _ = true |- _ => apply required_string_nonempty in H
         end.

Ltac version_edit :=
  match goal with
  | Hv : find _ _ = Some ?v, Hd : find _ _ = Some ?d
    |- versions_edited _ _ _ (replaceVersion ?v' _) =>
      let before := fresh "before" in
      let after := fresh "after" in
      let E1 := fresh "E" in
      let E2 := fresh "E" in
      destruct (replaceVersion_at _ _ v v' Hv eq_refl) as (before & after & E1 & E2);
      right; right; exists before, v, after, v', d; rewrite E2;
      apply find_some in Hd as [? Hd]; apply N.eqb_eq in Hd;
      repeat split; auto
  end.

Lemma updateVersionContent_edits (req : Request) (w : World) :
  edits (user req) w (snd (updateVersionContent fault clock req w)).
Proof.
  destruct w as [ds vs n]. unfold updateVersionContent. unfold_handler.
  branches; simpl; try same.
  all: tidy; split; [left; reflexivity|]; simpl; version_edit.
Qed.

Lemma updateCurrentVersion_edits (req : Request) (w : World) :
  edits (user req) w (snd (updateCurrentVersion fault clock req w)).
Proof.
  destruct w as [ds vs n]. unfold updateCurrentVersion. unfold_handler.
  branches; simpl; try same.
  all: tidy; split; [left; reflexivity|]; simpl; version_edit.
Qed.
Ltac document_edit :=
  match goal with
  | Hd : find _ _ = Some ?d |- documents_edited _ _ (replaceDocument ?d' _) =>
      let before := fresh "before" in
      let after := fresh "after" in
      let E1 := fresh "E" in
      let E2 := fresh "E" in
      destruct (replaceDocument_at _ _ d d' Hd eq_refl) as (before & after & E1 & E2);
      right; exists before, d, after, d'; rewrite E2;
      repeat split; auto
  end.

Lemma updateDocumentName_edits (req : Request) (w : World) :
  edits (user req) w (snd (updateDocumentName fault clock req w)).
Proof.
  destruct w as [ds vs n]. unfold updateDocumentName. unfold_handler.
  branches; simpl; try same.
  all: tidy; split; [|left; reflexivity]; simpl; document_edit.
Qed.

Ltac version_added :=
  match goal with
  | Hd : find _ ?ds = Some ?d |- versions_edited _ ?ds _ (_ ++ [?v]) =>
      right; left; exists v, d;
      apply find_some in Hd as [? Hd]; apply N.eqb_eq in Hd;
      repeat split; auto
  | Hd : find _ ?ds = Some ?d |- versions_edited _ (replaceDocument ?d' ?ds) _ (_ ++ [?v]) =>
      right; left; exists v, d';
      pose proof (replaceDocument_in _ _ d d' Hd eq_refl);
      repeat split; auto
  end.

Lemma createVersion_edits (req : Request) (w : World) :
  edits (user req) w
    (snd (createVersion JSON_parse JSON_stringify dmp_loaded lcs_phase fault clock objectId
            req w)).
Proof.
  destruct w as [ds vs n]. unfold createVersion, computeDiff. unfold_handler.
  branches; simpl; try same.
  all: tidy; split; simpl; try (left; reflexivity); try document_edit; try version_added.
Qed.

Lemma mergeVersion_edits (req : Request) (w : World) :
  edits (user req) w (snd (mergeVersion fault clock objectId req w)).
Proof.
  destruct w as [ds vs n]. unfold mergeVersion. unfold_handler.
  branches; simpl; try same.
  all: tidy; split; simpl; try (left; reflexivity); try document_edit; try version_added.
Qed.

Lemma createDocument_creates (req : Request) (w : World) :
  creates (user req) w (snd (createDocument fault clock objectId req w)).
Proof.
  destruct w as [ds vs n]. unfold createDocument. unfold_handler.
  branches; simpl; try (left; split; reflexivity).
  all: tidy; try congruence; right; eexists; simpl.
  all: split; [reflexivity|]; simpl; split; [apply N.eqb_refl|];
    split; [assumption|]; split; [assumption|].
  all: first [ left; reflexivity
             | right; eexists; repeat split; solve [reflexivity | assumption] ].
Qed.

(** The four handlers that read leave the documents and the versions as
    they are, whatever the request and whatever the database does. *)
Theorem reads_never_write (req : Request) (lreq : ListRequest) (w : World) :
  (documents (snd (getDocumentById fault req w)) = documents w /\
   versions (snd (getDocumentById fault req w)) = versions w) /\
  (documents (snd (getVersionById fault req w)) = documents w /\
   versions (snd (getVersionById fault req w)) = versions w) /\
  (documents (snd (getVersions fault req w)) = documents w /\
   versions (snd (getVersions fault req w)) = versions w) /\
  (documents (snd (getDocuments fault lreq w)) = documents w /\
   versions (snd (getDocuments fault lreq w)) = versions w).
Proof.
  destruct w as [ds vs n].
  unfold getDocumentById, getVersionById, getVersions, getDocuments,
    Version_findSorted, Document_countDocuments, Document_findPage, try_catch_json.
  unfold_handler.
  repeat split; simpl; repeat (branch; simpl); reflexivity.
Qed.

(** A document or a version is sent with status 200 only when it is the
    stored record that was asked for and the user owns the document. *)
Theorem only_the_owner_reads (req : Request) (w : World) :
  (let '(r, _) := getDocumentById fault req w in
   status r = 200 ->
   exists d, payload r = DocumentBody d /\ In d (documents w) /\
             params_id req = ObjectIdOf (d_id d) /\ owns (user req) d = true) /\
  (let '(r, _) := getVersionById fault req w in
   status r = 200 ->
   exists v d, payload r = VersionBody v /\ In v (versions w) /\ In d (documents w) /\
               params_versionId req = ObjectIdOf (v_id v) /\
               params_id req = ObjectIdOf (v_documentId v) /\
               d_id d = v_documentId v /\ owns (user req) d = true).
Proof.
  destruct w as [ds vs n]. unfold getDocumentById, getVersionById. unfold_handler.
  split; branches; simpl; intros Hs; try discriminate.
  - match goal with H : find _ _ = Some ?d |- _ =>
      apply find_some in H as [Hin Hid]; apply N.eqb_eq in Hid; exists d end.
    repeat split; auto; try congruence.
    unfold owns.
    repeat match goal with H : _ = Some _ |- _ => rewrite H end.
    match goal with H : negb _ = false |- _ => now apply negb_false_iff in H end.
  - match goal with
    | Hv : find _ vs = Some ?v0, Hd : find _ ds = Some ?d0 |- _ =>
        apply find_some in Hv as [Hvin Hv]; apply find_some in Hd as [Hdin Hd];
        apply andb_prop in Hv as [Hv1 Hv2]; apply N.eqb_eq in Hv1, Hv2, Hd;
        exists v0, d0
    end.
    repeat split; auto; try congruence.
    match goal with H : negb _ = false |- _ => now apply negb_false_iff in H end.
Qed.

(** The list [getVersions] sends: the versions of the document asked
    for, which the user owns, from the newest to the oldest. *)
Theorem getVersions_lists_history (req : Request) (w : World) :
  let '(a, _) := getVersions fault req w in
  forall listed, a = Json listed ->
  exists id d,
    params_id req = ObjectIdOf id /\
    In d (documents w) /\ d_id d = id /\ owns (user req) d = true /\
    Permutation listed (filter (fun v => N.eqb (v_documentId v) id) (versions w)) /\
    newest_first v_createdAt listed.
Proof.
  destruct w as [ds vs n]. unfold getVersions, Version_findSorted, try_catch_json.
  unfold_handler.
  simpl; repeat (branch; simpl); intros listed [= <-].
  match goal with
  | Hd : find _ ds = Some ?d0, Hi : params_id req = ObjectIdOf ?i |- _ =>
      apply find_some in Hd as [Hdin Hd]; apply N.eqb_eq in Hd; exists i, d0
  end.
  repeat split; auto.
  - match goal with H : negb _ = false |- _ => now apply negb_false_iff in H end.
  - symmetry. apply sortDesc_perm.
  - apply sortDesc_sorted.
Qed.

Lemma page_nonempty {A} (l : list A) (skip limit : nat) :
  skip < List.length l -> 0 < limit -> firstn limit (skipn skip l) <> [].
Proof.
  intros Hs Hl E. apply (f_equal (@List.length A)) in E.
  rewrite length_firstn, length_skipn in E. simpl in E. lia.
Qed.

Lemma page_starts_inside (page limit total : Z) :
  (0 < page)%Z -> (0 < limit)%Z -> (0 < total)%Z ->
  (page <= ceilDiv total limit)%Z -> ((page - 1) * limit < total)%Z.
Proof.
  unfold ceilDiv. intros Hp Hl Ht Hle.
  pose proof (Z.mul_div_le (total + limit - 1) limit Hl). nia.
Qed.

(** The page [getDocuments] sends: documents of the user, from the
    newest to the oldest, at most 100 of them, with the count of all the
    documents of the user; the page is empty only when the user has no
    document. *)
Theorem getDocuments_page (lreq : ListRequest) (w : World) :
  let '(a, _) := getDocuments fault lreq w in
  forall p, a = Json p ->
  exists u,
    list_user lreq = Some u /\
    totalDocuments p = Z.of_nat (List.length (filter (ownedBy (u_id u)) (documents w))) /\
    (forall d, In d (data p) -> In d (documents w) /\ d_userId d = Some (u_id u)) /\
    newest_first d_createdAt (data p) /\
    List.length (data p) <= 100 /\
    (1 <= currentPage p)%Z /\
    (totalDocuments p = 0%Z -> data p = [] /\ totalPages p = 0%Z) /\
    ((0 < totalDocuments p)%Z -> data p <> [] /\ (currentPage p <= totalPages p)%Z).
Proof.
  destruct w as [ds vs n].
  unfold getDocuments, Document_countDocuments, Document_findPage, try_catch_json.
  unfold_handler. cbv zeta.
  set (page := orDefault (parseInt (query_page lreq)) 1).
  set (limit := orDefault (parseInt (query_limit lreq)) 10).
  destruct (list_user lreq) as [u|]; [|intros p; discriminate].
  destruct (page <=? 0)%Z eqn:Ep; [intros p; discriminate|].
  destruct (limit <=? 0)%Z eqn:El; [intros p; discriminate|].
  destruct (100 <? limit)%Z eqn:Eh; [intros p; discriminate|].
  apply Z.leb_gt in Ep, El. apply Z.ltb_ge in Eh.
  simpl. destruct (fault n); [intros p; discriminate|]. simpl.
  remember (filter (ownedBy (u_id u)) ds) as mine eqn:Emine.
  destruct (Z.of_nat (List.length mine) =? 0)%Z eqn:E0.
  - intros p [= <-]. exists u. apply Z.eqb_eq in E0. simpl.
    repeat split; auto; try lia; try (intros d []); try constructor.
    subst mine. lia.
  - apply Z.eqb_neq in E0.
    destruct ((ceilDiv (Z.of_nat (List.length mine)) limit <? page)%Z
              && (0 <? Z.of_nat (List.length mine))%Z) eqn:Ex; [intros p; discriminate|].
    destruct (fault (S n)); [intros p; discriminate|].
    intros p [= <-]. exists u. simpl.
    assert (Hle : (page <= ceilDiv (Z.of_nat (List.length mine)) limit)%Z).
    { apply andb_false_iff in Ex as [Ex|Ex]; [now apply Z.ltb_ge in Ex|].
      apply Z.ltb_ge in Ex. lia. }
    assert (Hin : ((page - 1) * limit < Z.of_nat (List.length mine))%Z)
      by (apply page_starts_inside; lia).
    subst mine.
    pose proof (Permutation_length
                  (sortDesc_perm d_createdAt (filter (ownedBy (u_id u)) ds))) as Hlen.
    repeat split; auto; try lia.
    + apply in_firstn, in_skipn in H.
      apply (Permutation_in _ (Permutation_sym (sortDesc_perm d_createdAt _))) in H.
      now apply filter_In in H.
    + apply in_firstn, in_skipn in H.
      apply (Permutation_in _ (Permutation_sym (sortDesc_perm d_createdAt _))) in H.
      apply filter_In in H as [_ H]. unfold ownedBy in H.
      destruct (d_userId d); [|discriminate]. apply N.eqb_eq in H. now subst.
    + apply newest_first_firstn, newest_first_skipn, sortDesc_sorted.
    + rewrite length_firstn. lia.
    + apply page_nonempty; lia.
Qed.

Ltac kept :=
  match goal with
  | |- ?l = ?l => reflexivity
  | |- exists vs, ?l = ?l ++ vs => exists []; symmetry; apply app_nil_r
  | |- exists vs, ?l ++ ?x = ?l ++ vs => exists x; reflexivity
  | H : find _ ?ds = Some ?d |- map _ (replaceDocument ?d' ?ds) = map _ ?ds =>
      apply (map_replaceDocument _ _ _ d d' H); reflexivity
  end.

(** The name of a document is written by [updateDocumentName] only,
    its content by [createVersion] and [mergeVersion] only, and the
    content of a version that exists by [updateVersionContent] and
    [updateCurrentVersion] only. *)
Theorem one_writer_per_field (req : Request) (w : World) :
  let after_createDocument := snd (createDocument fault clock objectId req w) in
  let after_createVersion :=
    snd (createVersion JSON_parse JSON_stringify dmp_loaded lcs_phase fault clock objectId
           req w) in
  let after_mergeVersion := snd (mergeVersion fault clock objectId req w) in
  let after_updateDocumentName := snd (updateDocumentName fault clock req w) in
  let after_updateVersionContent := snd (updateVersionContent fault clock req w) in
  let after_updateCurrentVersion := snd (updateCurrentVersion fault clock req w) in
  (map d_name (documents after_createVersion) = map d_name (documents w) /\
   map d_name (documents after_mergeVersion) = map d_name (documents w) /\
   documents after_updateVersionContent = documents w /\
   documents after_updateCurrentVersion = documents w) /\
  (map d_content (documents after_updateDocumentName) = map d_content (documents w) /\
   exists ds, documents after_createDocument = documents w ++ ds) /\
  ((exists vs, versions after_createDocument = versions w ++ vs) /\
   (exists vs, versions after_createVersion = versions w ++ vs) /\
   (exists vs, versions after_mergeVersion = versions w ++ vs) /\
   versions after_updateDocumentName = versions w).
Proof.
  destruct w as [ds vs n]. cbv zeta.
  unfold createDocument, createVersion, computeDiff, mergeVersion, updateDocumentName,
    updateVersionContent, updateCurrentVersion.
  unfold_handler.
  repeat split; simpl; repeat (branch; simpl); kept.
Qed.

(** A version can be merged, or read, only through the document it
    belongs to. *)
Theorem version_of_another_document (req : Request) (w : World) :
  (forall v, In v (versions w) -> params_versionId req = ObjectIdOf (v_id v) ->
             params_id req <> ObjectIdOf (v_documentId v)) ->
  (let '(r, w') := mergeVersion fault clock objectId req w in
   status r <> 200 /\ documents w' = documents w /\ versions w' = versions w) /\
  (let '(r, _) := getVersionById fault req w in status r <> 200).
Proof.
  intros H. destruct w as [ds vs n]. unfold mergeVersion, getVersionById. unfold_handler.
  split; simpl; repeat (branch; simpl); repeat split; try discriminate; try reflexivity.
  all: exfalso;
    match goal with
    | Hv : find (fun _ => _ && _) _ = Some ?v |- _ =>
        apply find_some in Hv as [Hin Hv]; apply andb_prop in Hv as [Hv1 Hv2];
        apply N.eqb_eq in Hv1, Hv2; apply (H v Hin); simpl; congruence
    end.
Qed.

Lemma getDocumentById_found (req : Request) (w : World) (id : oid) (d : Document) :
  params_id req = ObjectIdOf id ->
  fault (calls w) = false ->
  find (fun x => N.eqb (d_id x) id) (documents w) = Some d ->
  owns (user req) d = true ->
  fst (getDocumentById fault req w) = mkResponse 200 (DocumentBody d).
Proof.
  intros Hp Hf Hd Ho. destruct w as [ds vs n]. unfold getDocumentById. unfold_handler.
  simpl in *. rewrite Hp, Hf, Hd. unfold owns in Ho.
  destruct (user req); [|discriminate]. destruct (d_userId d); [|discriminate].
  now rewrite Ho.
Qed.

Lemma createVersion_stored (req : Request) (w w' : World) (r : Response) :
  createVersion JSON_parse JSON_stringify dmp_loaded lcs_phase fault clock objectId req w
    = (r, w') ->
  status r = 201 ->
  exists id d,
    params_id req = ObjectIdOf id /\
    find (fun x => N.eqb (d_id x) id) (documents w') = Some d /\
    owns (user req) d = true /\
    body_content req = Some (JStr (d_content d)).
Proof.
  destruct w as [ds vs n]. unfold createVersion, computeDiff. unfold_handler.
  intros H Hs. revert H.
  simpl; repeat (branch; simpl); intros [= <- <-]; try discriminate; simpl in *.
  all: match goal with
       | Hd : find _ _ = Some ?d, Ho : negb (owns _ ?d) = false,
         Hi : params_id _ = ObjectIdOf ?i |- _ =>
           pose proof (find_id _ _ _ Hd) as Hid; apply negb_false_iff in Ho; exists i
       end.
  all: match goal with
       | H : document_eqb ?d _ = true |- _ =>
           unfold document_eqb in H; simpl in H; apply andb_prop in H as [_ H];
           apply jsstring_eqb_eq in H; exists d; repeat split; auto; congruence
       | Hd : find _ _ = Some ?d |- context [replaceDocument ?d' _] =>
           exists d'; repeat split; auto;
           eapply find_replaceDocument; eassumption
       end.
Qed.

(** After a successful [createVersion], reading the document returns
    the new content. *)
Theorem createVersion_then_getDocumentById (req : Request) (w w' : World) (r : Response) :
  createVersion JSON_parse JSON_stringify dmp_loaded lcs_phase fault clock objectId req w
    = (r, w') ->
  status r = 201 ->
  fault (calls w') = false ->
  exists d,
    fst (getDocumentById fault req w') = mkResponse 200 (DocumentBody d) /\
    body_content req = Some (JStr (d_content d)).
Proof.
  intros H Hs Hf.
  destruct (createVersion_stored _ _ _ _ H Hs) as (id & d & Hp & Hd & Ho & Hc).
  exists d. split; [|assumption]. now apply (getDocumentById_found req w' id).
Qed.

(** After a successful [createDocument] that drew an id no document
    has and no version refers to, the new document can be read back by
    its user, and its history is its initial version alone. *)
Theorem createDocument_then_read (req : Request) (w w' : World) (r : Response) :
  createDocument fault clock objectId req w = (r, w') ->
  status r = 201 ->
  (forall x, In x (documents w) -> d_id x <> objectId (calls w)) ->
  (forall v, In v (versions w) -> v_documentId v <> objectId (calls w)) ->
  fault (calls w') = false ->
  fault (S (calls w')) = false ->
  exists d v,
    payload r = DocumentBody d /\
    body_content req = Some (JStr (d_content d)) /\
    let read := mkRequest (ObjectIdOf (d_id d)) NotAnObjectId None None None (user req) in
    fst (getDocumentById fault read w') = mkResponse 200 (DocumentBody d) /\
    fst (getVersions fault read w') = Json [v] /\
    v_content v = d_content d /\ v_diff v = Some EmptyArray /\ v_isAutoSave v = false.
Proof.
  destruct w as [ds vs n]. unfold createDocument. unfold_handler.
  intros H Hs Hd Hv Hf1 Hf2. revert H.
  simpl; repeat (branch; simpl); intros [= <- <-]; try discriminate; simpl in *.
  eexists _, _. split; [reflexivity|]. split; [reflexivity|]. simpl.
  assert (Hfind :
             find (fun x => N.eqb (d_id x) (objectId n))
               (ds ++ [mkDocument (objectId n) s s0 (Some (u_id u)) (clock n) (clock n)])
             = Some (mkDocument (objectId n) s s0 (Some (u_id u)) (clock n) (clock n))).
  { apply find_appended; [|apply N.eqb_refl].
    intros y Hy. apply N.eqb_neq. now apply Hd. }
  unfold getDocumentById, getVersions, Version_findSorted, try_catch_json. unfold_handler.
  simpl. rewrite Hf1, Hfind. simpl.
  rewrite N.eqb_refl. simpl. rewrite Hf2. simpl.
  rewrite filter_appended; [repeat split | | apply N.eqb_refl].
  intros y Hy. apply N.eqb_neq. now apply Hv.
Qed.

(** No request deletes or reorders a document or a version, nor changes
    what is frozen of them: the id, owner and creation time of a
    document; the id, document, flag, user, diff, origin and creation
    time of a version. *)
Theorem requests_extend_store (req : Request) (w : World) :
  extends w (snd (createDocument fault clock objectId req w)) /\
  extends w (snd (createVersion JSON_parse JSON_stringify dmp_loaded lcs_phase fault clock
                    objectId req w)) /\
  extends w (snd (mergeVersion fault clock objectId req w)) /\
  extends w (snd (updateDocumentName fault clock req w)) /\
  extends w (snd (updateVersionContent fault clock req w)) /\
  extends w (snd (updateCurrentVersion fault clock req w)).
Proof.
  split; [eapply creates_extends, createDocument_creates|].
  split; [|split; [|split; [|split]]]; eapply edits_extends;
    auto using createVersion_edits, mergeVersion_edits, updateDocumentName_edits,
      updateVersionContent_edits, updateCurrentVersion_edits.
Qed.

(** In a store where every document has a name and a content and every
    version a content, every request leaves such a store. *)
Theorem requests_keep_store_valid (req : Request) (w : World) :
  valid_store w ->
  valid_store (snd (createDocument fault clock objectId req w)) /\
  valid_store (snd (createVersion JSON_parse JSON_stringify dmp_loaded lcs_phase fault clock
                      objectId req w)) /\
  valid_store (snd (mergeVersion fault clock objectId req w)) /\
  valid_store (snd (updateDocumentName fault clock req w)) /\
  valid_store (snd (updateVersionContent fault clock req w)) /\
  valid_store (snd (updateCurrentVersion fault clock req w)).
Proof.
  intros V.
  split; [eapply creates_valid; [apply createDocument_creates | exact V]|].
  split; [|split; [|split; [|split]]]; (eapply edits_valid; [|exact V]);
    auto using createVersion_edits, mergeVersion_edits, updateDocumentName_edits,
      updateVersionContent_edits, updateCurrentVersion_edits.
Qed.

(** In a store where every version belongs to a document of the store,
    every request leaves such a store. *)
Theorem requests_keep_parents (req : Request) (w : World) :
  versions_have_parents w ->
  versions_have_parents (snd (createDocument fault clock objectId req w)) /\
  versions_have_parents
    (snd (createVersion JSON_parse JSON_stringify dmp_loaded lcs_phase fault clock objectId
            req w)) /\
  versions_have_parents (snd (mergeVersion fault clock objectId req w)) /\
  versions_have_parents (snd (updateDocumentName fault clock req w)) /\
  versions_have_parents (snd (updateVersionContent fault clock req w)) /\
  versions_have_parents (snd (updateCurrentVersion fault clock req w)).
Proof.
  intros V.
  split; [eapply creates_parents; [apply createDocument_creates | exact V]|].
  split; [|split; [|split; [|split]]]; (eapply edits_parents; [|exact V]);
    auto using createVersion_edits, mergeVersion_edits, updateDocumentName_edits,
      updateVersionContent_edits, updateCurrentVersion_edits.
Qed.

(** No request changes a document that its user does not own: the
    documents of the others are, after the request, what they were. *)
Theorem requests_leave_foreign_documents (req : Request) (w : World) :
  let foreign := filter (fun d => negb (owns (user req) d)) in
  foreign (documents (snd (createDocument fault clock objectId req w)))
    = foreign (documents w) /\
  foreign (documents (snd (createVersion JSON_parse JSON_stringify dmp_loaded lcs_phase
                             fault clock objectId req w)))
    = foreign (documents w) /\
  foreign (documents (snd (mergeVersion fault clock objectId req w)))
    = foreign (documents w) /\
  foreign (documents (snd (updateDocumentName fault clock req w))) = foreign (documents w) /\
  foreign (documents (snd (updateVersionContent fault clock req w))) = foreign (documents w) /\
  foreign (documents (snd (updateCurrentVersion fault clock req w))) = foreign (documents w).
Proof.
  cbv zeta.
  split; [eapply creates_foreign, createDocument_creates|].
  split; [|split; [|split; [|split]]]; eapply edits_foreign;
    auto using createVersion_edits, mergeVersion_edits, updateDocumentName_edits,
      updateVersionContent_edits, updateCurrentVersion_edits.
Qed.

(** A user who owns no document of the store cannot change it through
    the requests that edit: the documents and the versions are, after
    the request, what they were. *)
Theorem stranger_changes_nothing (req : Request) (w : World) :
  (forall d, In d (documents w) -> owns (user req) d = false) ->
  let same w' := documents w' = documents w /\ versions w' = versions w in
  same (snd (createVersion JSON_parse JSON_stringify dmp_loaded lcs_phase fault clock
               objectId req w)) /\
  same (snd (mergeVersion fault clock objectId req w)) /\
  same (snd (updateDocumentName fault clock req w)) /\
  same (snd (updateVersionContent fault clock req w)) /\
  same (snd (updateCurrentVersion fault clock req w)).
Proof.
  intros Hs. cbv zeta.
  split; [|split; [|split; [|split]]]; (eapply edits_stranger; [exact Hs|]);
    auto using createVersion_edits, mergeVersion_edits, updateDocumentName_edits,
      updateVersionContent_edits, updateCurrentVersion_edits.
Qed.

End MoreHandlerProperties.

(* ================================================================== *)
(** ** The requests on given stores *)

Lemma store_of_valid : valid_store (store_of (js "{'a':1}") (js "{'a':1}")).
Proof.
  split; simpl.
  - intros d [<- | []]. split; discriminate.
  - intros v [<- | []]. discriminate.
Qed.

Lemma store_of_parents : versions_have_parents (store_of (js "{'a':1}") (js "{'a':1}")).
Proof.
  intros v [<- | []]. exists (document_of (js "{'a':1}")). split; [now left | reflexivity].
Qed.

(** The hypothesis of [requests_keep_store_valid] holds of the store
    of [alice] and of her request to save ['{'a':2}']. *)
Lemma requests_keep_store_valid_witness :
  let req := createVersion_request (JStr (js "{'a':2}")) (JBool false) in
  let w := store_of (js "{'a':1}") (js "{'a':1}") in
  valid_store (snd (createDocument no_fault ticks nth_id req w)) /\
  valid_store (snd (createVersion JSON.parse JSON.stringify true no_lcs no_fault ticks
                      nth_id req w)) /\
  valid_store (snd (mergeVersion no_fault ticks nth_id req w)) /\
  valid_store (snd (updateDocumentName no_fault ticks req w)) /\
  valid_store (snd (updateVersionContent no_fault ticks req w)) /\
  valid_store (snd (updateCurrentVersion no_fault ticks req w)).
Proof.
  intros req w.
  exact (requests_keep_store_valid JSON.parse JSON.stringify true no_lcs no_fault ticks
           nth_id req w store_of_valid).
Defined.

(** The hypothesis of [requests_keep_parents] holds of the same store
    and request. *)
Lemma requests_keep_parents_witness :
  let req := createVersion_request (JStr (js "{'a':2}")) (JBool false) in
  let w := store_of (js "{'a':1}") (js "{'a':1}") in
  versions_have_parents (snd (createDocument no_fault ticks nth_id req w)) /\
  versions_have_parents
    (snd (createVersion JSON.parse JSON.stringify true no_lcs no_fault ticks nth_id req w)) /\
  versions_have_parents (snd (mergeVersion no_fault ticks nth_id req w)) /\
  versions_have_parents (snd (updateDocumentName no_fault ticks req w)) /\
  versions_have_parents (snd (updateVersionContent no_fault ticks req w)) /\
  versions_have_parents (snd (updateCurrentVersion no_fault ticks req w)).
Proof.
  intros req w.
  exact (requests_keep_parents JSON.parse JSON.stringify true no_lcs no_fault ticks
           nth_id req w store_of_parents).
Defined.

(** The hypothesis of [stranger_changes_nothing] holds of [bob] and the
    store of [alice]. *)
Lemma stranger_changes_nothing_witness :
  let req := mkRequest (ObjectIdOf 10%N) (ObjectIdOf 20%N) (Some (JStr (js "mine")))
               (Some (JStr (js "{}"))) (Some (JBool false)) (Some bob) in
  let w := store_of (js "{'a':1}") (js "{'a':1}") in
  let same w' := documents w' = documents w /\ versions w' = versions w in
  same (snd (createVersion JSON.parse JSON.stringify true no_lcs no_fault ticks nth_id
               req w)) /\
  same (snd (mergeVersion no_fault ticks nth_id req w)) /\
  same (snd (updateDocumentName no_fault ticks req w)) /\
  same (snd (updateVersionContent no_fault ticks req w)) /\
  same (snd (updateCurrentVersion no_fault ticks req w)).
Proof.
  intros req w.
  apply (stranger_changes_nothing JSON.parse JSON.stringify true no_lcs no_fault ticks
           nth_id req w).
  intros d [<- | []]. reflexivity.
Defined.

(** The hypothesis of [version_of_another_document] holds when the
    version of the first document of [alice] is asked for through her
    second document. *)
Lemma version_of_another_document_witness :
  let req := mkRequest (ObjectIdOf 11%N) (ObjectIdOf 20%N) None None None (Some alice) in
  (let '(r, w') := mergeVersion no_fault ticks nth_id req two_documents_store in
   status r <> 200 /\ documents w' = documents two_documents_store /\
   versions w' = versions two_documents_store) /\
  (let '(r, _) := getVersionById no_fault req two_documents_store in status r <> 200).
Proof.
  intros req.
  apply (version_of_another_document no_fault ticks nth_id req two_documents_store).
  intros v [<- | []] _. discriminate.
Defined.

(** The hypotheses of [createVersion_then_getDocumentById] hold when
    [alice] saves ['{'a':2}']. *)
Lemma createVersion_then_getDocumentById_witness :
  let req := createVersion_request (JStr (js "{'a':2}")) (JBool false) in
  let run := createVersion JSON.parse JSON.stringify true no_lcs no_fault ticks nth_id req
               (store_of (js "{'a':1}") (js "{'a':1}")) in
  exists d,
    fst (getDocumentById no_fault req (snd run)) = mkResponse 200 (DocumentBody d) /\
    body_content req = Some (JStr (d_content d)).
Proof.
  intros req run.
  apply (createVersion_then_getDocumentById JSON.parse JSON.stringify true no_lcs
           no_fault ticks nth_id req (store_of (js "{'a':1}") (js "{'a':1}"))
           (snd run) (fst run)).
  - apply surjective_pairing.
  - vm_compute. reflexivity.
  - reflexivity.
Defined.

(** The hypotheses of [createDocument_then_read] hold when [alice]
    creates a document in her store. *)
Lemma createDocument_then_read_witness :
  let req := createDocument_request (JStr (js "notes")) (JStr (js "{}")) in
  let run := createDocument no_fault ticks nth_id req
               (store_of (js "{'a':1}") (js "{'a':1}")) in
  exists d v,
    payload (fst run) = DocumentBody d /\
    body_content req = Some (JStr (d_content d)) /\
    let read := mkRequest (ObjectIdOf (d_id d)) NotAnObjectId None None None (user req) in
    fst (getDocumentById no_fault read (snd run)) = mkResponse 200 (DocumentBody d) /\
    fst (getVersions no_fault read (snd run)) = Json [v] /\
    v_content v = d_content d /\ v_diff v = Some EmptyArray /\ v_isAutoSave v = false.
Proof.
  intros req run.
  apply (createDocument_then_read no_fault ticks nth_id req
           (store_of (js "{'a':1}") (js "{'a':1}")) (snd run) (fst run)).
  - apply surjective_pairing.
  - vm_compute. reflexivity.
  - intros x [<- | []]. vm_compute. discriminate.
  - intros v [<- | []]. vm_compute. discriminate.
  - reflexivity.
  - reflexivity.
Defined.

(* ================================================================== *)
(** * Accounts and routes *)

Ltac unfold_auth :=
  cbv beta iota zeta delta
    [catch_with auth_bind auth_ret answer_with raise attempt site_call
     User_findOne User_findById User_create] in *.

(** ** The header of a request *)

Lemma String_split_word (token rest : jsstring) :
  no_space token = true ->
  String_split 32%N (token ++ 32%N :: rest) = token :: String_split 32%N rest.
Proof.
  intros H. induction token as [|c token IH]; [reflexivity|].
  simpl in H. apply andb_prop in H as [Hc H]. apply negb_true_iff in Hc.
  simpl. rewrite Hc, (IH H). reflexivity.
Qed.

Lemma String_split_last (token : jsstring) :
  no_space token = true -> String_split 32%N token = [token].
Proof.
  intros H. induction token as [|c token IH]; [reflexivity|].
  simpl in H. apply andb_prop in H as [Hc H]. apply negb_true_iff in Hc.
  simpl. rewrite Hc, (IH H). reflexivity.
Qed.

Lemma bearer_token (text : jsstring) :
  nth_error (String_split 32%N (js "Bearer " ++ text)) 1
  = nth_error (String_split 32%N text) 0.
Proof. reflexivity. Qed.

Lemma bearer_scheme (text : jsstring) :
  negb (truthy (Some (JStr (js "Bearer " ++ text))))
  || negb (String_startsWith (js "Bearer ") (js "Bearer " ++ text)) = false.
Proof. reflexivity. Qed.

Lemma NoDup_appended {A} (l : list A) (x : A) :
  NoDup l -> ~ In x l -> NoDup (l ++ [x]).
Proof.
  intros Hl Hx. induction Hl as [|y l Hy Hl IH]; simpl.
  - constructor; [intros []|constructor].
  - constructor.
    + rewrite in_app_iff. intros [H|[H|[]]]; [contradiction|].
      apply Hx. now left.
    + apply IH. intros H. apply Hx. now right.
Qed.

Section AccountProperties.

Variable fault : nat -> bool.
Variable clock : nat -> Z.
Variable objectId : nat -> oid.
Variable email_query : json -> option (jsstring -> bool).
Variable cast_other : json -> option jsstring.
Variable bcrypt_hash : nat -> json -> option jsstring.
Variable bcrypt_compare : json -> jsstring -> option bool.
Variable jwt_sign : nat -> oid -> option jsstring.
Variable jwt_verify : nat -> jsstring -> option claim.

(** The middleware reads the token between the first and the second
    space of the header: what follows the token is ignored. *)
Theorem authenticateJWT_ignores_rest (token rest : jsstring) (s : Site) :
  no_space token = true ->
  authenticateJWT fault jwt_verify (Some (js "Bearer " ++ token ++ 32%N :: rest)) s
  = authenticateJWT fault jwt_verify (Some (js "Bearer " ++ token)) s.
Proof.
  intros H. unfold authenticateJWT.
  rewrite !bearer_token, !bearer_scheme.
  rewrite (String_split_word token rest H), (String_split_last token H).
  reflexivity.
Qed.

Lemma authenticateJWT_passage (authorization : option jsstring) (s : Site) :
  let '(p, s') := authenticateJWT fault jwt_verify authorization s in
  accounts s' = accounts s /\
  documents (store s') = documents (store s) /\
  versions (store s') = versions (store s) /\
  match p with
  | Rejected r => auth_status r = 401 /\ exists error, auth_body r = Failure error
  | Next user =>
      In user (accounts s) /\
      exists header token,
        authorization = Some header /\
        String_startsWith (js "Bearer ") header = true /\
        nth_error (String_split 32%N header) 1 = Some token /\
        jwt_verify (calls (store s)) token = Some (Some (ObjectIdOf (a_id user)))
  end.
Proof.
  destruct s as [us [ds vs n]]. unfold authenticateJWT.
  destruct authorization as [header|]; [|simpl; eauto 6].
  destruct (negb (truthy (Some (JStr header)))
            || negb (String_startsWith (js "Bearer ") header)) eqn:Escheme;
    [simpl; eauto 6|].
  apply orb_false_iff in Escheme as [_ Escheme]. apply negb_false_iff in Escheme.
  destruct (nth_error (String_split 32%N header) 1) as [token|] eqn:Etoken;
    unfold_auth; cbn [store calls accounts documents versions];
    [|simpl; eauto 6].
  destruct (jwt_verify n token) as [[[|o]|]|] eqn:Everify;
    cbn [store calls accounts documents versions]; try (simpl; eauto 6).
  - destruct (fault n); cbn [store calls accounts documents versions];
      [simpl; eauto 6|].
    destruct (find (fun a => N.eqb (a_id a) o) us) as [user|] eqn:Efind;
      [|simpl; eauto 6].
    apply find_some in Efind as [Hin Hid]. apply N.eqb_eq in Hid. subst o.
    simpl. repeat split; eauto 6.
  - destruct (fault n); simpl; eauto 6.
Qed.

Ltac pairs :=
  repeat match goal with H : (_, _) = (_, _) |- _ => injection H as ? ? end; subst.

Ltac auth_branches :=
  cbn [store calls accounts documents versions];
  repeat (branch; cbn [store calls accounts documents versions fst snd]).

(** [register] with the email of an account. *)
Lemma register_registered (req : AuthRequest) (s : Site) (e : jsstring) (a : Account) :
  auth_email req = Some (JStr e) -> In a (accounts s) -> a_email a = e ->
  let '(r, s') :=
    register fault clock objectId email_query cast_other bcrypt_hash jwt_sign req s in
  accounts s' = accounts s /\ auth_status r <> 201 /\
  (fault (calls (store s)) = false -> auth_status r = 409 \/ auth_status r = 400).
Proof.
  intros He Hin Ha. destruct s as [us [ds vs n]]. unfold register. rewrite He.
  unfold_auth. unfold email_filter. simpl in Hin.
  assert (Hfind : find (fun x => jsstring_eqb e (a_email x)) us <> None).
  { intros Hnone. apply (find_none _ _ Hnone) in Hin.
    rewrite Ha, jsstring_eqb_refl in Hin. discriminate. }
  auth_branches; pairs; simpl; repeat split; try discriminate; try congruence; auto.
Qed.

(** A [register] that has stored an account, for an email that is a
    string. *)
Lemma register_stored (req : AuthRequest) (s : Site) (e : jsstring) :
  auth_email req = Some (JStr e) ->
  let '(r, s') :=
    register fault clock objectId email_query cast_other bcrypt_hash jwt_sign req s in
  accounts s' <> accounts s \/ auth_status r = 201 ->
  exists user password n,
    accounts s' = accounts s ++ [user] /\ a_email user = e /\
    (forall a, In a (accounts s) -> jsstring_eqb e (a_email a) = false) /\
    e <> [] /\ truthy (Some password) = true /\
    auth_password req = Some password /\
    bcrypt_hash n password = Some (a_password user) /\
    (auth_status r = 201 -> exists token, auth_body r = Session token (userToResponse user)).
Proof.
  intros He. destruct s as [us [ds vs n]]. unfold register. rewrite He.
  unfold_auth. unfold email_filter, castString.
  auth_branches; pairs; simpl; intros [H|H]; try congruence; try discriminate.
  all: match goal with
       | Hf : find _ _ = None, Hh : bcrypt_hash ?k ?p = Some ?h
         |- context [mkAccount ?i ?em ?nm ?h ?c1 ?c2] =>
           exists (mkAccount i em nm h c1 c2), p, k;
           split; [reflexivity|]; split; [reflexivity|]; split;
           [ intros a Hin; exact (find_none _ _ Hf a Hin) | ]
       end.
  all: repeat match goal with
         | Ht : _ || _ = false |- _ => apply orb_false_iff in Ht as [? ?]
         | Ht : negb _ = false |- _ => apply negb_false_iff in Ht
         end.
  all: split; [intros ->; discriminate|]; split; [assumption|];
    split; [reflexivity|]; split; [assumption|].
  all: simpl; intros; try discriminate; eauto.
Qed.

(** [login] with the email and the password of an account. *)
Lemma login_found (req : AuthRequest) (s : Site) (e : jsstring) (password : json)
    (user : Account) (token : jsstring) :
  auth_email req = Some (JStr e) -> auth_password req = Some password ->
  e <> [] -> truthy (Some password) = true ->
  fault (calls (store s)) = false ->
  find (fun a => jsstring_eqb e (a_email a)) (accounts s) = Some user ->
  bcrypt_compare password (a_password user) = Some true ->
  jwt_sign (S (calls (store s))) (a_id user) = Some token ->
  fst (login fault email_query bcrypt_compare jwt_sign req s)
  = mkAuthResponse 200 (Session token (userToResponse user)).
Proof.
  intros He Hp Hne Ht Hf Hfind Hc Hs. destruct s as [us [ds vs n]].
  unfold login. rewrite He, Hp. unfold_auth. unfold email_filter. simpl in *.
  rewrite Ht. destruct e as [|c e]; [congruence|]. simpl.
  rewrite Hf. simpl. rewrite Hfind, Hc. simpl. rewrite Hs. reflexivity.
Qed.

(** What [register] does to the store: nothing to the documents and
    the versions; to the accounts nothing, or it appends one account,
    with an email that no account has and the hash of the password.
    It answers 201, with that account, only when it has stored it; when
    it has stored it and [jwt.sign] throws, it answers 500 and the
    account stays. *)
Theorem register_outcomes (req : AuthRequest) (s : Site) :
  let '(r, s') :=
    register fault clock objectId email_query cast_other bcrypt_hash jwt_sign req s in
  documents (store s') = documents (store s) /\
  versions (store s') = versions (store s) /\
  ((accounts s' = accounts s /\ auth_status r <> 201) \/
   exists user password n,
     accounts s' = accounts s ++ [user] /\
     (forall a, In a (accounts s) -> a_email a <> a_email user) /\
     a_email user <> [] /\ a_name user <> [] /\
     auth_password req = Some password /\
     bcrypt_hash n password = Some (a_password user) /\
     ((auth_status r = 201 /\
       exists token, auth_body r = Session token (userToResponse user)) \/
      (auth_status r = 500 /\ jwt_sign (calls (store s')) (a_id user) = None))).
Proof.
  destruct s as [us [ds vs n]]. unfold register. unfold_auth.
  cbn [store calls accounts documents versions].
  repeat (branch; cbn [store calls accounts documents versions fst snd]).
  all: repeat match goal with H : (_, _) = (_, _) |- _ => injection H as ? ? end;
    subst; cbn [store calls accounts documents versions auth_status auth_body];
    split; [reflexivity|]; split; [reflexivity|];
    try (left; split; [reflexivity | discriminate]).
  all: right.
  all: match goal with
       | H : existsb _ _ = false, Hh : bcrypt_hash ?k ?p = Some ?h
         |- context [mkAccount ?i ?e ?nm ?h ?c1 ?c2] =>
           exists (mkAccount i e nm h c1 c2), p, k;
           split; [reflexivity|]; split;
           [ intros a Ha; simpl; intros E;
             apply Bool.not_true_iff_false in H; apply H;
             apply existsb_exists; exists a; split; [exact Ha | now apply jsstring_eqb_eq]
           | ]
       end.
  all: repeat match goal with
         | H : _ && _ = true |- _ => apply andb_prop in H as [? ?]
         | H : required_string _ = true |- _ => apply required_string_nonempty in H
         end.
  all: simpl; repeat split; try assumption; try reflexivity.
  all: first [ left; split; [reflexivity | eexists; reflexivity]
             | right; split; [reflexivity | assumption] ].
Qed.

(** An email is registered once: after a [register] that has stored
    an account, whatever it answered, a [register] with the same email
    stores nothing, and answers 409 when its fields are there and the
    database answers. *)
Theorem register_twice (req again : AuthRequest) (s s' : Site) (r : AuthResponse)
    (e : jsstring) :
  let register := register fault clock objectId email_query cast_other bcrypt_hash jwt_sign in
  register req s = (r, s') ->
  accounts s' <> accounts s ->
  auth_email req = Some (JStr e) -> auth_email again = Some (JStr e) ->
  accounts (snd (register again s')) = accounts s' /\
  auth_status (fst (register again s')) <> 201 /\
  (fault (calls (store s')) = false ->
   truthy (auth_name again) = true -> truthy (auth_password again) = true ->
   auth_status (fst (register again s')) = 409).
Proof.
  intros reg E Hs He He'. subst reg. pose proof (register_stored req s e He) as H.
  rewrite E in H.
  destruct (H (or_introl Hs)) as (user & _ & _ & Hacc & Hu & _ & Hne & _).
  assert (Hin : In user (accounts s')) by (rewrite Hacc; apply in_elt).
  pose proof (register_registered again s' e user He' Hin Hu) as H2.
  destruct (register _ _ _ _ _ _ _ again s') as [r2 s2] eqn:E2.
  destruct H2 as (H21 & H22 & H23). split; [assumption|]. split; [assumption|].
  cbn [fst]. intros Hf Hn Hp. destruct (H23 Hf) as [H409|H400]; [assumption|].
  exfalso. revert E2 H400. unfold register. rewrite He'.
  destruct (auth_name again) as [nm|]; [|discriminate].
  destruct (auth_password again) as [pw|]; [|discriminate].
  rewrite Hn, Hp. unfold_auth. unfold email_filter.
  destruct e as [|c e]; [congruence|].
  simpl. auth_branches; intros; pairs; simpl in *; congruence.
Qed.

(** An account that has been registered can log in: after a
    [register] that answered 201, a [login] with the same email and
    password answers 200 with the same account, when the database
    answers, [bcrypt.compare] accepts a password for the hashes that
    [bcrypt.hash] makes of it, and [jwt.sign] returns. *)
Theorem register_then_login (req : AuthRequest) (s s' : Site) (r : AuthResponse)
    (e token' : jsstring) :
  register fault clock objectId email_query cast_other bcrypt_hash jwt_sign req s = (r, s') ->
  auth_status r = 201 ->
  auth_email req = Some (JStr e) ->
  (forall n password h,
      bcrypt_hash n password = Some h -> bcrypt_compare password h = Some true) ->
  fault (calls (store s')) = false ->
  (forall o, jwt_sign (S (calls (store s'))) o = Some token') ->
  exists token user,
    auth_body r = Session token user /\
    fst (login fault email_query bcrypt_compare jwt_sign
           (mkAuthRequest None (auth_email req) (auth_password req)) s')
    = mkAuthResponse 200 (Session token' user).
Proof.
  intros E Hs He Hb Hf Hj. pose proof (register_stored req s e He) as H.
  rewrite E in H.
  destruct (H (or_intror Hs))
    as (user & password & n & Hacc & Hu & Hnone & Hne & Ht & Hp & Hh & Hr).
  destruct (Hr Hs) as (token & Hbody). exists token, (userToResponse user).
  split; [assumption|].
  apply (login_found _ s' e password user token'); auto.
  - rewrite Hacc. apply find_appended; [assumption|].
    rewrite Hu. apply jsstring_eqb_refl.
  - eapply Hb; eassumption.
Qed.

(** [login] answers 200 only for an account of the store that the
    email of the request selects and whose hash [bcrypt.compare]
    accepts for the password of the request; it changes no account,
    document or version. *)
Theorem login_requires_matching_account (req : AuthRequest) (s : Site) :
  let '(r, s') := login fault email_query bcrypt_compare jwt_sign req s in
  accounts s' = accounts s /\
  documents (store s') = documents (store s) /\
  versions (store s') = versions (store s) /\
  (auth_status r = 200 ->
   exists user email password matches token,
     In user (accounts s) /\
     auth_email req = Some email /\ auth_password req = Some password /\
     email_filter email_query email = Some matches /\ matches (a_email user) = true /\
     bcrypt_compare password (a_password user) = Some true /\
     auth_body r = Session token (userToResponse user)).
Proof.
  destruct s as [us [ds vs n]]. unfold login. unfold_auth.
  auth_branches; pairs; simpl; repeat split; try discriminate.
  intros _.
  match goal with
  | Hf : find _ _ = Some ?u, He : email_filter _ ?em = Some ?m,
    Hc : bcrypt_compare ?p _ = Some ?b, Hs : jwt_sign _ _ = Some ?t |- _ =>
      apply find_some in Hf as [Hin Hm]; exists u, em, p, m, t;
      destruct b; [|discriminate]
  end.
  repeat split; auto.
Qed.

(** Behind the middleware, [validate] answers 200 only with the
    profile of an account of the store that the token names, and
    [logout] answers 200 only for such a token; both answer 401
    otherwise and change nothing. *)
Theorem validate_behind_authenticateJWT (authorization : option jsstring) (s : Site) :
  let route := auth_router fault clock objectId email_query cast_other bcrypt_hash
                 bcrypt_compare jwt_sign jwt_verify authorization in
  let named user :=
    In user (accounts s) /\
    exists header token,
      authorization = Some header /\
      nth_error (String_split 32%N header) 1 = Some token /\
      jwt_verify (calls (store s)) token = Some (Some (ObjectIdOf (a_id user))) in
  (let '(r, s') := route GetValidate s in
   accounts s' = accounts s /\
   ((auth_status r = 200 /\
     exists user, named user /\ auth_body r = Profile (userToResponse user)) \/
    auth_status r = 401)) /\
  (let '(r, s') := route PostLogout s in
   accounts s' = accounts s /\
   ((auth_status r = 200 /\ exists user, named user) \/ auth_status r = 401)).
Proof.
  cbv zeta. unfold auth_router, behind_authenticateJWT.
  pose proof (authenticateJWT_passage authorization s) as H.
  destruct (authenticateJWT fault jwt_verify authorization s) as [[r|user] s'].
  - destruct H as (Ha & _ & _ & H401 & _). simpl. auto.
  - destruct H as (Ha & _ & _ & Hin & header & token & Hh & _ & Ht & Hv).
    unfold validate, logout. unfold_auth. simpl.
    split; (split; [assumption|]); left; (split; [reflexivity|]);
      exists user; repeat split; eauto.
Qed.

Lemma register_fresh (req : AuthRequest) (s : Site) :
  let s' :=
    snd (register fault clock objectId email_query cast_other bcrypt_hash jwt_sign req s) in
  accounts s' = accounts s \/
  exists user, accounts s' = accounts s ++ [user] /\
               forall a, In a (accounts s) -> a_email a <> a_email user.
Proof.
  destruct s as [us [ds vs n]]. unfold register. unfold_auth.
  auth_branches; pairs; simpl; try (left; reflexivity).
  all: right; eexists; split; [reflexivity|]; intros a Ha; simpl; intros E.
  all: match goal with
       | H : existsb _ _ = false |- _ =>
           apply Bool.not_true_iff_false in H; apply H;
           apply existsb_exists; exists a; split; [exact Ha | now apply jsstring_eqb_eq]
       end.
Qed.

Lemma login_accounts (req : AuthRequest) (s : Site) :
  accounts (snd (login fault email_query bcrypt_compare jwt_sign req s)) = accounts s.
Proof.
  destruct s as [us [ds vs n]]. unfold login. unfold_auth.
  auth_branches; pairs; reflexivity.
Qed.

(** No two accounts have the same email: a request to [/auth] keeps
    it so. *)
Theorem auth_router_keeps_emails_unique (authorization : option jsstring) (call : authCall)
    (s : Site) :
  NoDup (map a_email (accounts s)) ->
  NoDup (map a_email
           (accounts (snd (auth_router fault clock objectId email_query cast_other
                             bcrypt_hash bcrypt_compare jwt_sign jwt_verify
                             authorization call s)))).
Proof.
  intros H. destruct call as [req|req| |]; unfold auth_router.
  - destruct (register_fresh req s) as [-> | (user & -> & Hfresh)]; [assumption|].
    rewrite map_app. simpl. apply NoDup_appended; [assumption|].
    intros Hin. apply in_map_iff in Hin as (a & Ha & Hin). now apply (Hfresh a).
  - now rewrite login_accounts.
  - unfold behind_authenticateJWT.
    pose proof (authenticateJWT_passage authorization s) as Hp.
    destruct (authenticateJWT fault jwt_verify authorization s) as [[r|user] s'];
      destruct Hp as (Ha & _); unfold validate; unfold_auth; simpl; now rewrite Ha.
  - unfold behind_authenticateJWT.
    pose proof (authenticateJWT_passage authorization s) as Hp.
    destruct (authenticateJWT fault jwt_verify authorization s) as [[r|user] s'];
      destruct Hp as (Ha & _); unfold logout; simpl; now rewrite Ha.
Qed.

End AccountProperties.

(** ** The routes of the documents *)

Lemma owns_as_user (account : Account) (d : Document) :
  owns (Some (as_user account)) d = ownedBy (a_id account) d.
Proof. reflexivity. Qed.

Lemma edits_versions (u : option User) (w w' : World) :
  edits u w w' ->
  forall v,
    (In v (versions w') -> In v (versions w) \/ belongs_to u (documents w') v) /\
    (In v (versions w) -> In v (versions w') \/ belongs_to u (documents w') v).
Proof.
  intros [_ [-> | [(x & d & -> & Hd & Hx & Ho & _)
                  | (before & x & after & x' & d & -> & -> & Hf & _ & Hd & Hx & Ho)]]] v.
  - auto.
  - split; intros H; [|left; apply in_or_app; now left].
    apply in_app_or in H as [H|[<-|[]]]; [now left|].
    right. exists d. auto.
  - assert (Hx' : v_documentId x' = v_documentId x).
    { unfold version_frozen in Hf. congruence. }
    split; intros H; apply in_app_or in H as [H|[<-|H]];
      try (left; apply in_or_app; simpl; now auto);
      right; exists d; repeat split; auto; congruence.
Qed.

Lemma creates_versions (u : option User) (w w' : World) :
  creates u w w' ->
  forall v,
    (In v (versions w') -> In v (versions w) \/ belongs_to u (documents w') v) /\
    (In v (versions w) -> In v (versions w') \/ belongs_to u (documents w') v).
Proof.
  intros [[_ ->] | (d & Hd & Ho & _ & _ & [-> | (x & -> & Hx & _)])] v; auto.
  split; intros H; [|left; apply in_or_app; now left].
  apply in_app_or in H as [H|[<-|[]]]; [now left|].
  right. exists d. rewrite Hd. repeat split; auto. apply in_elt.
Qed.

Section RouteProperties.

Variable JSON_parse : jsstring -> option json.
Variable JSON_stringify : json -> jsstring.
Variable dmp_loaded : bool.
Variable lcs_phase : nat -> list json -> list json -> option (list (akey * delta)).
Variable fault : nat -> bool.
Variable clock : nat -> Z.
Variable objectId : nat -> oid.
Variable jwt_verify : nat -> jsstring -> option claim.

(** The handlers that read change no document and no version. *)
Lemma reading_edits (u : option User) (req : Request) (lreq : ListRequest) (w : World) :
  edits u w (snd (getDocumentById fault req w)) /\
  edits u w (snd (getVersionById fault req w)) /\
  edits u w (snd (getVersions fault req w)) /\
  edits u w (snd (getDocuments fault lreq w)).
Proof.
  destruct w as [ds vs n].
  unfold getDocumentById, getVersionById, getVersions, getDocuments,
    Version_findSorted, Document_countDocuments, Document_findPage, try_catch_json.
  unfold_handler.
  repeat split; simpl; repeat (branch; simpl); left; reflexivity.
Qed.

(** What a handler does to the store, for the account of the request:
    it edits, or it creates. *)
Lemma documentController_changes (call : documentCall) (account : Account) (w : World) :
  let w' := snd (documentController JSON_parse JSON_stringify dmp_loaded lcs_phase fault
                   clock objectId call account w) in
  edits (Some (as_user account)) w w' \/ creates (Some (as_user account)) w w'.
Proof.
  destruct call as [req|lreq|req|req|req|req|req|req|req|req];
    unfold documentController, replied, listed; cbv zeta.
  - right. apply (createDocument_creates fault clock objectId (with_user account req)).
  - left.
    destruct (reading_edits (Some (as_user account)) (mkRequest NotAnObjectId NotAnObjectId
                None None None None) (with_list_user account lreq) w) as (_ & _ & _ & H).
    destruct (getDocuments fault (with_list_user account lreq) w) as [[r|p] w'];
      exact H.
  - left. apply (reading_edits _ (with_user account req) (mkListRequest None None None)).
  - left. apply (createVersion_edits JSON_parse JSON_stringify dmp_loaded lcs_phase fault
                   clock objectId (with_user account req)).
  - left.
    destruct (reading_edits (Some (as_user account)) (with_user account req)
                (mkListRequest None None None) w) as (_ & _ & H & _).
    destruct (getVersions fault (with_user account req) w) as [[r|p] w']; exact H.
  - left. apply (reading_edits _ (with_user account req) (mkListRequest None None None)).
  - left. apply (mergeVersion_edits fault clock objectId (with_user account req)).
  - left. apply (updateDocumentName_edits fault clock (with_user account req)).
  - left. apply (updateCurrentVersion_edits fault clock (with_user account req)).
  - left. apply (updateVersionContent_edits fault clock (with_user account req)).
Qed.

(** A handler does not answer as the middleware does. *)
Lemma documentController_answers (call : documentCall) (account : Account) (w : World)
    (r : AuthResponse) :
  fst (documentController JSON_parse JSON_stringify dmp_loaded lcs_phase fault clock
         objectId call account w) <> Refused r.
Proof.
  destruct call; unfold documentController, replied, listed; cbn [fst];
    try discriminate.
  - destruct (fst (getDocuments _ _ _)); discriminate.
  - destruct (fst (getVersions _ _ _)); discriminate.
Qed.

(** A request to [/documents] is refused with 401, and changes
    nothing, unless the token of its header names an account of the
    store; then it changes no account, no document of another user,
    and no version but those of the documents of that account. *)
Theorem documents_router_access (authorization : option jsstring) (call : documentCall)
    (s : Site) :
  let '(answer, s') :=
    documents_router JSON_parse JSON_stringify dmp_loaded lcs_phase fault clock objectId
      jwt_verify authorization call s in
  accounts s' = accounts s /\
  match answer with
  | Refused r =>
      auth_status r = 401 /\
      documents (store s') = documents (store s) /\
      versions (store s') = versions (store s)
  | _ =>
      exists account header token,
        In account (accounts s) /\
        authorization = Some header /\
        nth_error (String_split 32%N header) 1 = Some token /\
        jwt_verify (calls (store s)) token = Some (Some (ObjectIdOf (a_id account))) /\
        let foreign := filter (fun d => negb (ownedBy (a_id account) d)) in
        let mine v :=
          exists d, In d (documents (store s')) /\ d_id d = v_documentId v /\
                    ownedBy (a_id account) d = true in
        foreign (documents (store s')) = foreign (documents (store s)) /\
        (forall v, In v (versions (store s')) -> In v (versions (store s)) \/ mine v) /\
        (forall v, In v (versions (store s)) -> In v (versions (store s')) \/ mine v)
  end.
Proof.
  unfold documents_router.
  pose proof (authenticateJWT_passage fault jwt_verify authorization s) as Hp.
  destruct (authenticateJWT fault jwt_verify authorization s) as [[r|account] s1].
  - destruct Hp as (Ha & Hd & Hv & H401 & _). simpl. auto.
  - destruct Hp as (Ha & Hd & Hv & Hin & header & token & Hh & _ & Ht & Hj).
    pose proof (documentController_changes call account (store s1)) as Hc.
    pose proof (documentController_answers call account (store s1)) as Hnot.
    cbv zeta in Hc.
    destruct (documentController _ _ _ _ _ _ _ call account (store s1)) as [answer w'].
    cbn [fst snd accounts store] in *. split; [assumption|].
    assert (Hall :
      filter (fun d => negb (ownedBy (a_id account) d)) (documents w')
      = filter (fun d => negb (ownedBy (a_id account) d)) (documents (store s)) /\
      forall v,
        (In v (versions w') -> In v (versions (store s))
                               \/ belongs_to (Some (as_user account)) (documents w') v) /\
        (In v (versions (store s)) -> In v (versions w')
                               \/ belongs_to (Some (as_user account)) (documents w') v)).
    { rewrite <- Hd, <- Hv.
      destruct Hc as [Hc|Hc]; split;
        first [ exact (edits_foreign _ _ _ Hc) | exact (creates_foreign _ _ _ Hc)
              | exact (edits_versions _ _ _ Hc) | exact (creates_versions _ _ _ Hc) ]. }
    destruct Hall as [Hdocs Hvers].
    assert (Hgoal :
      exists account0 header0 token0,
        In account0 (accounts s) /\
        authorization = Some header0 /\
        nth_error (String_split 32%N header0) 1 = Some token0 /\
        jwt_verify (calls (store s)) token0 = Some (Some (ObjectIdOf (a_id account0))) /\
        filter (fun d => negb (ownedBy (a_id account0) d)) (documents w')
        = filter (fun d => negb (ownedBy (a_id account0) d)) (documents (store s)) /\
        (forall v, In v (versions w') ->
                   In v (versions (store s)) \/
                   exists d, In d (documents w') /\ d_id d = v_documentId v /\
                             ownedBy (a_id account0) d = true) /\
        (forall v, In v (versions (store s)) ->
                   In v (versions w') \/
                   exists d, In d (documents w') /\ d_id d = v_documentId v /\
                             ownedBy (a_id account0) d = true)).
    { exists account, header, token. repeat split; auto; intros v Hvin.
      - exact (proj1 (Hvers v) Hvin).
      - exact (proj2 (Hvers v) Hvin). }
    destruct answer; [|exact Hgoal..].
    exfalso. exact (Hnot r eq_refl).
Qed.

(** Behind the middleware the handlers have a user: the 401 of a
    request to [/documents] is always the answer of the middleware. *)
Theorem documents_router_unauthorized (authorization : option jsstring)
    (call : documentCall) (s : Site) (r : Response) :
  fst (documents_router JSON_parse JSON_stringify dmp_loaded lcs_phase fault clock objectId
         jwt_verify authorization call s) = Replied r ->
  status r <> 401.
Proof.
  unfold documents_router.
  destruct (authenticateJWT fault jwt_verify authorization s) as [[r0|account] s1];
    [discriminate|].
  cbn [fst]. destruct (store s1) as [ds vs n].
  destruct call as [req|lreq|req|req|req|req|req|req|req|req];
    unfold documentController, replied, listed, createDocument, getDocuments,
      getDocumentById, createVersion, computeDiff, getVersions, getVersionById,
      mergeVersion, updateDocumentName, updateCurrentVersion, updateVersionContent,
      Version_findSorted, Document_countDocuments, Document_findPage, try_catch_json,
      with_user, with_list_user;
    unfold_handler; simpl; repeat (branch; simpl); intros [= <-]; discriminate.
Qed.

End RouteProperties.

(* ================================================================== *)
(** ** The requests to [/auth] and [/documents] on given sites *)

(** The hypothesis of [authenticateJWT_ignores_rest] holds of the
    token [alice]. *)
Lemma authenticateJWT_ignores_rest_witness :
  no_space (js "alice") = true /\
  authenticateJWT no_fault verify_alice (Some (js "Bearer " ++ js "alice" ++ 32%N :: js "and more"))
    (site_of empty_store)
  = authenticateJWT no_fault verify_alice (Some (js "Bearer " ++ js "alice"))
      (site_of empty_store).
Proof.
  split; [reflexivity|].
  apply (authenticateJWT_ignores_rest no_fault verify_alice (js "alice") (js "and more")).
  reflexivity.
Defined.

(** The hypotheses of [register_twice] hold when [jwt.sign] has no
    secret: the first request is answered 500, and the second 409. *)
Lemma register_twice_witness :
  let register := register no_fault ticks nth_id no_query no_cast prefix_hash no_secret in
  let run := register carol_request (site_of empty_store) in
  auth_status (fst run) = 500 /\
  accounts (snd run) <> accounts (site_of empty_store) /\
  auth_status (fst (register carol_request (snd run))) = 409.
Proof.
  intros register run.
  split; [reflexivity|]. split; [vm_compute; discriminate|].
  destruct (register_twice no_fault ticks nth_id no_query no_cast prefix_hash no_secret
              carol_request carol_request (site_of empty_store) (snd run) (fst run)
              (js "carol@example.org")) as (_ & _ & H).
  - apply surjective_pairing.
  - vm_compute. discriminate.
  - reflexivity.
  - reflexivity.
  - apply H; reflexivity.
Defined.

(** The hypotheses of [register_then_login] hold of the stand-in for
    bcrypt. *)
Lemma register_then_login_witness :
  let run := register no_fault ticks nth_id no_query no_cast prefix_hash one_token
               carol_request (site_of empty_store) in
  exists token user,
    auth_body (fst run) = Session token user /\
    fst (login no_fault no_query prefix_compare one_token
           (mkAuthRequest None (auth_email carol_request) (auth_password carol_request))
           (snd run))
    = mkAuthResponse 200 (Session (js "header.payload.signature") user).
Proof.
  intros run.
  apply (register_then_login no_fault ticks nth_id no_query no_cast prefix_hash
           prefix_compare one_token carol_request (site_of empty_store) (snd run) (fst run)
           (js "carol@example.org") (js "header.payload.signature")).
  - apply surjective_pairing.
  - reflexivity.
  - reflexivity.
  - intros n [| | |p| |] h; try discriminate. intros [= <-]. simpl.
    now rewrite jsstring_eqb_refl.
  - reflexivity.
  - reflexivity.
Defined.

(** The hypothesis of [auth_router_keeps_emails_unique] holds of the
    site of [alice]. *)
Lemma auth_router_keeps_emails_unique_witness :
  NoDup (map a_email
           (accounts (snd (auth_router no_fault ticks nth_id no_query no_cast prefix_hash
                             prefix_compare one_token verify_alice None
                             (PostRegister carol_request) (site_of empty_store))))).
Proof.
  apply (auth_router_keeps_emails_unique no_fault ticks nth_id no_query no_cast prefix_hash
           prefix_compare one_token verify_alice None (PostRegister carol_request)
           (site_of empty_store)).
  repeat constructor. intros [].
Defined.

(** The hypothesis of [documents_router_unauthorized] holds when
    [alice] asks for a document that is not there. *)
Lemma documents_router_unauthorized_witness :
  let r := mkResponse 404 (Message "Document not found") in
  fst (documents_router JSON.parse JSON.stringify true no_lcs no_fault ticks nth_id
         verify_alice (Some (js "Bearer alice"))
         (GetDocumentById (mkRequest (ObjectIdOf 12%N) NotAnObjectId None None None None))
         (site_of empty_store)) = Replied r /\
  status r <> 401.
Proof.
  intros r. split; [reflexivity|].
  apply (documents_router_unauthorized JSON.parse JSON.stringify true no_lcs no_fault ticks
           nth_id verify_alice (Some (js "Bearer alice"))
           (GetDocumentById (mkRequest (ObjectIdOf 12%N) NotAnObjectId None None None None))
           (site_of empty_store) r).
  reflexivity.
Defined.

(* ================================================================== *)
(** * The options of [diffPatcher] *)

Lemma getOwn_filtered (name : jsstring) (props : list (jsstring * json)) :
  propertyFilter name = true -> getOwn name (filtered props) = getOwn name props.
Proof.
  intros Hn. induction props as [|[k v] props IH]; [reflexivity|].
  simpl. destruct (propertyFilter k) eqn:Ek; simpl.
  - now rewrite IH.
  - rewrite IH. destruct (jsstring_eqb k name) eqn:E; [|reflexivity].
    apply jsstring_eqb_eq in E. congruence.
Qed.

Lemma leftChildren_filtered (d : json -> json -> outcome)
    (right props : list (jsstring * json)) :
  leftChildren d (filtered right) (filtered props) = leftChildren d right props.
Proof.
  induction props as [|[name lv] props IH]; [reflexivity|].
  simpl. destruct (propertyFilter name) eqn:En; simpl; [|assumption].
  now rewrite En, IH, getOwn_filtered.
Qed.

Lemma rightChildren_filtered (left props : list (jsstring * json)) :
  rightChildren (filtered left) (filtered props) = rightChildren left props.
Proof.
  unfold rightChildren.
  induction props as [|[name rv] props IH]; [reflexivity|].
  simpl. destruct (propertyFilter name) eqn:En; simpl; [|assumption].
  now rewrite En, IH, getOwn_filtered.
Qed.

Lemma leftChildren_names (d : json -> json -> outcome) (right props : list (jsstring * json))
    (members : list (jsstring * delta)) :
  leftChildren d right props = Some members ->
  forall name dl, In (name, dl) members -> propertyFilter name = true.
Proof.
  revert members. induction props as [|[k lv] props IH]; simpl; intros members H name dl Hin.
  - injection H as <-. destruct Hin.
  - destruct (propertyFilter k) eqn:Ek; [|eauto].
    destruct (leftChildren d right props) as [rest|];
      [|destruct (match getOwn k right with Some rv => d lv rv | None => _ end);
        discriminate].
    destruct (match getOwn k right with Some rv => d lv rv | None => _ end);
      simpl in H; try discriminate; injection H as <-; eauto.
    destruct Hin as [[= <- <-]|Hin]; eauto.
Qed.

Lemma rightChildren_names (left props : list (jsstring * json)) :
  forall name dl, In (name, dl) (rightChildren left props) -> propertyFilter name = true.
Proof.
  unfold rightChildren. intros name dl Hin.
  apply in_flat_map in Hin as ([k rv] & _ & Hin).
  destruct (propertyFilter k) eqn:Ek; [|destruct Hin].
  destruct (getOwn k left); [destruct Hin|].
  destruct Hin as [[= <- <-]|[]]. assumption.
Qed.

Section OptionProperties.

Variable JSON_stringify : json -> jsstring.
Variable dmp_loaded : bool.
Variable lcs_phase : nat -> list json -> list json -> option (list (akey * delta)).

(** [propertyFilter]: the diff of two objects is the diff of the two
    objects without their [$hashKey], and no member of it is named
    [$hashKey]. *)
Theorem diff_ignores_hashKey (left right : list (jsstring * json)) :
  let diff := diffPatcher_diff JSON_stringify dmp_loaded lcs_phase in
  diff (JObj left) (JObj right) = diff (JObj (filtered left)) (JObj (filtered right)) /\
  forall members name d,
    diff (JObj left) (JObj right) = Delta (DObject members) ->
    In (name, d) members -> name <> js "$hashKey".
Proof.
  cbv zeta. unfold diffPatcher_diff. split.
  - simpl. now rewrite leftChildren_filtered, rightChildren_filtered.
  - intros members name d. simpl.
    destruct (leftChildren _ right left) as [ms|] eqn:El; [|discriminate].
    destruct (ms ++ rightChildren left right) as [|m rest] eqn:E; [discriminate|].
    intros [= <-] Hin. rewrite <- E in Hin.
    assert (Hf : propertyFilter name = true).
    { apply in_app_or in Hin as [Hin|Hin].
      - exact (leftChildren_names _ _ _ _ El name d Hin).
      - exact (rightChildren_names _ _ name d Hin). }
    intros ->. discriminate.
Qed.

Lemma matchItems_same_record (x y : json) :
  same_record x y = true -> matchItems JSON_stringify x y = Some true.
Proof.
  unfold same_record, matchItems, objectHash, get_id.
  destruct x as [| | | | |px]; try discriminate. destruct y as [| | | | |py]; try discriminate.
  destruct (getOwn (js "id") px) as [i|]; [|discriminate].
  destruct (getOwn (js "id") py) as [j|]; [|discriminate].
  intros H. apply andb_prop in H as [H Hs]. apply andb_prop in H as [Ht Hc].
  assert (Htj : truthy (Some j) = true).
  { destruct i, j; try discriminate; simpl in *; try assumption.
    - apply Bool.eqb_prop in Hs. congruence.
    - apply number_eqb_eq in Hs. subst. assumption.
    - apply jsstring_eqb_eq in Hs. congruence. }
  cbn [strict_eq typeof_object negb orb]. rewrite Ht, Htj. now rewrite Hs.
Qed.

Lemma commonHead_records (xs ys : list json) :
  Forall2 (fun x y => same_record x y = true) xs ys ->
  commonHead JSON_stringify xs ys = Some (List.length xs).
Proof.
  induction 1 as [|x y xs ys Hxy H IH]; [reflexivity|].
  simpl. now rewrite (matchItems_same_record _ _ Hxy), IH.
Qed.

(** The children of two arrays that match item by item. *)
Lemma pairedChildren_in_place (d : json -> json -> outcome) (len : nat) (ys items : list json) :
  forall i, i + List.length items = len -> List.length ys = len ->
  match pairedChildren d len 0 len len ys i items with
  | None =>
      exists j x y, nth_error items j = Some x /\ nth_error ys (i + j) = Some y /\
                    d x y = Threw
  | Some members =>
      (forall k dl, In (k, dl) members ->
         exists j x y, k = AIdx (i + j) /\ nth_error items j = Some x /\
                       nth_error ys (i + j) = Some y /\ d x y = Delta dl) /\
      (members = [] ->
       forall j x y, nth_error items j = Some x -> nth_error ys (i + j) = Some y ->
                     d x y = Undefined)
  end.
Proof.
  induction items as [|x items IH]; intros i Hi Hlen.
  - simpl. split; [intros k dl []|]. intros _ [|j] x y; discriminate.
  - simpl in Hi. simpl. unfold pairedIndex.
    assert (Hlt : i < len) by lia. apply Nat.ltb_lt in Hlt. rewrite Hlt.
    destruct (nth_error ys i) as [y|] eqn:Ey.
    2:{ apply nth_error_None in Ey. apply Nat.ltb_lt in Hlt. lia. }
    specialize (IH (S i) ltac:(lia) Hlen).
    destruct (pairedChildren d len 0 len len ys (S i) items) as [rest|].
    + destruct IH as [IHin IHnil].
      destruct (d x y) as [| |dl0] eqn:Ed; simpl.
      * exists 0, x, y. rewrite Nat.add_0_r. auto.
      * split.
        -- intros k dl Hin. destruct (IHin k dl Hin) as (j & x' & y' & -> & Hx & Hy & Hd).
           exists (S j), x', y'. rewrite Nat.add_succ_r. auto.
        -- intros Hnil [|j] x' y' Hx Hy.
           ++ rewrite Nat.add_0_r in Hy. simpl in Hx. congruence.
           ++ rewrite Nat.add_succ_r in Hy. exact (IHnil Hnil j x' y' Hx Hy).
      * split; [|discriminate].
        intros k dl [[= <- <-]|Hin].
        -- exists 0, x, y. rewrite Nat.add_0_r. auto.
        -- destruct (IHin k dl Hin) as (j & x' & y' & -> & Hx & Hy & Hd).
           exists (S j), x', y'. rewrite Nat.add_succ_r. auto.
    + destruct IH as (j & x' & y' & Hx & Hy & Hd).
      assert (Hex : exists j0 x0 y0, nth_error (x :: items) j0 = Some x0 /\
                                     nth_error ys (i + j0) = Some y0 /\ d x0 y0 = Threw).
      { exists (S j), x', y'. rewrite Nat.add_succ_r. auto. }
      destruct (d x y); simpl; exact Hex.
Qed.

(** [objectHash]: two arrays of records that have, position by
    position, the same [id] are diffed record by record.  The delta
    has no removal, addition or move: each of its members is the delta
    of the two records at its index; there is no delta when no record
    has changed; the diff throws only when the diff of two records
    does. *)
Theorem diff_records_in_place (xs ys : list json) :
  let diff := diffPatcher_diff JSON_stringify dmp_loaded lcs_phase in
  Forall2 (fun x y => same_record x y = true) xs ys ->
  match diff (JArr xs) (JArr ys) with
  | Threw =>
      exists i x y, nth_error xs i = Some x /\ nth_error ys i = Some y /\ diff x y = Threw
  | Undefined =>
      forall i x y, nth_error xs i = Some x -> nth_error ys i = Some y ->
                    diff x y = Undefined
  | Delta (DArray members) =>
      members <> [] /\
      forall k d, In (k, d) members ->
        exists i x y, k = AIdx i /\ nth_error xs i = Some x /\ nth_error ys i = Some y /\
                      diff x y = Delta d
  | Delta _ => False
  end.
Proof.
  cbv zeta. unfold diffPatcher_diff. intros H.
  pose proof (Forall2_length H) as Hlen.
  pose proof (pairedChildren_in_place (diff JSON_stringify dmp_loaded lcs_phase)
                (List.length xs) ys xs 0 eq_refl (eq_sym Hlen)) as Hc.
  simpl. rewrite (commonHead_records xs ys H).
  unfold commonTail. rewrite skipn_all, Hlen, skipn_all. simpl.
  unfold arrayMiddle. rewrite Nat.add_0_r, Nat.eqb_refl, <- Hlen, Nat.eqb_refl.
  destruct (pairedChildren _ _ 0 _ _ ys 0 xs) as [[|m members]|].
  - destruct Hc as [_ Hc]. exact (Hc eq_refl).
  - destruct Hc as [Hc _]. split; [discriminate|]. exact Hc.
  - exact Hc.
Qed.

End OptionProperties.

(** The hypothesis of [diff_records_in_place] holds of a record whose
    text is edited: the delta is the delta of the record. *)
Lemma diff_records_in_place_witness :
  let diff := diffPatcher_diff JSON.stringify true no_lcs in
  Forall2 (fun x y => same_record x y = true) [record_with (js "old")] [record_with (js "new")] /\
  diff (JArr [record_with (js "old")]) (JArr [record_with (js "new")])
  = Delta (DArray [(AIdx 0, DObject [(js "text", DReplaced (JStr (js "old")) (JStr (js "new")))])]) /\
  match diff (JArr [record_with (js "old")]) (JArr [record_with (js "new")]) with
  | Threw =>
      exists i x y, nth_error [record_with (js "old")] i = Some x /\
                    nth_error [record_with (js "new")] i = Some y /\ diff x y = Threw
  | Undefined =>
      forall i x y, nth_error [record_with (js "old")] i = Some x ->
                    nth_error [record_with (js "new")] i = Some y -> diff x y = Undefined
  | Delta (DArray members) =>
      members <> [] /\
      forall k d, In (k, d) members ->
        exists i x y, k = AIdx i /\ nth_error [record_with (js "old")] i = Some x /\
                      nth_error [record_with (js "new")] i = Some y /\ diff x y = Delta d
  | Delta _ => False
  end.
Proof.
  intros diff.
  assert (H : Forall2 (fun x y => same_record x y = true)
                [record_with (js "old")] [record_with (js "new")]).
  { repeat constructor. }
  split; [exact H|]. split; [reflexivity|].
  exact (diff_records_in_place JSON.stringify true no_lcs _ _ H).
Defined.
